(** * SharedCalendar: a shallow embedding of the single-file React calendar

    The component of [zdielany_webovy_kalendar_react_single_file.jsx] is
    embedded function by function.  The JavaScript built-ins it calls
    ([Date], [Number], [JSON], [btoa]/[atob], [encodeURIComponent] /
    [decodeURIComponent], [String.prototype.replace] ...) are embedded first,
    following ECMA-262 and the HTML standard; the component's own functions
    come next, under their source names; the theorems come last. *)

From Stdlib Require Import ZArith Lia List Ascii String Bool Sorted.
From stdpp Require Import base option list gmap.

Local Open Scope Z_scope.

(** ** Strings

    A JavaScript string is a sequence of UTF-16 code units. *)

Definition jsstring := list Z.

Definition code_unit (c : Z) : Prop := 0 <= c < 65536.

(** [str] turns an ASCII literal of the development into a JavaScript string. *)
Definition str (s : string) : jsstring :=
  List.map (fun a => Z.of_nat (nat_of_ascii a)) (list_ascii_of_string s).

Definition jsstring_eqb (a b : jsstring) : bool := bool_decide (a = b).

(** [s.slice(a, b)] for indices [0 <= a <= b]. *)
Definition slice (a b : nat) (s : jsstring) : jsstring := take (b - a) (drop a s).

(** Decimal digits: [digits_pad w n] is [n mod 10^w] written with exactly [w]
    digits; [digits n] is the shortest decimal numeral of [n >= 0]. *)
Fixpoint digits_pad (w : nat) (n : Z) : jsstring :=
  match w with
  | O => []
  | S k => digits_pad k (n / 10) ++ [48 + n mod 10]
  end.

Fixpoint digits_fuel (fuel : nat) (n : Z) : jsstring :=
  match fuel with
  | O => []
  | S k => if n <? 10 then [48 + n] else digits_fuel k (n / 10) ++ [48 + n mod 10]
  end.

Definition digits (n : Z) : jsstring := digits_fuel (S (Z.to_nat (Z.log2 n))) n.

Definition is_digit (c : Z) : bool := (48 <=? c) && (c <=? 57).

(** Reads the digits at the front of [s], most significant first, on top of
    the accumulator [acc]; returns the value, the number of digits read and
    the rest. *)
Fixpoint read_digits (s : jsstring) (acc : Z) (n : nat) : Z * nat * jsstring :=
  match s with
  | c :: s' => if is_digit c then read_digits s' (10 * acc + (c - 48)) (S n) else (acc, n, s)
  | [] => (acc, n, s)
  end.

(** Reads exactly [w] digits. *)
Fixpoint take_digits (w : nat) (s : jsstring) (acc : Z) : option (Z * jsstring) :=
  match w with
  | O => Some (acc, s)
  | S k =>
      match s with
      | c :: s' => if is_digit c then take_digits k s' (10 * acc + (c - 48)) else None
      | [] => None
      end
  end.

(** ** Dates (ECMA-262, "Date Objects")

    A time value is a number of milliseconds since the epoch, or NaN, which
    is [None] here: a [date] is the time value of a Date object, and an
    Invalid Date is [None].  The host's time zone is a fixed offset [tz] from
    UTC, in milliseconds (LocalTZA); daylight saving changes are outside the
    embedding. *)

Module Date.

Definition msPerDay : Z := 86400000.
Definition msPerHour : Z := 3600000.
Definition msPerMinute : Z := 60000.
Definition msPerSecond : Z := 1000.
Definition maxTime : Z := 8640000000000000.

Definition Day (t : Z) : Z := t / msPerDay.
Definition TimeWithinDay (t : Z) : Z := t mod msPerDay.

Definition DaysInYear (y : Z) : Z :=
  if negb (y mod 4 =? 0) then 365
  else if negb (y mod 100 =? 0) then 366
  else if negb (y mod 400 =? 0) then 365
  else 366.

Definition DayFromYear (y : Z) : Z :=
  365 * (y - 1970) + (y - 1969) / 4 - (y - 1901) / 100 + (y - 1601) / 400.

Definition TimeFromYear (y : Z) : Z := msPerDay * DayFromYear y.

(** The largest [y] with [TimeFromYear y <= t]: an estimate from the mean
    length of a year, corrected by at most one. *)
Definition YearFromTime (t : Z) : Z :=
  let d := Day t in
  let y0 := 1970 + (400 * d) / 146097 in
  if DayFromYear (y0 + 1) <=? d then y0 + 1
  else if DayFromYear y0 <=? d then y0
  else y0 - 1.

Definition InLeapYear (t : Z) : Z :=
  if DaysInYear (YearFromTime t) =? 366 then 1 else 0.

Definition DayWithinYear (t : Z) : Z := Day t - DayFromYear (YearFromTime t).

(** Day number, within its year, of the first day of month [m] (0 = January);
    [leap] is 1 in a leap year and 0 otherwise. *)
Definition monthStart (m leap : Z) : Z :=
  if m =? 0 then 0
  else if m =? 1 then 31
  else if m =? 2 then 59 + leap
  else if m =? 3 then 90 + leap
  else if m =? 4 then 120 + leap
  else if m =? 5 then 151 + leap
  else if m =? 6 then 181 + leap
  else if m =? 7 then 212 + leap
  else if m =? 8 then 243 + leap
  else if m =? 9 then 273 + leap
  else if m =? 10 then 304 + leap
  else 334 + leap.

Definition monthOfDay (d leap : Z) : Z :=
  if d <? 31 then 0
  else if d <? 59 + leap then 1
  else if d <? 90 + leap then 2
  else if d <? 120 + leap then 3
  else if d <? 151 + leap then 4
  else if d <? 181 + leap then 5
  else if d <? 212 + leap then 6
  else if d <? 243 + leap then 7
  else if d <? 273 + leap then 8
  else if d <? 304 + leap then 9
  else if d <? 334 + leap then 10
  else 11.

Definition MonthFromTime (t : Z) : Z := monthOfDay (DayWithinYear t) (InLeapYear t).

Definition DateFromTime (t : Z) : Z :=
  DayWithinYear t - monthStart (MonthFromTime t) (InLeapYear t) + 1.

Definition WeekDay (t : Z) : Z := (Day t + 4) mod 7.

Definition HourFromTime (t : Z) : Z := (t / msPerHour) mod 24.
Definition MinFromTime (t : Z) : Z := (t / msPerMinute) mod 60.
Definition SecFromTime (t : Z) : Z := (t / msPerSecond) mod 60.
Definition msFromTime (t : Z) : Z := t mod msPerSecond.

Definition MakeTime (hour min sec ms : Z) : Z :=
  hour * msPerHour + min * msPerMinute + sec * msPerSecond + ms.

(** [MakeDay]: the day number of the first day of month [month mod 12] of
    year [year + floor(month / 12)], plus [date - 1]. *)
Definition MakeDay (year month date : Z) : Z :=
  let ym := year + month / 12 in
  let mn := month mod 12 in
  let leap := if DaysInYear ym =? 366 then 1 else 0 in
  DayFromYear ym + monthStart mn leap + date - 1.

Definition MakeDate (day time : Z) : Z := day * msPerDay + time.

Definition TimeClip (t : Z) : option Z :=
  if Z.abs t >? maxTime then None else Some t.

Definition date := option Z.

Section Host.
(** LocalTZA of the host, in milliseconds. *)
Variable tz : Z.

Definition LocalTime (t : Z) : Z := t + tz.
Definition UTC (t : Z) : Z := t - tz.

(** [new Date(year, month, date)] on integral arguments: a year from 0 to
    99 stands for 1900 + year. *)
Definition new_ymd (year month dt : Z) : date :=
  let yr := if (0 <=? year) && (year <=? 99) then 1900 + year else year in
  TimeClip (UTC (MakeDate (MakeDay yr month dt) (MakeTime 0 0 0 0))).

(** The getters answer NaN ([None]) on an Invalid Date. *)
Definition getFullYear (d : date) : option Z := t ← d; Some (YearFromTime (LocalTime t)).
Definition getMonth (d : date) : option Z := t ← d; Some (MonthFromTime (LocalTime t)).
Definition getDate (d : date) : option Z := t ← d; Some (DateFromTime (LocalTime t)).
Definition getDay (d : date) : option Z := t ← d; Some (WeekDay (LocalTime t)).

(** [d.setDate(dt)]: the Invalid Date stays invalid, and a NaN argument
    makes the date invalid. *)
Definition setDate (d : date) (dt : option Z) : date :=
  t ← d;
  let lt := LocalTime t in
  dt ← dt;
  TimeClip (UTC (MakeDate (MakeDay (YearFromTime lt) (MonthFromTime lt) dt)
                          (TimeWithinDay lt))).

(** [new Date(y, m, d)] where the arguments come from getters. *)
Definition new_ymd_opt (year month dt : option Z) : date :=
  y ← year; m ← month; d ← dt; new_ymd y m d.

(** *** The date-time string format

    [toISOString]: [YYYY-MM-DDTHH:mm:ss.sssZ] in UTC, the year as
    [+YYYYYY] or [-YYYYYY] outside 0..9999.  It throws a RangeError on an
    Invalid Date: [None]. *)
Definition isoYear (y : Z) : jsstring :=
  if (0 <=? y) && (y <=? 9999) then digits_pad 4 y
  else if 0 <=? y then 43 :: digits_pad 6 y
  else 45 :: digits_pad 6 (- y).

Definition toISOString (d : date) : option jsstring :=
  t ← d;
  Some (isoYear (YearFromTime t) ++ [45] ++ digits_pad 2 (MonthFromTime t + 1)
        ++ [45] ++ digits_pad 2 (DateFromTime t)
        ++ [84] ++ digits_pad 2 (HourFromTime t)
        ++ [58] ++ digits_pad 2 (MinFromTime t)
        ++ [58] ++ digits_pad 2 (SecFromTime t)
        ++ [46] ++ digits_pad 3 (msFromTime t) ++ [90]).

(** [toTimeString]: [HH:mm:ss GMT+hhmm] in local time; the name of the time
    zone that an engine may append in brackets is left out. *)
Definition toTimeString (d : date) : jsstring :=
  match d with
  | None => str "Invalid Date"
  | Some t =>
      let lt := LocalTime t in
      let off := Z.abs tz / msPerMinute in
      digits_pad 2 (HourFromTime lt) ++ [58] ++ digits_pad 2 (MinFromTime lt)
      ++ [58] ++ digits_pad 2 (SecFromTime lt) ++ str " GMT"
      ++ [if 0 <=? tz then 43 else 45]
      ++ digits_pad 2 (off / 60) ++ digits_pad 2 (off mod 60)
  end.

(** Parsing of the date-time string format.  The fields, in order: the
    year, the month and the day (1 when left out), then the time of day (if
    a [T] follows) and the offset. *)
Definition parse_year (s : jsstring) : option (Z * jsstring) :=
  match s with
  | c :: s' =>
      if c =? 43 then take_digits 6 s' 0
      else if c =? 45 then
        '(y, r) ← take_digits 6 s' 0;
        if y =? 0 then None else Some (- y, r)
      else take_digits 4 s 0
  | [] => None
  end.

Definition parse_month_day (s : jsstring) : option (Z * Z * jsstring) :=
  match s with
  | 45 :: s1 =>
      '(m, r1) ← take_digits 2 s1 0;
      match r1 with
      | 45 :: s2 => '(d, r2) ← take_digits 2 s2 0; Some (m, d, r2)
      | _ => Some (m, 1, r1)
      end
  | _ => Some (1, 1, s)
  end.

(** The time of day after [T]: [HH:mm], [HH:mm:ss] or [HH:mm:ss.sss]. *)
Definition parse_time (s : jsstring) : option (Z * Z * Z * Z * jsstring) :=
  '(h, r1) ← take_digits 2 s 0;
  match r1 with
  | 58 :: s2 =>
      '(mi, r2) ← take_digits 2 s2 0;
      match r2 with
      | 58 :: s3 =>
          '(se, r3) ← take_digits 2 s3 0;
          match r3 with
          | 46 :: s4 => '(ms, r4) ← take_digits 3 s4 0; Some (h, mi, se, ms, r4)
          | _ => Some (h, mi, se, 0, r3)
          end
      | _ => Some (h, mi, 0, 0, r2)
      end
  | _ => None
  end.

(** The offset: [Z], [+HH:mm] or [-HH:mm]; [None] inside [Some] when the
    string ends without one. *)
Definition parse_offset (s : jsstring) : option (option Z) :=
  match s with
  | [] => Some None
  | [90] => Some (Some 0)
  | sign :: s1 =>
      if (sign =? 43) || (sign =? 45) then
        '(h, r1) ← take_digits 2 s1 0;
        match r1 with
        | 58 :: s2 =>
            '(mi, r2) ← take_digits 2 s2 0;
            match r2 with
            | [] =>
                if (h <=? 23) && (mi <=? 59) then
                  let off := h * msPerHour + mi * msPerMinute in
                  Some (Some (if sign =? 43 then off else - off))
                else None
            | _ => None
            end
        | _ => None
        end
      else None
  end.

Definition valid_time (h mi se ms : Z) : bool :=
  ((h <=? 23) && (mi <=? 59) && (se <=? 59))
  || ((h =? 24) && (mi =? 0) && (se =? 0) && (ms =? 0)).

(** [Date.parse]: a string that is not in the date-time string format, or
    has an illegal field, gives NaN.  (An engine may accept further,
    implementation-defined formats; none is modelled.)  A date-only form is
    UTC; a date-time form without an offset is local time. *)
Definition parse (s : jsstring) : date :=
  '(y, r0) ← parse_year s;
  '(m, d, r1) ← parse_month_day r0;
  if negb ((1 <=? m) && (m <=? 12) && (1 <=? d) && (d <=? 31)) then None
  else
    let day := MakeDay y (m - 1) d in
    match r1 with
    | [] => TimeClip (MakeDate day 0)
    | 84 :: r2 =>
        '(h, mi, se, ms, r3) ← parse_time r2;
        off ← parse_offset r3;
        if valid_time h mi se ms then
          let t := MakeDate day (MakeTime h mi se ms) in
          match off with
          | None => TimeClip (UTC t)
          | Some o => TimeClip (t - o)
          end
        else None
    | _ => None
    end.

(** Relational comparison and subtraction of two Dates go through their
    time values; a comparison with NaN is false and a difference with NaN
    is NaN. *)
Definition ge (a b : date) : bool :=
  match a, b with Some x, Some y => y <=? x | _, _ => false end.
Definition lt (a b : date) : bool :=
  match a, b with Some x, Some y => x <? y | _, _ => false end.
Definition sub (a b : date) : option Z :=
  x ← a; y ← b; Some (x - y).
End Host.

End Date.


(** ** White space and trimming

    [is_ws] is the set StrWhiteSpaceChar (WhiteSpace and LineTerminator) that
    [String.prototype.trim] and the conversion of a string to a number strip. *)

Definition is_ws (c : Z) : bool :=
  ((9 <=? c) && (c <=? 13)) || (c =? 32) || (c =? 160) || (c =? 5760)
  || ((8192 <=? c) && (c <=? 8202)) || (c =? 8232) || (c =? 8233)
  || (c =? 8239) || (c =? 8287) || (c =? 12288) || (c =? 65279).

Fixpoint trimStart (s : jsstring) : jsstring :=
  match s with
  | c :: r => if is_ws c then trimStart r else s
  | [] => []
  end.

Definition trim (s : jsstring) : jsstring := rev (trimStart (rev (trimStart s))).

(** [s.split(",")]: the pieces between the occurrences of the separator
    [sep]; [cur] is the piece being read, reversed. *)
Fixpoint split_acc (sep : Z) (s : jsstring) (cur : jsstring) : list jsstring :=
  match s with
  | [] => [rev cur]
  | c :: r => if c =? sep then rev cur :: split_acc sep r [] else split_acc sep r (c :: cur)
  end.

Definition split (sep : Z) (s : jsstring) : list jsstring := split_acc sep s [].

(** [l.join(sep)]. *)
Fixpoint join (sep : jsstring) (l : list jsstring) : jsstring :=
  match l with
  | [] => []
  | [x] => x
  | x :: r => x ++ sep ++ join sep r
  end.

(** ** Numbers

    A Number is NaN, an infinity, or a finite value, kept as the decimal
    [m * 10^e] it was written as, in normal form ([m] not a multiple of 10,
    and [e = 0] when [m = 0]).  The value is exact: the rounding of IEEE 754
    doubles is outside the embedding, which therefore agrees with an engine
    on the decimals a double carries faithfully (up to 15 significant digits,
    and every integer up to 2^53).  The two zeros are one: both are falsy and
    both print as "0". *)

Module Num.

Inductive number :=
  | NaN
  | Inf (neg : bool)
  | Fin (m e : Z).

Fixpoint strip_zeros (fuel : nat) (m e : Z) : Z * Z :=
  match fuel with
  | O => (m, e)
  | S k => if m mod 10 =? 0 then strip_zeros k (m / 10) (e + 1) else (m, e)
  end.

(** The number [m * 10^e], in normal form. *)
Definition dec (m e : Z) : number :=
  if m =? 0 then Fin 0 0
  else let '(m', e') := strip_zeros (Z.to_nat (Z.log2 (Z.abs m))) m e in Fin m' e'.

Definition of_Z (z : Z) : number := dec z 0.

(** ToBoolean on a number. *)
Definition truthy (n : number) : bool :=
  match n with
  | NaN => false
  | Inf _ => true
  | Fin m _ => negb (m =? 0)
  end.

(** [a || b] on numbers. *)
Definition or_else (a b : number) : number := if truthy a then a else b.

(** A number that is a positive integer. *)
Definition positive_integer (n : number) : Prop :=
  exists m e, n = Fin m e /\ 0 < m /\ 0 <= e.

Definition neg (n : number) : number :=
  match n with
  | NaN => NaN
  | Inf b => Inf (negb b)
  | Fin m e => Fin (- m) e
  end.

(** *** StringToNumber *)

Definition hex_digit (c : Z) : option Z :=
  if is_digit c then Some (c - 48)
  else if (97 <=? c) && (c <=? 102) then Some (c - 87)
  else if (65 <=? c) && (c <=? 70) then Some (c - 55)
  else None.

(** The value of a non-empty string of digits of the given radix. *)
Fixpoint read_radix (radix : Z) (s : jsstring) (acc : Z) : option Z :=
  match s with
  | [] => Some acc
  | c :: r =>
      d ← hex_digit c;
      if d <? radix then read_radix radix r (radix * acc + d) else None
  end.

(** NonDecimalIntegerLiteral: [0x], [0o] or [0b] and at least one digit. *)
Definition non_decimal (s : jsstring) : option Z :=
  match s with
  | 48 :: p :: d :: r =>
      if (p =? 120) || (p =? 88) then read_radix 16 (d :: r) 0
      else if (p =? 111) || (p =? 79) then read_radix 8 (d :: r) 0
      else if (p =? 98) || (p =? 66) then read_radix 2 (d :: r) 0
      else None
  | _ => None
  end.

(** ExponentPart, which must reach the end of the string; no exponent part
    is the exponent 0. *)
Definition exponent_part (s : jsstring) : option Z :=
  match s with
  | [] => Some 0
  | c :: r =>
      if (c =? 101) || (c =? 69) then
        let '(sign, r') :=
          match r with
          | 43 :: r' => (1, r')
          | 45 :: r' => (-1, r')
          | _ => (1, r)
          end in
        match read_digits r' 0 0 with
        | (x, S _, []) => Some (sign * x)
        | _ => None
        end
      else None
  end.

(** StrUnsignedDecimalLiteral. *)
Definition unsigned_decimal (s : jsstring) : number :=
  if jsstring_eqb s (str "Infinity") then Inf false
  else
    let '(ip, ni, r1) := read_digits s 0 0 in
    let '(m, nf, r2) :=
      match r1 with
      | 46 :: r => read_digits r ip 0
      | _ => (ip, O, r1)
      end in
    if (ni + nf =? 0)%nat then NaN
    else match exponent_part r2 with
         | Some x => dec m (x - Z.of_nat nf)
         | None => NaN
         end.

Definition StringToNumber (s : jsstring) : number :=
  let t := trim s in
  match t with
  | [] => Fin 0 0
  | 43 :: u => unsigned_decimal u
  | 45 :: u => neg (unsigned_decimal u)
  | _ =>
      match non_decimal t with
      | Some z => of_Z z
      | None => unsigned_decimal t
      end
  end.

(** *** Number::toString, radix 10 *)

Definition exponent_string (x : Z) : jsstring :=
  [101] ++ (if 0 <=? x then [43] else [45]) ++ digits (Z.abs x).

(** A positive [m * 10^e] in normal form: [k] digits, the decimal point after
    the [n]-th. *)
Definition positive_toString (m e : Z) : jsstring :=
  let ds := digits m in
  let k := Z.of_nat (length ds) in
  let n := k + e in
  if (k <=? n) && (n <=? 21) then ds ++ repeat 48 (Z.to_nat (n - k))
  else if (0 <? n) && (n <=? 21) then take (Z.to_nat n) ds ++ [46] ++ drop (Z.to_nat n) ds
  else if (-6 <? n) && (n <=? 0) then [48; 46] ++ repeat 48 (Z.to_nat (- n)) ++ ds
  else if k =? 1 then ds ++ exponent_string (n - 1)
  else take 1 ds ++ [46] ++ drop 1 ds ++ exponent_string (n - 1).

Definition toString (x : number) : jsstring :=
  match x with
  | NaN => str "NaN"
  | Inf false => str "Infinity"
  | Inf true => str "-Infinity"
  | Fin m e =>
      if m =? 0 then [48]
      else if m <? 0 then 45 :: positive_toString (- m) e
      else positive_toString m e
  end.

End Num.


(** ** UTF-16 surrogates *)

Definition is_lead (c : Z) : bool := (55296 <=? c) && (c <=? 56319).
Definition is_trail (c : Z) : bool := (56320 <=? c) && (c <=? 57343).

(** The code point of a surrogate pair, and the pair of a code point above
    the Basic Multilingual Plane. *)
Definition pair_code_point (hi lo : Z) : Z := (hi - 55296) * 1024 + (lo - 56320) + 65536.
Definition utf16 (cp : Z) : jsstring :=
  if cp <? 65536 then [cp]
  else [55296 + (cp - 65536) / 1024; 56320 + (cp - 65536) mod 1024].

(** A string without a surrogate that is not part of a pair. *)
Fixpoint well_formed (s : jsstring) : bool :=
  match s with
  | [] => true
  | c :: r =>
      if is_lead c then
        match r with
        | c2 :: r2 => is_trail c2 && well_formed r2
        | [] => false
        end
      else negb (is_trail c) && well_formed r
  end.

(** A text that [encodeURIComponent] accepts: code units, and no surrogate on
    its own. *)
Definition encodable (s : jsstring) : Prop := Forall code_unit s /\ well_formed s = true.

Definition hex_char_upper (d : Z) : Z := if d <? 10 then 48 + d else 55 + d.
Definition hex_char_lower (d : Z) : Z := if d <? 10 then 48 + d else 87 + d.

(** ** [btoa] and [atob] (HTML standard: forgiving-base64) *)

Module Base64.

(** An octet. *)
Definition byte (b : Z) : Prop := 0 <= b <= 255.

Definition alphabet (i : Z) : Z :=
  if i <? 26 then 65 + i
  else if i <? 52 then 71 + i
  else if i <? 62 then i - 4
  else if i =? 62 then 43
  else 47.

Definition value_of (c : Z) : option Z :=
  if (65 <=? c) && (c <=? 90) then Some (c - 65)
  else if (97 <=? c) && (c <=? 122) then Some (c - 71)
  else if (48 <=? c) && (c <=? 57) then Some (c + 4)
  else if c =? 43 then Some 62
  else if c =? 47 then Some 63
  else None.

Fixpoint encode (l : list Z) : jsstring :=
  match l with
  | a :: b :: c :: r =>
      alphabet (a / 4) :: alphabet ((a mod 4) * 16 + b / 16)
      :: alphabet ((b mod 16) * 4 + c / 64) :: alphabet (c mod 64) :: encode r
  | [a; b] => [alphabet (a / 4); alphabet ((a mod 4) * 16 + b / 16); alphabet ((b mod 16) * 4); 61]
  | [a] => [alphabet (a / 4); alphabet ((a mod 4) * 16); 61; 61]
  | [] => []
  end.

(** [btoa] throws an InvalidCharacterError ([None]) on a code unit above
    0xFF. *)
Definition btoa (data : jsstring) : option jsstring :=
  if forallb (fun c => (0 <=? c) && (c <=? 255)) data then Some (encode data) else None.

Definition is_ascii_ws (c : Z) : bool :=
  (c =? 9) || (c =? 10) || (c =? 12) || (c =? 13) || (c =? 32).

(** At most two [=] are removed from the end of a string whose length is a
    multiple of four. *)
Definition strip_padding (s : jsstring) : jsstring :=
  if (length s mod 4 =? 0)%nat then
    match rev s with
    | a :: r =>
        if a =? 61 then
          match r with
          | b :: r' => if b =? 61 then rev r' else rev r
          | [] => rev r
          end
        else s
    | [] => s
    end
  else s.

(** Groups of four characters give three bytes; a last group of three gives
    two bytes and one of two gives one byte, the spare bits being dropped; a
    last group of one character is a failure. *)
Fixpoint decode (s : jsstring) : option (list Z) :=
  match s with
  | a :: b :: c :: d :: r =>
      va ← value_of a; vb ← value_of b; vc ← value_of c; vd ← value_of d;
      rest ← decode r;
      Some (va * 4 + vb / 16 :: (vb mod 16) * 16 + vc / 4 :: (vc mod 4) * 64 + vd :: rest)
  | [a; b; c] =>
      va ← value_of a; vb ← value_of b; vc ← value_of c;
      Some [va * 4 + vb / 16; (vb mod 16) * 16 + vc / 4]
  | [a; b] =>
      va ← value_of a; vb ← value_of b;
      Some [va * 4 + vb / 16]
  | [_] => None
  | [] => Some []
  end.

(** [atob] throws an InvalidCharacterError ([None]) when the decoding
    fails. *)
Definition atob (data : jsstring) : option jsstring :=
  decode (strip_padding (List.filter (fun c => negb (is_ascii_ws c)) data)).

End Base64.

(** ** [encodeURIComponent] and [decodeURIComponent] (ECMA-262, Encode and Decode) *)

Module URI.

(** A Unicode scalar value: a code point that is not a surrogate. *)
Definition scalar (cp : Z) : Prop :=
  0 <= cp <= 1114111 /\ ~ (55296 <= cp <= 57343).

Definition is_alnum (c : Z) : bool :=
  ((48 <=? c) && (c <=? 57)) || ((65 <=? c) && (c <=? 90)) || ((97 <=? c) && (c <=? 122)).

(** - _ . ! ~ * ' ( ) *)
Definition is_mark (c : Z) : bool :=
  (c =? 45) || (c =? 95) || (c =? 46) || (c =? 33) || (c =? 126)
  || (c =? 42) || (c =? 39) || (c =? 40) || (c =? 41).

Definition unreserved (c : Z) : bool := is_alnum c || is_mark c.

Definition utf8 (cp : Z) : list Z :=
  if cp <? 128 then [cp]
  else if cp <? 2048 then [192 + cp / 64; 128 + cp mod 64]
  else if cp <? 65536 then [224 + cp / 4096; 128 + (cp / 64) mod 64; 128 + cp mod 64]
  else [240 + cp / 262144; 128 + (cp / 4096) mod 64; 128 + (cp / 64) mod 64; 128 + cp mod 64].

Fixpoint percent (octets : list Z) : jsstring :=
  match octets with
  | [] => []
  | b :: r => 37 :: hex_char_upper (b / 16) :: hex_char_upper (b mod 16) :: percent r
  end.

(** [encodeURIComponent] throws a URIError ([None]) on a surrogate that is
    not part of a pair. *)
Fixpoint encodeURIComponent (s : jsstring) : option jsstring :=
  match s with
  | [] => Some []
  | c :: r =>
      if unreserved c then cons c <$> encodeURIComponent r
      else if is_trail c then None
      else if is_lead c then
        match r with
        | c2 :: r2 =>
            if is_trail c2
            then app (percent (utf8 (pair_code_point c c2))) <$> encodeURIComponent r2
            else None
        | [] => None
        end
      else app (percent (utf8 c)) <$> encodeURIComponent r
  end.

(** The decoder reads one code unit or one escape at a time.  [pending] is
    [None] between characters and [Some (n, acc, low)] inside a multi-octet
    character: [n] continuation octets are still to come, [acc] holds the
    bits read so far and [low] is the least code point that needs this many
    octets. *)
Definition finish (cp low : Z) : option jsstring :=
  if (cp <? low) || (1114111 <? cp) || ((55296 <=? cp) && (cp <=? 57343)) then None
  else Some (utf16 cp).

Fixpoint decode (s : jsstring) (pending : option (nat * Z * Z)) : option jsstring :=
  match s with
  | [] => match pending with None => Some [] | Some _ => None end
  | c :: r =>
      if c =? 37 then
        match r with
        | h :: l :: r' =>
            a ← Num.hex_digit h;
            b ← Num.hex_digit l;
            let B := 16 * a + b in
            match pending with
            | None =>
                if B <? 128 then cons B <$> decode r' None
                else if B <? 192 then None
                else if B <? 224 then decode r' (Some (1%nat, B - 192, 128))
                else if B <? 240 then decode r' (Some (2%nat, B - 224, 2048))
                else if B <? 248 then decode r' (Some (3%nat, B - 240, 65536))
                else None
            | Some (n, acc, low) =>
                if (128 <=? B) && (B <? 192) then
                  let acc' := acc * 64 + (B - 128) in
                  match n with
                  | 1%nat => u ← finish acc' low; app u <$> decode r' None
                  | S n' => decode r' (Some (n', acc', low))
                  | O => None
                  end
                else None
            end
        | _ => None
        end
      else
        match pending with
        | None => cons c <$> decode r None
        | Some _ => None
        end
  end.

(** [decodeURIComponent] throws a URIError ([None]) on a malformed escape. *)
Definition decodeURIComponent (s : jsstring) : option jsstring := decode s None.

End URI.


(** ** JSON values, [JSON.stringify] and [JSON.parse] (ECMA-262, "The JSON Object")

    An object is the list of its properties in creation order.  (An engine
    enumerates integer-like keys first; that reordering is not modelled, the
    calendar's records have none.) *)

Module JSON.

#[warnings="-register-all"]
Inductive value :=
  | VNull
  | VBool (b : bool)
  | VNum (n : Num.number)
  | VStr (s : jsstring)
  | VArr (elements : list value)
  | VObj (properties : list (jsstring * value)).

(** [o[k] = v]: an existing property keeps its place. *)
Fixpoint obj_set (k : jsstring) (v : value) (o : list (jsstring * value)) : list (jsstring * value) :=
  match o with
  | [] => [(k, v)]
  | (k', v') :: r => if jsstring_eqb k' k then (k', v) :: r else (k', v') :: obj_set k v r
  end.

Fixpoint obj_get (k : jsstring) (o : list (jsstring * value)) : option value :=
  match o with
  | [] => None
  | (k', v') :: r => if jsstring_eqb k' k then Some v' else obj_get k r
  end.

(** ToBoolean; [None] is [undefined]. *)
Definition truthy (v : option value) : bool :=
  match v with
  | None | Some VNull => false
  | Some (VBool b) => b
  | Some (VNum n) => Num.truthy n
  | Some (VStr s) => negb (jsstring_eqb s [])
  | Some (VArr _) | Some (VObj _) => true
  end.

(** *** JSON.stringify *)

Definition escape_unicode (c : Z) : jsstring :=
  [92; 117; hex_char_lower (c / 4096); hex_char_lower ((c / 256) mod 16);
   hex_char_lower ((c / 16) mod 16); hex_char_lower (c mod 16)].

(** One code unit that is not a surrogate. *)
Definition quote_unit (c : Z) : jsstring :=
  if c =? 8 then [92; 98]
  else if c =? 9 then [92; 116]
  else if c =? 10 then [92; 110]
  else if c =? 12 then [92; 102]
  else if c =? 13 then [92; 114]
  else if c =? 34 then [92; 34]
  else if c =? 92 then [92; 92]
  else if c <? 32 then escape_unicode c
  else [c].

(** QuoteJSONString without the quotes: a surrogate pair is copied, a
    surrogate on its own is escaped. *)
Fixpoint quote_body (s : jsstring) : jsstring :=
  match s with
  | [] => []
  | c :: r =>
      if is_lead c then
        match r with
        | c2 :: r2 =>
            if is_trail c2 then c :: c2 :: quote_body r2
            else escape_unicode c ++ quote_body r
        | [] => escape_unicode c
        end
      else if is_trail c then escape_unicode c ++ quote_body r
      else quote_unit c ++ quote_body r
  end.

Definition quote (s : jsstring) : jsstring := [34] ++ quote_body s ++ [34].

Definition stringify_number (n : Num.number) : jsstring :=
  match n with
  | Num.Fin _ _ => Num.toString n
  | _ => str "null"
  end.

(** The elements of an array, and the members of an object, are joined by
    commas. *)
Fixpoint stringify (v : value) : jsstring :=
  match v with
  | VNull => str "null"
  | VBool true => str "true"
  | VBool false => str "false"
  | VNum n => stringify_number n
  | VStr s => quote s
  | VArr l => [91] ++ join [44] (List.map stringify l) ++ [93]
  | VObj o =>
      [123] ++ join [44] (List.map (fun kx => quote kx.1 ++ [58] ++ stringify kx.2) o)
      ++ [125]
  end.

(** *** JSON.parse *)

Definition is_json_ws (c : Z) : bool := (c =? 32) || (c =? 9) || (c =? 10) || (c =? 13).

Fixpoint skip_ws (s : jsstring) : jsstring :=
  match s with
  | c :: r => if is_json_ws c then skip_ws r else s
  | [] => []
  end.

(** The characters of a string literal, after the opening quote, up to and
    including the closing one. *)
Fixpoint parse_chars (s : jsstring) : option (jsstring * jsstring) :=
  match s with
  | [] => None
  | c :: r =>
      if c =? 34 then Some ([], r)
      else if c =? 92 then
        match r with
        | e :: r1 =>
            if e =? 117 then
              match r1 with
              | a :: b :: c' :: d :: r' =>
                  va ← Num.hex_digit a; vb ← Num.hex_digit b;
                  vc ← Num.hex_digit c'; vd ← Num.hex_digit d;
                  '(body, rest) ← parse_chars r';
                  Some (va * 4096 + vb * 256 + vc * 16 + vd :: body, rest)
              | _ => None
              end
            else
              u ← (if e =? 34 then Some 34
                   else if e =? 92 then Some 92
                   else if e =? 47 then Some 47
                   else if e =? 98 then Some 8
                   else if e =? 102 then Some 12
                   else if e =? 110 then Some 10
                   else if e =? 114 then Some 13
                   else if e =? 116 then Some 9
                   else None);
              '(body, rest) ← parse_chars r1;
              Some (u :: body, rest)
        | [] => None
        end
      else if c <? 32 then None
      else '(body, rest) ← parse_chars r; Some (c :: body, rest)
  end.

(** A number literal: [-]? int frac? exp?, the integer part without a
    leading zero. *)
Definition parse_number (s : jsstring) : option (Num.number * jsstring) :=
  let '(negative, s1) :=
    match s with
    | c :: r => if c =? 45 then (true, r) else (false, s)
    | [] => (false, s)
    end in
  '(ip, r1) ← match s1 with
              | c :: r =>
                  if c =? 48 then Some (0, r)
                  else if is_digit c then
                    let '(x, _, r') := read_digits s1 0 0 in Some (x, r')
                  else None
              | [] => None
              end;
  '(m, nf, r2) ← match r1 with
                 | c :: r =>
                     if c =? 46 then
                       match read_digits r ip 0 with
                       | (_, O, _) => None
                       | (x, nf, r') => Some (x, nf, r')
                       end
                     else Some (ip, O, r1)
                 | [] => Some (ip, O, r1)
                 end;
  '(x, r3) ← match r2 with
             | c :: r =>
                 if (c =? 101) || (c =? 69) then
                   let '(sign, r') :=
                     match r with
                     | c' :: r' =>
                         if c' =? 43 then (1, r')
                         else if c' =? 45 then (-1, r')
                         else (1, r)
                     | [] => (1, r)
                     end in
                   match read_digits r' 0 0 with
                   | (_, O, _) => None
                   | (x, _, r'') => Some (sign * x, r'')
                   end
                 else Some (0, r2)
             | [] => Some (0, r2)
             end;
  let n := Num.dec m (x - Z.of_nat nf) in
  Some (if negative : bool then Num.neg n else n, r3).

(** The properties of an object literal, a later duplicate of a key
    overwriting the earlier value. *)
Definition build_object (members : list (jsstring * value)) : value :=
  VObj (fold_left (fun o kv => obj_set kv.1 kv.2 o) members []).

(** The parser consumes one unit of [fuel] per value, element and member. *)
Fixpoint parse_value (fuel : nat) (s : jsstring) : option (value * jsstring) :=
  match fuel with
  | O => None
  | S k =>
      match skip_ws s with
      | [] => None
      | c :: r =>
          if c =? 123 then
            match skip_ws r with
            | 125 :: r' => Some (VObj [], r')
            | _ => '(ms, r') ← parse_members k r; Some (build_object ms, r')
            end
          else if c =? 91 then
            match skip_ws r with
            | 93 :: r' => Some (VArr [], r')
            | _ => '(vs, r') ← parse_elements k r; Some (VArr vs, r')
            end
          else if c =? 34 then '(b, r') ← parse_chars r; Some (VStr b, r')
          else if (c =? 45) || is_digit c then
            '(n, r') ← parse_number (c :: r); Some (VNum n, r')
          else
            match c :: r with
            | 116 :: 114 :: 117 :: 101 :: r' => Some (VBool true, r')
            | 102 :: 97 :: 108 :: 115 :: 101 :: r' => Some (VBool false, r')
            | 110 :: 117 :: 108 :: 108 :: r' => Some (VNull, r')
            | _ => None
            end
      end
  end
with parse_elements (fuel : nat) (s : jsstring) : option (list value * jsstring) :=
  match fuel with
  | O => None
  | S k =>
      '(v, r) ← parse_value k s;
      match skip_ws r with
      | 44 :: r' => '(vs, r'') ← parse_elements k r'; Some (v :: vs, r'')
      | 93 :: r' => Some ([v], r')
      | _ => None
      end
  end
with parse_members (fuel : nat) (s : jsstring) : option (list (jsstring * value) * jsstring) :=
  match fuel with
  | O => None
  | S k =>
      match skip_ws s with
      | 34 :: r =>
          '(key, r1) ← parse_chars r;
          match skip_ws r1 with
          | 58 :: r2 =>
              '(v, r3) ← parse_value k r2;
              match skip_ws r3 with
              | 44 :: r4 => '(ms, r5) ← parse_members k r4; Some ((key, v) :: ms, r5)
              | 125 :: r4 => Some ([(key, v)], r4)
              | _ => None
              end
          | _ => None
          end
      | _ => None
      end
  end.

(** [JSON.parse] throws a SyntaxError ([None]) on a text that is not JSON.
    Every value, element and member takes at least one character, so the
    length of the text is fuel enough. *)
Definition parse (text : jsstring) : option value :=
  '(v, r) ← parse_value (S (length text)) text;
  match skip_ws r with
  | [] => Some v
  | _ => None
  end.

End JSON.


(** ** The calendar component *)

(** An exception thrown by a built-in. *)
Inductive exn := RangeError | TypeError | URIError | InvalidCharacterError | SyntaxError.

Inductive result (A : Type) :=
  | Ok (a : A)
  | Throw (e : exn).
Arguments Ok {A} a.
Arguments Throw {A} e.

(** The event record, with the properties in the order in which [saveEvent]
    writes them. *)
Module Event.
Record t := {
  id : jsstring;
  title : jsstring;
  start : jsstring;
  duration : Num.number;
  description : jsstring;
  attendees : list jsstring
}.

Definition to_value (e : t) : JSON.value :=
  JSON.VObj [(str "id", JSON.VStr (id e));
             (str "title", JSON.VStr (title e));
             (str "start", JSON.VStr (start e));
             (str "duration", JSON.VNum (duration e));
             (str "description", JSON.VStr (description e));
             (str "attendees", JSON.VArr (List.map JSON.VStr (attendees e)))].
End Event.

(** The form state.  [duration] holds a number when the form is opened and
    the text of the input once the user has typed in it. *)
Module Form.
Inductive field :=
  | Text (s : jsstring)
  | Numeric (n : Num.number).

Record t := {
  title : jsstring;
  date : jsstring;
  time : jsstring;
  duration : field;
  description : jsstring;
  attendees : jsstring
}.
End Form.

(** [Number(x)] on a form field. *)
Definition Number (x : Form.field) : Num.number :=
  match x with
  | Form.Text s => Num.StringToNumber s
  | Form.Numeric n => n
  end.

(** A URL in parsed form: what precedes the query, and the query as the list
    of its name-value pairs ([URLSearchParams]).  Writing the query into the
    URL string and parsing it back are inverse to each other (URL standard)
    and are not modelled. *)
Module URL.
Record t := { base : jsstring; searchParams : list (jsstring * jsstring) }.

Fixpoint get (name : jsstring) (q : list (jsstring * jsstring)) : option jsstring :=
  match q with
  | [] => None
  | (k, v) :: r => if jsstring_eqb k name then Some v else get name r
  end.

(** [set]: the first pair of that name takes the value and the others of
    that name are removed; a new pair is appended when there is none. *)
Fixpoint set (name v : jsstring) (q : list (jsstring * jsstring)) : list (jsstring * jsstring) :=
  match q with
  | [] => [(name, v)]
  | (k, w) :: r =>
      if jsstring_eqb k name
      then (k, v) :: List.filter (fun kv => negb (jsstring_eqb kv.1 name)) r
      else (k, w) :: set name v r
  end.
End URL.

(** The component's state ([useState]), and [draws], the number of calls of
    [Math.random] so far. *)
Record State := {
  today : Date.date;
  viewDate : Date.date;
  events : list Event.t;
  modalOpen : bool;
  editingEvent : option Event.t;
  form : Form.t;
  draws : nat
}.

Definition setViewDate (d : Date.date) (st : State) : State :=
  {| today := today st; viewDate := d; events := events st; modalOpen := modalOpen st;
     editingEvent := editingEvent st; form := form st; draws := draws st |}.

Definition setEvents (f : list Event.t -> list Event.t) (st : State) : State :=
  {| today := today st; viewDate := viewDate st; events := f (events st);
     modalOpen := modalOpen st; editingEvent := editingEvent st; form := form st;
     draws := draws st |}.

Definition setModalOpen (b : bool) (st : State) : State :=
  {| today := today st; viewDate := viewDate st; events := events st; modalOpen := b;
     editingEvent := editingEvent st; form := form st; draws := draws st |}.

Definition setEditingEvent (e : option Event.t) (st : State) : State :=
  {| today := today st; viewDate := viewDate st; events := events st;
     modalOpen := modalOpen st; editingEvent := e; form := form st; draws := draws st |}.

Definition setForm (f : Form.t) (st : State) : State :=
  {| today := today st; viewDate := viewDate st; events := events st;
     modalOpen := modalOpen st; editingEvent := editingEvent st; form := f;
     draws := draws st |}.

Definition setDraws (n : nat) (st : State) : State :=
  {| today := today st; viewDate := viewDate st; events := events st;
     modalOpen := modalOpen st; editingEvent := editingEvent st; form := form st;
     draws := n |}.

(** What the page is opened with: its URL and the local storage. *)
Record Host := {
  location : URL.t;
  localStorage : gmap jsstring jsstring
}.

(** What the loading effect leaves: the event list (whatever JSON value was
    adopted), whether [console.warn] was called and whether the local storage
    was read. *)
Record Loaded := {
  loaded_events : JSON.value;
  warned : bool;
  storage_read : bool
}.

Definition STORAGE_KEY : jsstring := str "shared_calendar_events_v1".

(** The persisting effect:
    [localStorage.setItem(STORAGE_KEY, JSON.stringify(events))]. *)
Definition persist (events : list Event.t) (storage : gmap jsstring jsstring)
  : gmap jsstring jsstring :=
  <[STORAGE_KEY := JSON.stringify (JSON.VArr (List.map Event.to_value events))]> storage.

(** "(bez názvu)" *)
Definition placeholder : jsstring := [40; 98; 101; 122; 32; 110; 225; 122; 118; 117; 41].

(** [s.replace(/c/g, by)]: every occurrence of the code unit [c] is replaced. *)
Fixpoint replaceAll (c : Z) (by_ : jsstring) (s : jsstring) : jsstring :=
  match s with
  | [] => []
  | x :: r => if x =? c then by_ ++ replaceAll c by_ r else x :: replaceAll c by_ r
  end.

(** [function escapeICSText(s='') { return s.replace(/\n/g,'\\n').replace(/,/g,'\,'); }]
    The literal ['\\n'] is a backslash and an [n]; in the literal ['\,'] the
    backslash escapes the comma, and the literal is the comma alone. *)
Definition escapeICSText (s : jsstring) : jsstring :=
  replaceAll 44 [44] (replaceAll 10 [92; 110] s).

(** The lines of [exportICS] that embed a text of the event: SUMMARY, and
    DESCRIPTION when the description is not empty. *)
Definition exportICS_text_lines (ev : Event.t) : list jsstring :=
  [str "SUMMARY:" ++ escapeICSText (Event.title ev)]
  ++ (if jsstring_eqb (Event.description ev) [] then []
      else [str "DESCRIPTION:" ++ escapeICSText (Event.description ev)]).

(** [prev.filter(p => p.id !== id)] *)
Definition remove_id (id : jsstring) (prev : list Event.t) : list Event.t :=
  List.filter (fun p => negb (jsstring_eqb (Event.id p) id)) prev.

(** [deleteEvent]: [confirmed] is the answer of the [confirm] dialog. *)
Definition deleteEvent (confirmed : bool) (id : jsstring) (st : State) : State :=
  if negb confirmed then st
  else setEvents (remove_id id) st.

(** [Array.prototype.sort] with a comparator: a stable sort; a comparator
    result of NaN counts as 0.  [insert] puts [x], which stood before the
    elements of [l], in front of the first element that is not less than it. *)
Section Sort.
Context {A : Type} (compareFn : A -> A -> option Z).

Definition SortCompare (a b : A) : Z :=
  match compareFn a b with
  | Some v => v
  | None => 0
  end.

Fixpoint insert (x : A) (l : list A) : list A :=
  match l with
  | [] => [x]
  | y :: r => if SortCompare y x <? 0 then y :: insert x r else x :: y :: r
  end.

Fixpoint sort (l : list A) : list A :=
  match l with
  | [] => []
  | x :: r => insert x (sort r)
  end.
End Sort.

Section Component.
(** The host's offset from UTC, and the identifiers that
    [Math.random().toString(36).slice(2, 9)] yields, call after call. *)
Variable tz : Z.
Variable random_id : nat -> jsstring.

Definition cryptoRandomId (st : State) : jsstring * State :=
  (random_id (draws st), setDraws (S (draws st)) st).

Definition startOfMonth (d : Date.date) : Date.date :=
  Date.new_ymd_opt tz (Date.getFullYear tz d) (Date.getMonth tz d) (Some 1).

Definition endOfMonth (d : Date.date) : Date.date :=
  Date.new_ymd_opt tz (Date.getFullYear tz d) (Z.add 1 <$> Date.getMonth tz d) (Some 0).

Definition prevMonth (st : State) : State :=
  setViewDate
    (Date.new_ymd_opt tz (Date.getFullYear tz (viewDate st))
       ((fun m => m - 1) <$> Date.getMonth tz (viewDate st)) (Some 1)) st.

Definition nextMonth (st : State) : State :=
  setViewDate
    (Date.new_ymd_opt tz (Date.getFullYear tz (viewDate st))
       ((fun m => m + 1) <$> Date.getMonth tz (viewDate st)) (Some 1)) st.

Definition openNewModal (dateIso : jsstring) (st : State) : State :=
  setModalOpen true
    (setForm {| Form.title := []; Form.date := dateIso; Form.time := str "09:00";
                Form.duration := Form.Numeric (Num.of_Z 60); Form.description := [];
                Form.attendees := [] |}
       (setEditingEvent None st)).

(** [openEditModal]: [toISOString] throws on an event whose start is not a
    date. *)
Definition openEditModal (ev : Event.t) (st : State) : result State :=
  let d := Date.parse tz (Event.start ev) in
  match Date.toISOString d with
  | None => Throw RangeError
  | Some iso =>
      let isoDate := slice 0 10 iso in
      let hhmm := slice 0 5 (Date.toTimeString tz d) in
      Ok (setModalOpen true
            (setForm {| Form.title := Event.title ev;
                        Form.date := isoDate;
                        Form.time := hhmm;
                        Form.duration :=
                          Form.Numeric (Num.or_else (Event.duration ev) (Num.of_Z 60));
                        Form.description :=
                          (if jsstring_eqb (Event.description ev) [] then []
                           else Event.description ev);
                        Form.attendees := join (str ", ") (Event.attendees ev) |}
               (setEditingEvent (Some ev) st)))
  end.

(** The record [ev] that [saveEvent] builds (lines 86 to 94), and the state
    after the draw of its identifier. *)
Definition savedEvent (st : State) : result (Event.t * State) :=
  let f := form st in
  let start := Date.parse tz (Form.date f ++ str "T" ++ Form.time f) in
  let '(id, st1) :=
    match editingEvent st with
    | Some e => (Event.id e, st)
    | None => cryptoRandomId st
    end in
  match Date.toISOString start with
  | None => Throw RangeError
  | Some iso =>
      Ok ({| Event.id := id;
             Event.title := (if jsstring_eqb (Form.title f) [] then placeholder
                             else Form.title f);
             Event.start := iso;
             Event.duration := Num.or_else (Number (Form.duration f)) (Num.of_Z 60);
             Event.description := Form.description f;
             Event.attendees :=
               List.filter (fun s => negb (jsstring_eqb s []))
                 (List.map trim (split 44 (Form.attendees f))) |}, st1)
  end.

Definition saveEvent (st : State) : result State :=
  match savedEvent st with
  | Throw e => Throw e
  | Ok (ev, st1) =>
      Ok (setModalOpen false
            (setEvents
               (fun prev =>
                  match editingEvent st with
                  | Some _ =>
                      List.map (fun p => if jsstring_eqb (Event.id p) (Event.id ev)
                                         then ev else p) prev
                  | None => prev ++ [ev]
                  end) st1))
  end.

Definition eventsForDay (events : list Event.t) (date : Date.date) : list Event.t :=
  let dayStart :=
    Date.new_ymd_opt tz (Date.getFullYear tz date) (Date.getMonth tz date)
      (Date.getDate tz date) in
  let dayEnd :=
    Date.new_ymd_opt tz (Date.getFullYear tz date) (Date.getMonth tz date)
      (Z.add 1 <$> Date.getDate tz date) in
  sort (fun a b => Date.sub (Date.parse tz (Event.start a)) (Date.parse tz (Event.start b)))
    (List.filter
       (fun ev =>
          let s := Date.parse tz (Event.start ev) in
          Date.ge s dayStart && Date.lt s dayEnd)
       events).

(** The loop of [buildMonthGrid]: [n] cells are still to be pushed, the
    next one has index [i]. *)
Fixpoint push_cells (gridStart : Date.date) (n : nat) (i : Z) (days : list Date.date)
  : list Date.date :=
  match n with
  | O => days
  | S k =>
      let cell := Date.setDate tz gridStart (Z.add i <$> Date.getDate tz gridStart) in
      push_cells gridStart k (i + 1) (days ++ [cell])
  end.

(** [buildMonthGrid]: [new Date(first)] copies the time value; the source's
    [last = endOfMonth(d)] is computed and never used, and is left out. *)
Definition buildMonthGrid (d : Date.date) : list Date.date :=
  let first := startOfMonth d in
  let startWeekDay := Date.getDay tz first in
  let gridStart :=
    Date.setDate tz first
      (dt ← Date.getDate tz first; w ← startWeekDay; Some (dt - w)) in
  push_cells gridStart 42 0 [].

(** [JSON.stringify(events)], [encodeURIComponent], [btoa]. *)
Definition share_payload (events : list Event.t) : option jsstring :=
  escaped ← URI.encodeURIComponent
              (JSON.stringify (JSON.VArr (List.map Event.to_value events)));
  Base64.btoa escaped.

Definition makeShareLink (loc : URL.t) (events : list Event.t) : option URL.t :=
  payload ← share_payload events;
  Some {| URL.base := URL.base loc;
          URL.searchParams := URL.set (str "shared") payload (URL.searchParams loc) |}.

(** *** The loading effect *)

(** [e.id]: a TypeError ([None]) on [null]; the property of an object;
    [undefined] ([Some None]) on a number, a boolean, a string or an array,
    whose prototypes have no [id]. *)
Definition id_of (e : JSON.value) : option (option JSON.value) :=
  match e with
  | JSON.VNull => None
  | JSON.VObj o => Some (JSON.obj_get (str "id") o)
  | _ => Some None
  end.

Fixpoint indexed {A} (f : A -> JSON.value) (l : list A) (i : Z) : list (jsstring * JSON.value) :=
  match l with
  | [] => []
  | x :: r => (digits i, f x) :: indexed f r (i + 1)
  end.

(** [{...e}]: the own enumerable properties of [e]. *)
Definition spread (e : JSON.value) : list (jsstring * JSON.value) :=
  match e with
  | JSON.VObj o => o
  | JSON.VArr l => indexed (fun v => v) l 0
  | JSON.VStr s => indexed (fun c => JSON.VStr [c]) s 0
  | _ => []
  end.

(** [decoded.map(e => ({...e, id: e.id || cryptoRandomId()}))], from the
    [n]-th draw on; [None] when the callback throws. *)
Fixpoint assign_ids (decoded : list JSON.value) (n : nat) : option (list JSON.value) :=
  match decoded with
  | [] => Some []
  | e :: r =>
      i ← id_of e;
      let '(idv, n') :=
        if JSON.truthy i then (default JSON.VNull i, n)
        else (JSON.VStr (random_id n), S n) in
      r' ← assign_ids r n';
      Some (JSON.VObj (JSON.obj_set (str "id") idv (spread e)) :: r')
  end.

(** [JSON.parse(decodeURIComponent(atob(shared)))] *)
Definition decode_shared (shared : jsstring) : option JSON.value :=
  binary ← Base64.atob shared;
  text ← URI.decodeURIComponent binary;
  JSON.parse text.

(** The second half of the effect: the local storage. *)
Definition load_stored (h : Host) (warned : bool) : Loaded :=
  let raw := localStorage h !! STORAGE_KEY in
  match raw with
  | Some ((_ :: _) as text) =>
      match JSON.parse text with
      | Some v => {| loaded_events := v; warned := warned; storage_read := true |}
      | None => {| loaded_events := JSON.VArr []; warned := warned; storage_read := true |}
      end
  | _ => {| loaded_events := JSON.VArr []; warned := warned; storage_read := true |}
  end.

Definition load (h : Host) : Loaded :=
  match URL.get (str "shared") (URL.searchParams (location h)) with
  | Some ((_ :: _) as shared) =>
      match decode_shared shared with
      | Some (JSON.VArr decoded) =>
          match assign_ids decoded 0 with
          | Some l => {| loaded_events := JSON.VArr l; warned := false; storage_read := false |}
          | None => load_stored h true
          end
      | Some _ => load_stored h false
      | None => load_stored h true
      end
  | _ => load_stored h false
  end.
End Component.


(** ** The properties that the specification states

    Each is written from the words of the specification, over the values of
    the embedding, so that it can be checked against the functions above. *)

Module Spec.

(** A time value that is at least a hundred days inside the range of
    Date. *)
Definition inner (t : Z) : Prop := Z.abs t <= Date.maxTime - 100 * Date.msPerDay.

(** The local year is not one of 0..99, which [new Date(y, m, d)] reads as
    1900..1999. *)
Definition plain_year (tz t : Z) : Prop :=
  ~ (0 <= Date.YearFromTime (Date.LocalTime tz t) <= 99).

(** [f] is the local midnight that begins the first day of the month of
    [t]. *)
Definition first_of_month (tz t f : Z) : Prop :=
  Date.YearFromTime (Date.LocalTime tz f) = Date.YearFromTime (Date.LocalTime tz t)
  /\ Date.MonthFromTime (Date.LocalTime tz f) = Date.MonthFromTime (Date.LocalTime tz t)
  /\ Date.DateFromTime (Date.LocalTime tz f) = 1
  /\ Date.TimeWithinDay (Date.LocalTime tz f) = 0.

(** The grid of 42 cells for the reference date [d], by local calendar
    day: the first cell is a date of the day that lies as many days before
    the first day of the month of [d] as that day is after Sunday, each
    cell is a date of the day after the day of the cell before, and cell 7
    is a Sunday. *)
Definition month_grid (tz : Z) (d : Date.date) (grid : list Date.date) : Prop :=
  length grid = 42%nat
  /\ (exists t f g, d = Some t /\ first_of_month tz t f
        /\ grid !! 0%nat = Some (Some g)
        /\ Date.Day (Date.LocalTime tz g)
           = Date.Day (Date.LocalTime tz f) - Date.WeekDay (Date.LocalTime tz f))
  /\ (forall i a b, grid !! i = Some a -> grid !! S i = Some b ->
        exists ta tb, a = Some ta /\ b = Some tb
          /\ Date.Day (Date.LocalTime tz tb) = Date.Day (Date.LocalTime tz ta) + 1)
  /\ (exists c, grid !! 7%nat = Some c /\ Date.getDay tz c = Some 0).

(** The number of days of month [m] of year [y]. *)
Definition DaysInMonth (y m : Z) : Z := Date.MakeDay y (m + 1) 1 - Date.MakeDay y m 1.

(** [d'] is [d] moved by [k] whole calendar months, the day of the month
    kept when the month reached has that many days. *)
Definition shifted_month (tz k : Z) (d d' : Date.date) : Prop :=
  exists t t', d = Some t /\ d' = Some t'
    /\ 12 * Date.YearFromTime (Date.LocalTime tz t') + Date.MonthFromTime (Date.LocalTime tz t')
       = 12 * Date.YearFromTime (Date.LocalTime tz t) + Date.MonthFromTime (Date.LocalTime tz t) + k
    /\ (Date.DateFromTime (Date.LocalTime tz t)
         <= DaysInMonth (Date.YearFromTime (Date.LocalTime tz t'))
              (Date.MonthFromTime (Date.LocalTime tz t'))
        -> Date.DateFromTime (Date.LocalTime tz t') = Date.DateFromTime (Date.LocalTime tz t)).

(** [d'] is the local midnight that begins the first day of the month [k]
    calendar months away from the month of [d]. *)
Definition first_of_shifted_month (tz k : Z) (d d' : Date.date) : Prop :=
  exists t t', d = Some t /\ d' = Some t'
    /\ 12 * Date.YearFromTime (Date.LocalTime tz t') + Date.MonthFromTime (Date.LocalTime tz t')
       = 12 * Date.YearFromTime (Date.LocalTime tz t) + Date.MonthFromTime (Date.LocalTime tz t) + k
    /\ Date.DateFromTime (Date.LocalTime tz t') = 1
    /\ Date.TimeWithinDay (Date.LocalTime tz t') = 0.

(** The invariants of the data model on one event: a title that is not
    empty, a duration that is a positive integer, a start that parses to an
    instant. *)
Definition event_invariants (tz : Z) (ev : Event.t) : Prop :=
  Event.title ev <> []
  /\ Num.positive_integer (Event.duration ev)
  /\ is_Some (Date.parse tz (Event.start ev)).

(** Saving the form of [st] builds an event that has the invariants, with
    the placeholder for an empty title and 60 for a duration that is not a
    number. *)
Definition save_keeps_invariants (tz : Z) (random_id : nat -> jsstring) (st : State) : Prop :=
  exists ev st1,
    savedEvent tz random_id st = Ok (ev, st1)
    /\ event_invariants tz ev
    /\ (Form.title (form st) = [] -> Event.title ev = placeholder)
    /\ (Number (Form.duration (form st)) = Num.NaN -> Event.duration ev = Num.of_Z 60).

(** [ev] starts at an instant [s] with [lo <= s < hi]. *)
Definition starts_in (tz lo hi : Z) (ev : Event.t) : bool :=
  match Date.parse tz (Event.start ev) with
  | Some s => (lo <=? s) && (s <? hi)
  | None => false
  end.

(** Both events start at an instant, the first no later than the second. *)
Definition start_le (tz : Z) (a b : Event.t) : Prop :=
  match Date.parse tz (Event.start a), Date.parse tz (Event.start b) with
  | Some sa, Some sb => sa <= sb
  | _, _ => False
  end.

(** [ev] starts at an instant of the local calendar day [day], counted in
    days since 1 January 1970: from the local midnight that begins the day
    (included) to the one that ends it (excluded). *)
Definition starts_on (tz day : Z) (ev : Event.t) : bool :=
  match Date.parse tz (Event.start ev) with
  | Some s => Date.Day (Date.LocalTime tz s) =? day
  | None => false
  end.

(** [out] holds exactly the events of [events] that start on the local
    calendar day of [d], in ascending order of start. *)
Definition day_events (tz : Z) (events : list Event.t) (d : Date.date)
    (out : list Event.t) : Prop :=
  exists t, d = Some t
    /\ Permutation out
         (List.filter (starts_on tz (Date.Day (Date.LocalTime tz t))) events)
    /\ StronglySorted (start_le tz) out.

(** A record whose [id] is missing or falsy. *)
Definition lacks_id (v : JSON.value) : bool :=
  match v with
  | JSON.VObj o => negb (JSON.truthy (JSON.obj_get (str "id") o))
  | _ => false
  end.

(** A valid event, as far as sharing goes: its texts are strings of code
    units, its id is not empty and its duration is a positive integer, at
    most 2^53 - 1 (the integers that a Number holds exactly). *)
Definition valid_event (e : Event.t) : Prop :=
  Event.id e <> []
  /\ Forall code_unit (Event.id e)
  /\ Forall code_unit (Event.title e)
  /\ Forall code_unit (Event.start e)
  /\ Forall code_unit (Event.description e)
  /\ Forall (Forall code_unit) (Event.attendees e)
  /\ exists z, 0 < z <= 9007199254740991 /\ Event.duration e = Num.of_Z z.

End Spec.

(** ** Sample values *)

Module Sample.

Definition empty_form : Form.t :=
  {| Form.title := []; Form.date := []; Form.time := str "09:00";
     Form.duration := Form.Numeric (Num.of_Z 60); Form.description := [];
     Form.attendees := [] |}.

(** The component showing March 2024, on 15 March 2024, 00:00 UTC. *)
Definition march_2024 : State :=
  {| today := Some 1710460800000; viewDate := Some 1710460800000; events := [];
     modalOpen := false; editingEvent := None; form := empty_form; draws := 0 |}.

Definition ids (n : nat) : jsstring := str "id" ++ digits (Z.of_nat n).

Definition sync : Event.t :=
  {| Event.id := str "abc"; Event.title := str "Sync";
     Event.start := str "2024-03-15T09:00:00.000Z"; Event.duration := Num.of_Z 30;
     Event.description := str "weekly, short"; Event.attendees := [str "ana@example.com"] |}.

Definition lunch : Event.t :=
  {| Event.id := str "def"; Event.title := str "Lunch";
     Event.start := str "2024-03-15T12:00:00.000Z"; Event.duration := Num.of_Z 60;
     Event.description := []; Event.attendees := [] |}.

(** An event late in the evening, UTC. *)
Definition late : Event.t :=
  {| Event.id := str "ghi"; Event.title := str "Late";
     Event.start := str "2024-03-14T23:00:00.000Z"; Event.duration := Num.of_Z 60;
     Event.description := []; Event.attendees := [] |}.

(** An event at noon on 15 March of the year 50, and one at the last
    instant that a Date can hold. *)
Definition noon_50 : Event.t :=
  {| Event.id := str "jkl"; Event.title := str "Noon";
     Event.start := str "0050-03-15T12:00:00.000Z"; Event.duration := Num.of_Z 60;
     Event.description := []; Event.attendees := [] |}.

Definition last : Event.t :=
  {| Event.id := str "mno"; Event.title := str "Last";
     Event.start := str "+275760-09-13T00:00:00.000Z"; Event.duration := Num.of_Z 60;
     Event.description := []; Event.attendees := [] |}.

(** The payload that carries the JSON text of [v]. *)
Definition payload_of (v : JSON.value) : jsstring :=
  default [] (escaped ← URI.encodeURIComponent (JSON.stringify v);
              Base64.btoa escaped).

(** A page opened with the query [shared=payload] and a storage that holds
    [stored] under the key of the calendar. *)
Definition host (payload : option jsstring) (stored : option jsstring) : Host :=
  {| location :=
       {| URL.base := str "https://example.com/";
          URL.searchParams :=
            match payload with
            | Some p => [(str "shared", p)]
            | None => []
            end |};
     localStorage :=
       match stored with
       | Some text => {[ STORAGE_KEY := text ]}
       | None => ∅
       end |}.

(** A snapshot of one record, which has a title and no id. *)
Definition untitled : JSON.value :=
  JSON.VArr [JSON.VObj [(str "title", JSON.VStr (str "x"))]].

Definition with_events (l : list Event.t) : State := setEvents (fun _ => l) march_2024.

(** A form filled in by hand. *)
Definition typed_form (title date time duration : string) : Form.t :=
  {| Form.title := str title; Form.date := str date; Form.time := str time;
     Form.duration := Form.Text (str duration); Form.description := [];
     Form.attendees := str "ana@example.com, , peter@example.com" |}.

End Sample.

(** ** The rest of the component: the export, the cells of the view, the
    handlers of the buttons *)

(** *** Arithmetic of doubles (IEEE 754 binary64)

    [exportICS] computes the end of an event with the Number arithmetic of
    the language.  A finite double is kept here as the pair of a significand
    and a binary exponent, [m * 2^e]; the two zeros are one.  [round] is
    roundTiesToEven, the rounding of every operation. *)

Module Double.

Inductive t :=
  | NaN
  | Infinite (neg : bool)
  | Finite (m e : Z).

(** The fraction [n / d] divided by [2^k]. *)
Definition scale (n d k : Z) : Z * Z :=
  if 0 <=? k then (n, d * 2 ^ k) else (n * 2 ^ (- k), d).

(** The integer nearest to [n / d], the even one when two are as near. *)
Definition nearest (n d : Z) : Z :=
  let q := n / d in
  let r := n mod d in
  if 2 * r <? d then q
  else if d <? 2 * r then q + 1
  else if Z.even q then q else q + 1.

(** The [k] with [2^k <= n / d < 2^(k+1)], for positive [n] and [d]. *)
Definition ilog2 (n d : Z) : Z :=
  let k := Z.log2 n - Z.log2 d in
  let '(n', d') := scale n d k in
  if n' <? d' then k - 1 else k.

(** The double nearest to [n / d], for positive [n] and [d]: 53 bits of
    significand, fewer below [2^-1022], and the infinity from [2^1024]. *)
Definition round_pos (n d : Z) : t :=
  let ex := Z.max (ilog2 n d - 52) (-1074) in
  let '(n', d') := scale n d ex in
  let q := nearest n' d' in
  if (971 <? ex) || ((ex =? 971) && (2 ^ 53 <=? q)) then Infinite false
  else Finite q ex.

Definition neg (x : t) : t :=
  match x with
  | NaN => NaN
  | Infinite b => Infinite (negb b)
  | Finite m e => Finite (- m) e
  end.

(** The double nearest to [n / d], for a positive [d]. *)
Definition round (n d : Z) : t :=
  if n =? 0 then Finite 0 0
  else if 0 <? n then round_pos n d
  else neg (round_pos (- n) d).

(** The double nearest to [m * 2^e]. *)
Definition round_dyadic (m e : Z) : t :=
  let '(n, d) := scale m 1 (- e) in round n d.

Definition of_Z (z : Z) : t := round z 1.

(** The double that a Number of the embedding stands for. *)
Definition of_number (x : Num.number) : t :=
  match x with
  | Num.NaN => NaN
  | Num.Inf b => Infinite b
  | Num.Fin m e => if 0 <=? e then round (m * 10 ^ e) 1 else round m (10 ^ (- e))
  end.

(** [a * b] *)
Definition mul (a b : t) : t :=
  match a, b with
  | NaN, _ | _, NaN => NaN
  | Infinite s, Infinite s' => Infinite (xorb s s')
  | Infinite s, Finite m _ | Finite m _, Infinite s =>
      if m =? 0 then NaN else Infinite (xorb s (m <? 0))
  | Finite m1 e1, Finite m2 e2 => round_dyadic (m1 * m2) (e1 + e2)
  end.

(** [a + b] *)
Definition add (a b : t) : t :=
  match a, b with
  | NaN, _ | _, NaN => NaN
  | Infinite s, Infinite s' => if eqb s s' then Infinite s else NaN
  | Infinite s, Finite _ _ | Finite _ _, Infinite s => Infinite s
  | Finite m1 e1, Finite m2 e2 =>
      let e := Z.min e1 e2 in
      round_dyadic (m1 * 2 ^ (e1 - e) + m2 * 2 ^ (e2 - e)) e
  end.

(** [d.getTime()] *)
Definition of_time (d : Date.date) : t :=
  match d with
  | Some tv => of_Z tv
  | None => NaN
  end.

(** [new Date(x)] on a number: TimeClip, which makes NaN of what is not
    finite or lies beyond the range of Date, and drops the fraction of the
    rest. *)
Definition to_time (x : t) : Date.date :=
  match x with
  | Finite m e =>
      let '(n, d) := scale m 1 (- e) in
      if Z.abs n >? Date.maxTime * d then None else Some (Z.quot n d)
  | _ => None
  end.

(** The double [x] is the integer [z], held with an exponent that is not
    positive. *)
Definition holds (x : t) (z : Z) : Prop :=
  exists m e, x = Finite m e /\ e <= 0 /\ m = z * 2 ^ (- e).

End Double.

(** *** The export of the calendar *)

(** The UTC getters, NaN ([None]) on an Invalid Date. *)
Definition getUTCFullYear (d : Date.date) : option Z := t ← d; Some (Date.YearFromTime t).
Definition getUTCMonth (d : Date.date) : option Z := t ← d; Some (Date.MonthFromTime t).
Definition getUTCDate (d : Date.date) : option Z := t ← d; Some (Date.DateFromTime t).
Definition getUTCHours (d : Date.date) : option Z := t ← d; Some (Date.HourFromTime t).
Definition getUTCMinutes (d : Date.date) : option Z := t ← d; Some (Date.MinFromTime t).
Definition getUTCSeconds (d : Date.date) : option Z := t ← d; Some (Date.SecFromTime t).

(** [String(x)], and the [${x}] of a template literal, on a number that is an
    integer or NaN. *)
Definition ToString (x : option Z) : jsstring :=
  match x with
  | Some z => Num.toString (Num.of_Z z)
  | None => str "NaN"
  end.

(** [s.padStart(maxLength, fill)] with a filler of one code unit. *)
Definition padStart (maxLength : nat) (fill : Z) (s : jsstring) : jsstring :=
  repeat fill (maxLength - length s) ++ s.

Definition formatICSDatetime (d : Date.date) : jsstring :=
  let Y := getUTCFullYear d in
  let M := padStart 2 48 (ToString (Z.add 1 <$> getUTCMonth d)) in
  let D := padStart 2 48 (ToString (getUTCDate d)) in
  let h := padStart 2 48 (ToString (getUTCHours d)) in
  let m := padStart 2 48 (ToString (getUTCMinutes d)) in
  let s := padStart 2 48 (ToString (getUTCSeconds d)) in
  ToString Y ++ M ++ D ++ str "T" ++ h ++ m ++ s ++ str "Z".

(** The form of a date with UTC time in an iCalendar file (RFC 5545,
    DATE-TIME): eight digits, [T], six digits, [Z]. *)
Definition basic_format (s : jsstring) : bool :=
  bool_decide (length s = 16%nat)
  && forallb is_digit (take 8 s) && bool_decide (s !! 8%nat = Some 84)
  && forallb is_digit (take 6 (drop 9 s)) && bool_decide (s !! 15%nat = Some 90).

(** [s.startsWith(p)] *)
Definition starts_with (p s : jsstring) : bool := jsstring_eqb (take (length p) s) p.

Section ICS.
(** The host's offset from UTC, which [new Date(ev.start)] reads a start
    without an offset with. *)
Variable tz : Z.

(** [start.getTime() + (ev.duration || 60)*60*1000], as the Date built from
    it. *)
Definition end_of (start : Date.date) (duration : Num.number) : Date.date :=
  Double.to_time
    (Double.add (Double.of_time start)
       (Double.mul
          (Double.mul (Double.of_number (Num.or_else duration (Num.of_Z 60)))
             (Double.of_Z 60))
          (Double.of_Z 1000))).

(** The lines that one turn of the loop of [exportICS] pushes; [now] is the
    [new Date()] of that turn. *)
Definition vevent (now : Z) (ev : Event.t) : list jsstring :=
  let start := Date.parse tz (Event.start ev) in
  let dtstart := formatICSDatetime start in
  let dtend := formatICSDatetime (end_of start (Event.duration ev)) in
  let uid := Event.id ev ++ str "@sharedcalendar.local" in
  [str "BEGIN:VEVENT";
   str "UID:" ++ uid;
   str "DTSTAMP:" ++ formatICSDatetime (Some now);
   str "DTSTART:" ++ dtstart;
   str "DTEND:" ++ dtend;
   str "SUMMARY:" ++ escapeICSText (Event.title ev)]
  ++ (if jsstring_eqb (Event.description ev) [] then []
      else [str "DESCRIPTION:" ++ escapeICSText (Event.description ev)])
  ++ (match Event.attendees ev with
      | [] => []
      | _ :: _ => [str "ATTENDEE:" ++ join (str ", ") (Event.attendees ev)]
      end)
  ++ [str "END:VEVENT"].

(** The loop over the events; [clock i] is the time at the turn of the
    [i]-th event. *)
Fixpoint vevents (clock : nat -> Z) (i : nat) (events : list Event.t) : list jsstring :=
  match events with
  | [] => []
  | ev :: r => vevent (clock i) ev ++ vevents clock (S i) r
  end.

Definition exportICS_lines (clock : nat -> Z) (events : list Event.t) : list jsstring :=
  [str "BEGIN:VCALENDAR"; str "VERSION:2.0"; str "PRODID:-//SharedCalendar/1.0//SK"]
  ++ vevents clock O events
  ++ [str "END:VCALENDAR"].

(** [exportICS]: the text of the file that is offered for download. *)
Definition exportICS (clock : nat -> Z) (events : list Event.t) : jsstring :=
  join [13; 10] (exportICS_lines clock events).

End ICS.

(** The lines of a text whose line ends are CRLF, as those of an iCalendar
    file are (RFC 5545, 3.1): the pieces between the line ends.  [cur] is the
    piece that is being read, its last code unit first. *)
Fixpoint lines_from (cur s : jsstring) : list jsstring :=
  match s with
  | [] => [rev cur]
  | c :: r =>
      match r with
      | c' :: r' =>
          if (c =? 13) && (c' =? 10) then rev cur :: lines_from [] r'
          else lines_from (c :: cur) r
      | [] => [rev (c :: cur)]
      end
  end.

Definition text_lines (s : jsstring) : list jsstring := lines_from [] s.

(** *** The cells of the month view *)

Section View.
Variable tz : Z.

(** [a === b] on two numbers: false when one is NaN. *)
Definition strict_equal (a b : option Z) : bool :=
  match a, b with
  | Some x, Some y => x =? y
  | _, _ => false
  end.

Definition weekday_name (w : Z) : jsstring :=
  if w =? 0 then str "Sun" else if w =? 1 then str "Mon" else if w =? 2 then str "Tue"
  else if w =? 3 then str "Wed" else if w =? 4 then str "Thu" else if w =? 5 then str "Fri"
  else str "Sat".

Definition month_name (m : Z) : jsstring :=
  if m =? 0 then str "Jan" else if m =? 1 then str "Feb" else if m =? 2 then str "Mar"
  else if m =? 3 then str "Apr" else if m =? 4 then str "May" else if m =? 5 then str "Jun"
  else if m =? 6 then str "Jul" else if m =? 7 then str "Aug" else if m =? 8 then str "Sep"
  else if m =? 9 then str "Oct" else if m =? 10 then str "Nov" else str "Dec".

(** ToZeroPaddedDecimalString *)
Definition ToZeroPaddedDecimalString (n : Z) (minLength : nat) : jsstring :=
  padStart minLength 48 (digits n).

(** The year of a date string: a sign when it is negative, and four digits
    at least. *)
Definition year_string (yv : Z) : jsstring :=
  (if 0 <=? yv then [] else [45]) ++ ToZeroPaddedDecimalString (Z.abs yv) 4.

(** [toDateString]: the weekday, the month, the day and the year of the local
    date. *)
Definition toDateString (d : Date.date) : jsstring :=
  match d with
  | None => str "Invalid Date"
  | Some t =>
      let lt := Date.LocalTime tz t in
      let yv := Date.YearFromTime lt in
      weekday_name (Date.WeekDay lt) ++ str " " ++ month_name (Date.MonthFromTime lt)
      ++ str " " ++ ToZeroPaddedDecimalString (Date.DateFromTime lt) 2 ++ str " "
      ++ year_string yv
  end.

(** What the view computes for the cell of [date]: whether it lies in the
    month shown, whether it is today, its events, those shown (four at most)
    and the number of the others, when there are any. *)
Record Cell := {
  inMonth : bool;
  isToday : bool;
  dayEvents : list Event.t;
  shown : list Event.t;
  more : option nat
}.

Definition cell (st : State) (date : Date.date) : Cell :=
  let evs := eventsForDay tz (events st) date in
  {| inMonth := strict_equal (Date.getMonth tz date) (Date.getMonth tz (viewDate st));
     isToday := jsstring_eqb (toDateString date) (toDateString (today st));
     dayEvents := evs;
     shown := take 4 evs;
     more := if (4 <? length evs)%nat then Some (length evs - 4)%nat else None |}.

(** *** The handlers of the buttons *)

(** [goToday]; [now] is the time of the click. *)
Definition goToday (now : Z) (st : State) : State := setViewDate (Some now) st.

(** The button of a cell, [openNewModal(date.toISOString().slice(0,10))];
    [toISOString] throws on an Invalid Date.  The button of the header does
    the same with the time of the click for [date]. *)
Definition add_on_cell (date : Date.date) (st : State) : result State :=
  match Date.toISOString date with
  | None => Throw RangeError
  | Some iso => Ok (openNewModal (slice 0 10 iso) st)
  end.

End View.

(** *** The invitation by mail *)

Section Mail.
Variable tz : Z.
(** [Date.prototype.toLocaleString], which depends on the host and on its
    locale. *)
Variable toLocaleString : Date.date -> jsstring.

(** The text that [inviteByEmail] puts in the body of the mail. *)
Definition invitation (ev : Event.t) : jsstring :=
  let start := Date.parse tz (Event.start ev) in
  Event.title ev ++ [10] ++ toLocaleString start ++ str " ("
  ++ Num.toString (Num.or_else (Event.duration ev) (Num.of_Z 60)) ++ str " min)"
  ++ [10; 10] ++ Event.description ev.

(** [inviteByEmail]: the address that the page is sent to, or [None] when
    [encodeURIComponent] throws a URIError. *)
Definition inviteByEmail (ev : Event.t) : option jsstring :=
  let to := match Event.attendees ev with
            | [] => []
            | _ :: _ => join (str ",") (Event.attendees ev)
            end in
  subj ← URI.encodeURIComponent (Event.title ev);
  body ← URI.encodeURIComponent (invitation ev);
  Some (str "mailto:" ++ to ++ str "?subject=" ++ subj ++ str "&body=" ++ body).

End Mail.

(** ** Conditions that the properties of these functions are stated under *)

Module Cond.

(** An attendee as [saveEvent] stores them: not empty, without a comma and
    without white space at either end. *)
Definition clean_attendee (a : jsstring) : Prop :=
  a <> [] /\ ~ In 44 a /\ trim a = a.

(** A time value two hundred days inside the range of Date, so that the
    months around it are inside as well. *)
Definition deep (t : Z) : Prop := Z.abs t <= Date.maxTime - 200 * Date.msPerDay.

(** The local year is not one of -1..100: neither the year of [t] nor the
    years of the months next to it are read as 1900..1999 by
    [new Date(y, m, d)]. *)
Definition plain_years (tz t : Z) : Prop :=
  ~ (-1 <= Date.YearFromTime (Date.LocalTime tz t) <= 100).

(** The UTC year is written with four digits by [toISOString]. *)
Definition four_digit_year (t : Z) : Prop := 0 <= Date.YearFromTime t <= 9999.

(** The instant that saving an unchanged edit form gives to an event that
    starts at [t]: the UTC day of [t] with the local hour and minute of
    [t]. *)
Definition resaved_start (tz t : Z) : Z :=
  t - (t + tz) mod Date.msPerMinute
  - (Date.Day (Date.LocalTime tz t) - Date.Day t) * Date.msPerDay.

(** The event starts at the instant [s]. *)
Definition starts_at (tz s : Z) (ev : Event.t) : bool :=
  bool_decide (Date.parse tz (Event.start ev) = Some s).

(** A code unit of an escaped URI component: unreserved, or the percent
    sign of an escape. *)
Definition escaped_unit (c : Z) : Prop := URI.unreserved c = true \/ c = 37.

(** An event whose texts are strings: sequences of code units. *)
Definition text_event (e : Event.t) : Prop :=
  Forall code_unit (Event.id e)
  /\ Forall code_unit (Event.title e)
  /\ Forall code_unit (Event.start e)
  /\ Forall code_unit (Event.description e)
  /\ Forall (Forall code_unit) (Event.attendees e).

(** A string without a line feed. *)
Definition no_line_feed (s : jsstring) : bool := forallb (fun c => negb (c =? 10)) s.

(** An event whose id and attendees hold no line feed: the two fields that
    [exportICS] writes as they are. *)
Definition single_line (ev : Event.t) : Prop :=
  no_line_feed (Event.id ev) = true /\ forallb no_line_feed (Event.attendees ev) = true.

End Cond.

(** * Theorems *)

(** ** Calendar arithmetic *)

Module DateFacts.
Import Date.

Lemma DayFromYear_succ y : DayFromYear (y + 1) = DayFromYear y + DaysInYear y.
Proof.
  unfold DayFromYear, DaysInYear.
  repeat match goal with |- context [Z.eqb ?a ?b] => destruct (Z.eqb_spec a b) end;
    cbn [negb]; Z.div_mod_to_equations; lia.
Qed.

Lemma DaysInYear_cases y : DaysInYear y = 365 \/ DaysInYear y = 366.
Proof.
  unfold DaysInYear.
  repeat match goal with |- context [Z.eqb ?a ?b] => destruct (Z.eqb_spec a b) end;
    cbn [negb]; lia.
Qed.

Lemma DayFromYear_mono y1 y2 : y1 <= y2 -> DayFromYear y1 + 365 * (y2 - y1) <= DayFromYear y2.
Proof. unfold DayFromYear. Z.div_mod_to_equations. lia. Qed.

Lemma YearFromTime_spec t :
  DayFromYear (YearFromTime t) <= Day t < DayFromYear (YearFromTime t + 1).
Proof.
  unfold YearFromTime. set (d := Day t). cbv zeta.
  set (y0 := 1970 + 400 * d / 146097).
  assert (DayFromYear (y0 - 1) <= d < DayFromYear (y0 + 2)).
  { unfold DayFromYear, y0. Z.div_mod_to_equations. lia. }
  destruct (Z.leb_spec (DayFromYear (y0 + 1)) d).
  - replace (y0 + 1 + 1) with (y0 + 2) by lia. lia.
  - destruct (Z.leb_spec (DayFromYear y0) d).
    + lia.
    + replace (y0 - 1 + 1) with y0 by lia. lia.
Qed.

Lemma YearFromTime_unique t y :
  DayFromYear y <= Day t < DayFromYear (y + 1) -> YearFromTime t = y.
Proof.
  intros H. pose proof (YearFromTime_spec t) as S.
  destruct (Z.lt_trichotomy (YearFromTime t) y) as [L | [E | L]]; [| exact E |].
  - pose proof (DayFromYear_mono (YearFromTime t + 1) y ltac:(lia)). lia.
  - pose proof (DayFromYear_mono (y + 1) (YearFromTime t) ltac:(lia)). lia.
Qed.

Lemma Day_MakeDate d r : 0 <= r < msPerDay -> Day (MakeDate d r) = d.
Proof.
  unfold Day, MakeDate, msPerDay. intros H.
  symmetry. apply (Z.div_unique_pos _ _ _ r); lia.
Qed.

Lemma TimeWithinDay_MakeDate d r : 0 <= r < msPerDay -> TimeWithinDay (MakeDate d r) = r.
Proof.
  unfold TimeWithinDay, MakeDate, msPerDay. intros H.
  symmetry. apply (Z.mod_unique_pos _ _ d); lia.
Qed.

Lemma MakeDate_Day t : MakeDate (Day t) (TimeWithinDay t) = t.
Proof. unfold MakeDate, Day, TimeWithinDay, msPerDay. Z.div_mod_to_equations. lia. Qed.

Lemma TimeWithinDay_range t : 0 <= TimeWithinDay t < msPerDay.
Proof. unfold TimeWithinDay, msPerDay. Z.div_mod_to_equations. lia. Qed.

Lemma InLeapYear_cases t :
  (InLeapYear t = 0 /\ DaysInYear (YearFromTime t) = 365)
  \/ (InLeapYear t = 1 /\ DaysInYear (YearFromTime t) = 366).
Proof.
  unfold InLeapYear. pose proof (DaysInYear_cases (YearFromTime t)).
  destruct (Z.eqb_spec (DaysInYear (YearFromTime t)) 366); lia.
Qed.

Lemma DayWithinYear_range t : 0 <= DayWithinYear t < 365 + InLeapYear t.
Proof.
  unfold DayWithinYear. pose proof (YearFromTime_spec t) as S.
  rewrite DayFromYear_succ in S. pose proof (InLeapYear_cases t). lia.
Qed.

Ltac month_cases :=
  repeat match goal with
         | |- context [Z.ltb ?a ?b] => destruct (Z.ltb_spec a b)
         | |- context [Z.eqb ?a ?b] => destruct (Z.eqb_spec a b)
         end.

Lemma monthOfDay_range d leap : 0 <= monthOfDay d leap <= 11.
Proof. unfold monthOfDay. month_cases; lia. Qed.

Lemma MonthFromTime_range t : 0 <= MonthFromTime t <= 11.
Proof. apply monthOfDay_range. Qed.

Lemma monthOfDay_start d leap :
  0 <= d < 365 + leap -> 0 <= leap <= 1 ->
  monthStart (monthOfDay d leap) leap <= d
  /\ d - monthStart (monthOfDay d leap) leap < 31.
Proof. intros. unfold monthOfDay, monthStart. month_cases; lia. Qed.

Lemma DateFromTime_range t : 1 <= DateFromTime t <= 31.
Proof.
  unfold DateFromTime.
  pose proof (DayWithinYear_range t). pose proof (InLeapYear_cases t).
  pose proof (monthOfDay_start (DayWithinYear t) (InLeapYear t) ltac:(lia) ltac:(lia)).
  unfold MonthFromTime. lia.
Qed.

Lemma MakeDay_fields t dt :
  MakeDay (YearFromTime t) (MonthFromTime t) dt = Day t - DateFromTime t + dt.
Proof.
  pose proof (MonthFromTime_range t) as R.
  unfold MakeDay. cbv zeta.
  replace (MonthFromTime t / 12) with 0 by (Z.div_mod_to_equations; lia).
  replace (MonthFromTime t mod 12) with (MonthFromTime t) by (Z.div_mod_to_equations; lia).
  rewrite Z.add_0_r. fold (InLeapYear t).
  unfold DateFromTime, DayWithinYear. lia.
Qed.

Lemma monthOfDay_monthStart m leap k :
  0 <= m <= 11 -> 0 <= leap <= 1 -> 0 <= k < 28 ->
  monthOfDay (monthStart m leap + k) leap = m.
Proof.
  intros Hm Hl Hk.
  assert (C : m = 0 \/ m = 1 \/ m = 2 \/ m = 3 \/ m = 4 \/ m = 5 \/ m = 6 \/ m = 7
              \/ m = 8 \/ m = 9 \/ m = 10 \/ m = 11) by lia.
  unfold monthOfDay.
  repeat (destruct C as [-> | C]); try subst m; cbn [monthStart Z.eqb Pos.eqb];
    month_cases; lia.
Qed.

Lemma monthStart_range m leap : 0 <= leap <= 1 -> 0 <= monthStart m leap <= 335.
Proof. intros. unfold monthStart. month_cases; lia. Qed.

(** The fields of a time built from a year, a month and one of its first 28
    days. *)
Lemma fields_MakeDay y m dt t :
  0 <= m <= 11 -> 1 <= dt <= 28 -> Day t = MakeDay y m dt ->
  YearFromTime t = y /\ MonthFromTime t = m /\ DateFromTime t = dt.
Proof.
  intros Hm Hd E. unfold MakeDay in E. cbv zeta in E.
  replace (m / 12) with 0 in E by (Z.div_mod_to_equations; lia).
  replace (m mod 12) with m in E by (Z.div_mod_to_equations; lia).
  rewrite Z.add_0_r in E.
  set (leap := if DaysInYear y =? 366 then 1 else 0) in E.
  assert (L : 0 <= leap <= 1 /\ DaysInYear y = 365 + leap).
  { subst leap. pose proof (DaysInYear_cases y).
    destruct (Z.eqb_spec (DaysInYear y) 366); lia. }
  assert (Y : YearFromTime t = y).
  { apply YearFromTime_unique. rewrite DayFromYear_succ.
    assert (monthStart m leap + dt - 1 < 365 + leap).
    { unfold monthStart. month_cases; lia. }
    pose proof (monthStart_range m leap ltac:(lia)). lia. }
  assert (IL : InLeapYear t = leap).
  { unfold InLeapYear. rewrite Y. reflexivity. }
  assert (W : DayWithinYear t = monthStart m leap + (dt - 1)).
  { unfold DayWithinYear. rewrite Y. lia. }
  assert (M : MonthFromTime t = m).
  { unfold MonthFromTime. rewrite W, IL. apply monthOfDay_monthStart; lia. }
  split; [exact Y | split; [exact M |]].
  unfold DateFromTime. rewrite M, W, IL. lia.
Qed.

Lemma MakeDay_normal y m dt : MakeDay y m dt = MakeDay (y + m / 12) (m mod 12) dt.
Proof.
  unfold MakeDay. cbv zeta.
  replace (m mod 12 / 12) with 0 by (Z.div_mod_to_equations; lia).
  replace ((m mod 12) mod 12) with (m mod 12) by (Z.div_mod_to_equations; lia).
  by rewrite Z.add_0_r.
Qed.

(** The same for a month that is not in 0..11. *)
Lemma fields_MakeDay_any y m dt t :
  1 <= dt <= 28 -> Day t = MakeDay y m dt ->
  YearFromTime t = y + m / 12 /\ MonthFromTime t = m mod 12 /\ DateFromTime t = dt.
Proof.
  intros Hd E. rewrite MakeDay_normal in E.
  assert (R : 0 <= m mod 12 <= 11) by (Z.div_mod_to_equations; lia).
  exact (fields_MakeDay _ _ _ _ R Hd E).
Qed.

(** A month has 28 to 31 days. *)
Lemma MakeDay_next_month y m : 28 <= MakeDay y (m + 1) 1 - MakeDay y m 1 <= 31.
Proof.
  rewrite (MakeDay_normal y m), (MakeDay_normal y (m + 1)).
  assert (C : (m mod 12 < 11 /\ (m + 1) / 12 = m / 12 /\ (m + 1) mod 12 = m mod 12 + 1)
              \/ (m mod 12 = 11 /\ (m + 1) / 12 = m / 12 + 1 /\ (m + 1) mod 12 = 0))
    by (Z.div_mod_to_equations; lia).
  assert (R : 0 <= m mod 12) by (Z.div_mod_to_equations; lia).
  set (ym := y + m / 12). set (mn := m mod 12) in *.
  destruct C as [(L & E1 & E2) | (L & E1 & E2)]; rewrite E1, E2.
  - fold ym. unfold MakeDay. cbv zeta.
    replace ((mn + 1) / 12) with 0 by (Z.div_mod_to_equations; lia).
    replace (mn / 12) with 0 by (Z.div_mod_to_equations; lia).
    replace ((mn + 1) mod 12) with (mn + 1) by (Z.div_mod_to_equations; lia).
    replace (mn mod 12) with mn by (Z.div_mod_to_equations; lia).
    rewrite Z.add_0_r.
    set (leap := if DaysInYear ym =? 366 then 1 else 0).
    assert (0 <= leap <= 1) by (subst leap; destruct (DaysInYear ym =? 366); lia).
    assert (C : mn = 0 \/ mn = 1 \/ mn = 2 \/ mn = 3 \/ mn = 4 \/ mn = 5 \/ mn = 6
                \/ mn = 7 \/ mn = 8 \/ mn = 9 \/ mn = 10) by lia.
    clearbody leap.
    repeat (destruct C as [C | C]); rewrite C;
      match goal with
      | |- context [monthStart (?a + 1) _] =>
          let v := eval vm_compute in (a + 1) in change (a + 1) with v
      end; cbn; lia.
  - replace (y + (m / 12 + 1)) with (ym + 1) by (subst ym; lia). rewrite L.
    unfold MakeDay. cbv zeta. change (0 / 12) with 0. change (11 / 12) with 0.
    change (0 mod 12) with 0. change (11 mod 12) with 11. rewrite !Z.add_0_r.
    rewrite DayFromYear_succ. cbn [monthStart Z.eqb Pos.eqb].
    pose proof (DaysInYear_cases ym).
    destruct (Z.eqb_spec (DaysInYear ym) 366); lia.
Qed.

Lemma WeekDay_range t : 0 <= WeekDay t <= 6.
Proof. unfold WeekDay. Z.div_mod_to_equations. lia. Qed.

End DateFacts.

(** ** The month grid *)

Module GridFacts.
Import Date DateFacts.

Section Host.
Variable tz : Z.
Variable random_id : nat -> jsstring.

(** Local midnight of the day [j] days away from the day of [t], as a time
    value: inside the range when [t] is a hundred days inside. *)
Lemma TimeClip_near t j :
  Spec.inner t -> -99 <= j <= 99 ->
  TimeClip (UTC tz (MakeDate (Day (LocalTime tz t) + j) 0))
  = Some ((Day (LocalTime tz t) + j) * msPerDay - tz).
Proof.
  unfold Spec.inner, TimeClip, UTC, MakeDate, LocalTime, Day, maxTime, msPerDay.
  intros I J.
  destruct (Z.gtb_spec (Z.abs (((t + tz) / 86400000 + j) * 86400000 + 0 - tz))
              8640000000000000) as [G | G].
  - exfalso. revert G. Z.div_mod_to_equations. lia.
  - f_equal. lia.
Qed.

Lemma LocalTime_midnight d :
  Day (LocalTime tz (d * msPerDay - tz)) = d
  /\ TimeWithinDay (LocalTime tz (d * msPerDay - tz)) = 0.
Proof.
  unfold LocalTime. replace (d * msPerDay - tz + tz) with (MakeDate d 0)
    by (unfold MakeDate; lia).
  split; [apply Day_MakeDate | apply TimeWithinDay_MakeDate]; unfold msPerDay; lia.
Qed.

(** [setDate] on a local midnight moves by whole days. *)
Lemma setDate_midnight t j k :
  Spec.inner t -> -37 <= j <= 41 -> -37 <= j + k <= 41 ->
  let g := (Day (LocalTime tz t) + j) * msPerDay - tz in
  setDate tz (Some g) (Some (DateFromTime (LocalTime tz g) + k))
  = Some ((Day (LocalTime tz t) + (j + k)) * msPerDay - tz).
Proof.
  intros I J K g. unfold setDate. cbn [mbind option_bind].
  rewrite MakeDay_fields.
  destruct (LocalTime_midnight (Day (LocalTime tz t) + j)) as [E1 E2].
  fold g in E1, E2. rewrite E1, E2.
  replace (Day (LocalTime tz t) + j - DateFromTime (LocalTime tz g)
           + (DateFromTime (LocalTime tz g) + k))
    with (Day (LocalTime tz t) + (j + k)) by lia.
  apply TimeClip_near; [assumption | lia].
Qed.

Lemma startOfMonth_value t :
  Spec.inner t -> Spec.plain_year tz t ->
  startOfMonth tz (Some t)
  = Some ((Day (LocalTime tz t) + (1 - DateFromTime (LocalTime tz t))) * msPerDay - tz).
Proof.
  intros I P. unfold startOfMonth, new_ymd_opt, getFullYear, getMonth.
  cbn [mbind option_bind]. unfold new_ymd.
  unfold Spec.plain_year in P.
  replace ((0 <=? YearFromTime (LocalTime tz t)) && (YearFromTime (LocalTime tz t) <=? 99))
    with false.
  2:{ symmetry. apply andb_false_iff.
      destruct (Z.leb_spec 0 (YearFromTime (LocalTime tz t)));
        destruct (Z.leb_spec (YearFromTime (LocalTime tz t)) 99); auto; lia. }
  rewrite MakeDay_fields.
  replace (MakeTime 0 0 0 0) with 0 by reflexivity.
  replace (Day (LocalTime tz t) - DateFromTime (LocalTime tz t) + 1)
    with (Day (LocalTime tz t) + (1 - DateFromTime (LocalTime tz t))) by lia.
  pose proof (DateFromTime_range (LocalTime tz t)).
  apply TimeClip_near; [assumption | lia].
Qed.

Lemma push_cells_map t j n i days :
  Spec.inner t -> -37 <= j -> 0 <= i -> j + i + Z.of_nat n <= 42 ->
  let g := (Day (LocalTime tz t) + j) * msPerDay - tz in
  push_cells tz (Some g) n i days
  = days ++ ((fun k => Some ((Day (LocalTime tz t) + (j + k)) * msPerDay - tz))
             <$> seqZ i (Z.of_nat n)).
Proof.
  intros I J. revert i days. induction n as [| n IH]; intros i days Hi Hn g.
  - cbn. by rewrite app_nil_r.
  - cbn [push_cells]. cbn [getDate mbind option_bind fmap option_fmap option_map].
    fold g. rewrite IH by lia.
    replace (DateFromTime (LocalTime tz g) + i)%Z with (DateFromTime (LocalTime tz g) + i) by lia.
    rewrite Z.add_comm.
    pose proof (setDate_midnight t j i I) as HS. cbv zeta in HS. fold g in HS.
    rewrite HS by lia.
    rewrite <- app_assoc. f_equal.
    rewrite (seqZ_cons i) by lia. cbn [fmap list_fmap].
    replace (Z.succ i) with (i + 1) by lia.
    replace (Z.pred (Z.of_nat (S n))) with (Z.of_nat n) by lia.
    reflexivity.
Qed.

Lemma buildMonthGrid_value t :
  Spec.inner t -> Spec.plain_year tz t ->
  let D := Day (LocalTime tz t) + (1 - DateFromTime (LocalTime tz t)) in
  buildMonthGrid tz (Some t)
  = (fun k => Some ((D - (D + 4) mod 7 + k) * msPerDay - tz)) <$> seqZ 0 42.
Proof.
  intros I P D. unfold buildMonthGrid. rewrite (startOfMonth_value t I P). fold D.
  pose proof (DateFromTime_range (LocalTime tz t)) as R.
  destruct (LocalTime_midnight D) as [E1 E2].
  cbn [getDay getDate mbind option_bind]. unfold WeekDay. rewrite E1.
  set (w := (D + 4) mod 7).
  assert (W : 0 <= w <= 6) by (subst w; Z.div_mod_to_equations; lia).
  replace (DateFromTime (LocalTime tz (D * msPerDay - tz)) - w)
    with (DateFromTime (LocalTime tz (D * msPerDay - tz)) + - w) by lia.
  pose proof (setDate_midnight t (1 - DateFromTime (LocalTime tz t)) (- w) I) as HS.
  cbv zeta in HS. fold D in HS. rewrite HS by lia.
  pose proof (push_cells_map t (1 - DateFromTime (LocalTime tz t) + - w) 42 0 [] I) as HP.
  cbv zeta in HP. rewrite HP by lia. cbn [app].
  apply list_fmap_ext. intros _ k _. f_equal. unfold D. lia.
Qed.
End Host.
End GridFacts.

(** C2, amended.  For a reference date a hundred days inside the range of
    Date and whose local year is not one of 0..99, [buildMonthGrid] returns 42
    dates, each a date of the local calendar day after the day of the one
    before; the first is a date of the day that lies as many days before the
    first day of the month of the reference date as that day is after
    Sunday; cell 7 is a Sunday. *)
Theorem buildMonthGrid_month_grid (tz t : Z) :
  Spec.inner t -> Spec.plain_year tz t ->
  Spec.month_grid tz (Some t) (buildMonthGrid tz (Some t)).
Proof.
  intros I P. pose proof (GridFacts.buildMonthGrid_value tz t I P) as V.
  cbv zeta in V. rewrite V. clear V.
  set (lt := Date.LocalTime tz t).
  set (D := Date.Day lt + (1 - Date.DateFromTime lt)).
  set (w := (D + 4) mod 7).
  destruct (GridFacts.LocalTime_midnight tz D) as [E1 E2].
  assert (W : 0 <= w <= 6) by (subst w; Z.div_mod_to_equations; lia).
  split; [| split; [| split]].
  - by rewrite length_fmap, length_seqZ.
  - exists t, (D * Date.msPerDay - tz), ((D - w + 0) * Date.msPerDay - tz).
    split; [reflexivity |]. split; [| split].
    + destruct (DateFacts.fields_MakeDay (Date.YearFromTime lt) (Date.MonthFromTime lt) 1
                  (Date.LocalTime tz (D * Date.msPerDay - tz))) as (Y & M & Dt).
      * apply DateFacts.MonthFromTime_range.
      * lia.
      * rewrite E1, DateFacts.MakeDay_fields. unfold D. lia.
      * repeat split; assumption.
    + rewrite list_lookup_fmap, lookup_seqZ_lt by lia. reflexivity.
    + destruct (GridFacts.LocalTime_midnight tz (D - w + 0)) as [F1 _].
      rewrite F1. unfold Date.WeekDay. rewrite E1. fold w. lia.
  - intros i a b. rewrite !list_lookup_fmap.
    intros A B.
    destruct (seqZ 0 42 !! i) as [ka |] eqn:Ka; [| discriminate].
    destruct (seqZ 0 42 !! S i) as [kb |] eqn:Kb; [| discriminate].
    apply lookup_seqZ in Ka, Kb. cbn in A, B.
    injection A as <-. injection B as <-.
    eexists _, _. split; [reflexivity |]. split; [reflexivity |].
    destruct (GridFacts.LocalTime_midnight tz (D - w + ka)) as [Fa _].
    destruct (GridFacts.LocalTime_midnight tz (D - w + kb)) as [Fb _].
    rewrite Fa, Fb. lia.
  - eexists. split.
    + rewrite list_lookup_fmap, lookup_seqZ_lt by lia. reflexivity.
    + cbn [Date.getDay mbind option_bind]. f_equal. unfold Date.WeekDay.
      destruct (GridFacts.LocalTime_midnight tz (D - w + (0 + Z.of_nat 7))) as [F1 _].
      rewrite F1. subst w. Z.div_mod_to_equations. lia.
Qed.

(** Witness: the grid of March 2024 for a host at UTC+1. *)
Lemma buildMonthGrid_month_grid_witness :
  Spec.inner 1710460800000 /\ Spec.plain_year 3600000 1710460800000
  /\ Spec.month_grid 3600000 (Some 1710460800000) (buildMonthGrid 3600000 (Some 1710460800000)).
Proof.
  assert (I : Spec.inner 1710460800000) by (unfold Spec.inner; vm_compute; discriminate).
  assert (P : Spec.plain_year 3600000 1710460800000).
  { unfold Spec.plain_year. vm_compute. intros [_ H]. apply H. reflexivity. }
  split; [exact I | split; [exact P |]].
  exact (buildMonthGrid_month_grid 3600000 1710460800000 I P).
Defined.

(** C2 as stated fails on three kinds of reference date: 15 March of the year
    50, whose grid is the one of March 1950; the last instant of the range of
    Date, whose grid runs into Invalid Dates; and the Invalid Date. *)
Lemma buildMonthGrid_not_every_date :
  ~ Spec.month_grid 0 (Some (-60582988800000)) (buildMonthGrid 0 (Some (-60582988800000)))
  /\ ~ Spec.month_grid 0 (Some 8640000000000000) (buildMonthGrid 0 (Some 8640000000000000))
  /\ ~ Spec.month_grid 0 None (buildMonthGrid 0 None).
Proof.
  split; [| split].
  - intros (_ & (t & f & g & E & F & G & H) & _). injection E as <-.
    destruct F as (Y & _ & _ & T).
    pose proof (DateFacts.WeekDay_range (Date.LocalTime 0 f)) as W.
    set (w := Date.WeekDay (Date.LocalTime 0 f)) in *. clearbody w.
    replace (buildMonthGrid 0 (Some (-60582988800000)) !! 0%nat)
      with (Some (Some (-626313600000))) in G by (vm_compute; reflexivity).
    injection G as <-.
    replace (Date.Day (Date.LocalTime 0 (-626313600000))) with (-7249) in H
      by (vm_compute; reflexivity).
    replace (Date.YearFromTime (Date.LocalTime 0 (-60582988800000))) with 50 in Y
      by (vm_compute; reflexivity).
    assert (Ef : f = (-7249 + w) * 86400000).
    { revert H T. unfold Date.TimeWithinDay, Date.Day, Date.LocalTime, Date.msPerDay.
      Z.div_mod_to_equations. lia. }
    assert (C : w = 0 \/ w = 1 \/ w = 2 \/ w = 3 \/ w = 4 \/ w = 5 \/ w = 6) by lia.
    repeat (destruct C as [C | C]); rewrite C in Ef; rewrite Ef in Y;
      vm_compute in Y; discriminate.
  - intros (_ & _ & S & _).
    destruct (S 40%nat None None) as (ta & tb & A & _); [vm_compute; reflexivity .. |].
    discriminate.
  - intros (_ & (t & f & g & E & _) & _). discriminate.
Qed.

(** ** Month navigation *)

Module MonthFacts.
Import Date DateFacts GridFacts.

Section Host.
Variable tz : Z.

(** [new Date(y, m + k, 1)], for the year [y] and the month [m] of [t] and
    [k] one of -1 and 1, is the first day of the month [k] months away. *)
Lemma new_ymd_shift t k :
  Spec.inner t -> Spec.plain_year tz t -> k = -1 \/ k = 1 ->
  Spec.first_of_shifted_month tz k (Some t)
    (new_ymd tz (YearFromTime (LocalTime tz t)) (MonthFromTime (LocalTime tz t) + k) 1).
Proof.
  intros I P K. set (lt := LocalTime tz t).
  set (Y := YearFromTime lt). set (M := MonthFromTime lt).
  assert (J : exists j, -99 <= j <= 99 /\ MakeDay Y (M + k) 1 = Day lt + j).
  { exists (MakeDay Y (M + k) 1 - Day lt). split; [| lia].
    pose proof (MakeDay_fields lt 1) as F. fold Y M in F.
    pose proof (DateFromTime_range lt).
    destruct K as [-> | ->].
    - pose proof (MakeDay_next_month Y (M + -1)) as N.
      replace (M + -1 + 1) with M in N by lia. lia.
    - pose proof (MakeDay_next_month Y M) as N. lia. }
  destruct J as (j & J & E).
  unfold new_ymd. unfold Spec.plain_year in P. fold lt Y in P.
  replace ((0 <=? Y) && (Y <=? 99)) with false.
  2:{ symmetry. apply andb_false_iff.
      destruct (Z.leb_spec 0 Y); destruct (Z.leb_spec Y 99); auto; lia. }
  rewrite E. replace (MakeTime 0 0 0 0) with 0 by reflexivity.
  unfold lt. rewrite (TimeClip_near tz t j I J). fold lt.
  destruct (LocalTime_midnight tz (Day lt + j)) as [D0 T0].
  destruct (fields_MakeDay_any Y (M + k) 1
              (LocalTime tz ((Day lt + j) * msPerDay - tz))) as (Y' & M' & D');
    [lia | rewrite D0; lia |].
  exists t, ((Day lt + j) * msPerDay - tz).
  split; [reflexivity | split; [reflexivity |]].
  fold lt. rewrite Y', M', D', T0. fold Y M.
  split; [| split; reflexivity].
  Z.div_mod_to_equations. lia.
Qed.
End Host.
End MonthFacts.

(** C8, amended.  For a reference date a hundred days inside the range of
    Date whose local year is not one of 0..99, [prevMonth] and [nextMonth] set
    the reference date to the local midnight that begins the first day of the
    previous, respectively the next, calendar month (the day of the month is
    not kept), and leave the rest of the state alone. *)
Theorem prevMonth_nextMonth_first_of_month (tz t : Z) (st : State) :
  Spec.inner t -> Spec.plain_year tz t -> viewDate st = Some t ->
  Spec.first_of_shifted_month tz (-1) (viewDate st) (viewDate (prevMonth tz st))
  /\ Spec.first_of_shifted_month tz 1 (viewDate st) (viewDate (nextMonth tz st))
  /\ events (prevMonth tz st) = events st /\ events (nextMonth tz st) = events st.
Proof.
  intros I P V. unfold prevMonth, nextMonth. cbn [viewDate events setViewDate].
  rewrite V. cbn [Date.getFullYear Date.getMonth Date.new_ymd_opt mbind option_bind
                  fmap option_fmap option_map].
  split; [| split; [| split; reflexivity]].
  - apply (MonthFacts.new_ymd_shift tz t (-1) I P). by left.
  - apply (MonthFacts.new_ymd_shift tz t 1 I P). by right.
Qed.

Lemma prevMonth_nextMonth_first_of_month_witness :
  Spec.first_of_shifted_month 0 (-1) (viewDate Sample.march_2024) (viewDate (prevMonth 0 Sample.march_2024))
  /\ Spec.first_of_shifted_month 0 1 (viewDate Sample.march_2024) (viewDate (nextMonth 0 Sample.march_2024))
  /\ events (prevMonth 0 Sample.march_2024) = events Sample.march_2024
  /\ events (nextMonth 0 Sample.march_2024) = events Sample.march_2024.
Proof.
  apply (prevMonth_nextMonth_first_of_month 0 1710460800000 Sample.march_2024).
  - unfold Spec.inner. vm_compute. discriminate.
  - unfold Spec.plain_year. vm_compute. intros [_ H]. apply H. reflexivity.
  - reflexivity.
Defined.

(** C8 as stated fails: from 15 March 2024, [prevMonth] gives 1 February and
    [nextMonth] gives 1 April, although both months have a 15th day. *)
Lemma prevMonth_nextMonth_lose_day_of_month :
  ~ Spec.shifted_month 0 (-1) (viewDate Sample.march_2024) (viewDate (prevMonth 0 Sample.march_2024))
  /\ ~ Spec.shifted_month 0 1 (viewDate Sample.march_2024) (viewDate (nextMonth 0 Sample.march_2024)).
Proof.
  split; intros (t & t' & E & E' & _ & K); vm_compute in E, E';
    injection E as <-; injection E' as <-;
    vm_compute in K; specialize (K ltac:(discriminate)); discriminate.
Qed.

(** ** The date-time string format *)

Module DigitFacts.

Lemma is_digit_spec c : is_digit c = true <-> 48 <= c <= 57.
Proof. unfold is_digit. rewrite andb_true_iff, !Z.leb_le. tauto. Qed.

Lemma take_digits_snoc k s acc :
  take_digits (S k) s acc
  = '(v, r) ← take_digits k s acc;
    match r with
    | c :: r' => if is_digit c then Some (10 * v + (c - 48), r') else None
    | [] => None
    end.
Proof.
  revert s acc. induction k as [| k IH]; intros s acc.
  - cbn. destruct s as [| c r]; [reflexivity |]. by destruct (is_digit c).
  - change (take_digits (S (S k)) s acc)
      with (match s with
            | c :: s' => if is_digit c then take_digits (S k) s' (10 * acc + (c - 48)) else None
            | [] => None
            end).
    destruct s as [| c r]; [reflexivity |].
    cbn [take_digits]. destruct (is_digit c); [| reflexivity].
    apply IH.
Qed.

Lemma take_digits_pad w n rest acc :
  0 <= n < 10 ^ Z.of_nat w ->
  take_digits w (digits_pad w n ++ rest) acc = Some (acc * 10 ^ Z.of_nat w + n, rest).
Proof.
  revert n rest acc. induction w as [| w IH]; intros n rest acc H.
  - cbn in *. f_equal. f_equal. lia.
  - rewrite take_digits_snoc. cbn [digits_pad]. rewrite <- app_assoc.
    assert (P : 10 ^ Z.of_nat (S w) = 10 * 10 ^ Z.of_nat w).
    { rewrite Nat2Z.inj_succ, Z.pow_succ_r by lia. reflexivity. }
    rewrite IH by (rewrite P in H; Z.div_mod_to_equations; lia).
    cbn [mbind option_bind app].
    assert (D : is_digit (48 + n mod 10) = true).
    { apply is_digit_spec. Z.div_mod_to_equations. lia. }
    rewrite D. f_equal. f_equal. rewrite P. Z.div_mod_to_equations. lia.
Qed.

Lemma length_digits_pad w n : length (digits_pad w n) = w.
Proof.
  revert n. induction w as [| w IH]; intros n; [reflexivity |].
  cbn [digits_pad]. rewrite length_app, IH. cbn. lia.
Qed.

(** The first character of a padded numeral is a digit. *)
Lemma digits_pad_head w n :
  exists c r, digits_pad (S w) n = c :: r /\ 48 <= c <= 57.
Proof.
  revert n. induction w as [| w IH]; intros n.
  - exists (48 + n mod 10), []. split; [reflexivity |]. Z.div_mod_to_equations. lia.
  - destruct (IH (n / 10)) as (c & r & E & R).
    exists c, (r ++ [48 + n mod 10]). split; [| exact R].
    change (digits_pad (S (S w)) n) with (digits_pad (S w) (n / 10) ++ [48 + n mod 10]).
    by rewrite E.
Qed.

End DigitFacts.

Module IsoFacts.
Import Date DateFacts DigitFacts.

Lemma YearFromTime_bounds t :
  Z.abs t <= maxTime -> -271821 <= YearFromTime t <= 275760.
Proof.
  intros H. pose proof (YearFromTime_spec t) as S.
  assert (D : -100000000 <= Day t <= 100000000).
  { unfold Day, msPerDay. unfold maxTime in H. Z.div_mod_to_equations. lia. }
  revert S. generalize (YearFromTime t). intros y. unfold DayFromYear.
  Z.div_mod_to_equations. lia.
Qed.

Lemma time_fields t :
  0 <= HourFromTime t <= 23 /\ 0 <= MinFromTime t <= 59 /\ 0 <= SecFromTime t <= 59
  /\ 0 <= msFromTime t <= 999
  /\ MakeTime (HourFromTime t) (MinFromTime t) (SecFromTime t) (msFromTime t)
     = TimeWithinDay t.
Proof.
  unfold HourFromTime, MinFromTime, SecFromTime, msFromTime, MakeTime, TimeWithinDay,
    msPerHour, msPerMinute, msPerSecond, msPerDay.
  Z.div_mod_to_equations. lia.
Qed.

Section Host.
Variable tz : Z.

Lemma parse_year_isoYear y rest :
  -271821 <= y <= 275760 ->
  parse_year (isoYear y ++ rest) = Some (y, rest).
Proof.
  intros R. unfold isoYear.
  destruct (Z.leb_spec 0 y) as [P | N]; cbn [andb].
  - destruct (Z.leb_spec y 9999) as [Q | Q].
    + destruct (digits_pad_head 3 y) as (c & r & E & C).
      unfold parse_year. rewrite E. cbn [app].
      replace (c =? 43) with false by (symmetry; apply Z.eqb_neq; lia).
      replace (c =? 45) with false by (symmetry; apply Z.eqb_neq; lia).
      change (c :: r ++ rest) with ((c :: r) ++ rest). rewrite <- E.
      rewrite take_digits_pad by (change (10 ^ Z.of_nat 4) with 10000; lia).
      f_equal.
    + unfold parse_year. cbn [app Z.eqb Pos.eqb].
      rewrite take_digits_pad by (change (10 ^ Z.of_nat 6) with 1000000; lia).
      f_equal.
  - unfold parse_year. cbn [app Z.eqb Pos.eqb].
    rewrite take_digits_pad by (change (10 ^ Z.of_nat 6) with 1000000; lia).
    cbn [mbind option_bind].
    replace (0 * 10 ^ Z.of_nat 6 + - y =? 0) with false by (symmetry; apply Z.eqb_neq; lia).
    f_equal. f_equal. lia.
Qed.

Lemma take2 n rest : 0 <= n <= 99 -> take_digits 2 (digits_pad 2 n ++ rest) 0 = Some (n, rest).
Proof.
  intros. rewrite take_digits_pad by (change (10 ^ Z.of_nat 2) with 100; lia). f_equal.
Qed.

Lemma take3 n rest : 0 <= n <= 999 -> take_digits 3 (digits_pad 3 n ++ rest) 0 = Some (n, rest).
Proof.
  intros. rewrite take_digits_pad by (change (10 ^ Z.of_nat 3) with 1000; lia). f_equal.
Qed.

Opaque digits_pad.

(** [Date.parse] reads back what [toISOString] writes. *)
Lemma parse_toISOString t iso :
  Z.abs t <= maxTime -> toISOString (Some t) = Some iso -> parse tz iso = Some t.
Proof.
  intros R E. unfold toISOString in E. cbn [mbind option_bind] in E. injection E as <-.
  pose proof (YearFromTime_bounds t R) as Y.
  pose proof (MonthFromTime_range t) as M.
  pose proof (DateFromTime_range t) as D.
  destruct (time_fields t) as (Hh & Hm & Hs & Hms & MT).
  unfold parse. rewrite parse_year_isoYear by exact Y.
  cbn [mbind option_bind]. unfold parse_month_day. cbn [app].
  rewrite take2 by lia. cbn [mbind option_bind app].
  rewrite take2 by lia. cbn [mbind option_bind app].
  replace ((1 <=? MonthFromTime t + 1) && (MonthFromTime t + 1 <=? 12)
           && (1 <=? DateFromTime t) && (DateFromTime t <=? 31)) with true.
  2:{ symmetry. rewrite !andb_true_iff, !Z.leb_le. lia. }
  cbn [negb]. unfold parse_time.
  rewrite take2 by lia. cbn [mbind option_bind app].
  rewrite take2 by lia. cbn [mbind option_bind app].
  rewrite take2 by lia. cbn [mbind option_bind app].
  rewrite take3 by lia. cbn [mbind option_bind app parse_offset].
  unfold valid_time.
  replace ((HourFromTime t <=? 23) && (MinFromTime t <=? 59) && (SecFromTime t <=? 59))
    with true.
  2:{ symmetry. rewrite !andb_true_iff, !Z.leb_le. lia. }
  cbn [orb]. rewrite MT.
  replace (MonthFromTime t + 1 - 1) with (MonthFromTime t) by lia.
  rewrite MakeDay_fields.
  replace (Day t - DateFromTime t + DateFromTime t) with (Day t) by lia.
  rewrite MakeDate_Day, Z.sub_0_r.
  unfold TimeClip. destruct (Z.gtb_spec (Z.abs t) maxTime); [lia | reflexivity].
Qed.

Transparent digits_pad.

Lemma parse_in_range s t : parse tz s = Some t -> Z.abs t <= maxTime.
Proof.
  assert (C : forall x, TimeClip x = Some t -> Z.abs t <= maxTime).
  { intros x. unfold TimeClip. destruct (Z.gtb_spec (Z.abs x) maxTime); [discriminate |].
    intros [= <-]. assumption. }
  unfold parse. intros H.
  repeat match type of H with
         | TimeClip _ = Some _ => exact (C _ H)
         | None = Some _ => discriminate
         | context [mbind _ ?o] => destruct o as [[]|] eqn:?; cbn [mbind option_bind] in H
         | context [match ?x with _ => _ end] => destruct x eqn:?
         end.
Qed.
End Host.
End IsoFacts.

(** ** Deleting an event *)

Module ListFacts.

Lemma jsstring_eqb_eq a b : jsstring_eqb a b = true <-> a = b.
Proof. unfold jsstring_eqb. apply bool_decide_eq_true. Qed.

Lemma jsstring_eqb_neq a b : jsstring_eqb a b = false <-> a <> b.
Proof. unfold jsstring_eqb. apply bool_decide_eq_false. Qed.

Lemma jsstring_eqb_refl a : jsstring_eqb a a = true.
Proof. by apply jsstring_eqb_eq. Qed.

Lemma map_fmap {A B} (f : A -> B) (l : list A) : List.map f l = f <$> l.
Proof. induction l as [| x l IH]; [reflexivity |]. cbn. by rewrite IH. Qed.

Lemma In_remove_id id prev e :
  In e (remove_id id prev) <-> In e prev /\ Event.id e <> id.
Proof.
  unfold remove_id. rewrite filter_In, negb_true_iff, jsstring_eqb_neq. tauto.
Qed.

Lemma remove_id_sublist id prev : sublist (remove_id id prev) prev.
Proof.
  unfold remove_id. induction prev as [| p prev IH]; cbn [List.filter].
  - constructor.
  - destruct (negb _); by constructor.
Qed.

Lemma remove_id_absent id prev :
  (forall e, In e prev -> Event.id e <> id) -> remove_id id prev = prev.
Proof.
  unfold remove_id. induction prev as [| p prev IH]; intros H; cbn [List.filter].
  - reflexivity.
  - assert (E : negb (jsstring_eqb (Event.id p) id) = true).
    { apply negb_true_iff, jsstring_eqb_neq, H. by left. }
    rewrite E. f_equal. apply IH. intros e He. apply H. by right.
Qed.

Lemma remove_id_idempotent id prev : remove_id id (remove_id id prev) = remove_id id prev.
Proof.
  apply remove_id_absent. intros e He. by apply In_remove_id in He as [_ He].
Qed.

End ListFacts.

(** C9.  Deleting, once confirmed, removes the events with that id and no
    other, in place: an event is in the list afterwards exactly when it was
    there before and has another id, and the order is kept.  An id that is not
    in the list leaves the list unchanged, and deleting twice is deleting
    once.  Without the confirmation nothing changes. *)
Theorem deleteEvent_removes_by_id (id : jsstring) (st : State) :
  (forall e, In e (events (deleteEvent true id st)) <-> In e (events st) /\ Event.id e <> id)
  /\ sublist (events (deleteEvent true id st)) (events st)
  /\ ((forall e, In e (events st) -> Event.id e <> id) ->
      events (deleteEvent true id st) = events st)
  /\ deleteEvent true id (deleteEvent true id st) = deleteEvent true id st
  /\ deleteEvent false id st = st.
Proof.
  unfold deleteEvent. cbn [negb events setEvents].
  split; [| split; [| split; [| split]]].
  - apply ListFacts.In_remove_id.
  - apply ListFacts.remove_id_sublist.
  - apply ListFacts.remove_id_absent.
  - unfold setEvents. cbn [today viewDate events modalOpen editingEvent form draws].
    by rewrite ListFacts.remove_id_idempotent.
  - reflexivity.
Qed.

(** Witness: an id that no event of the list has. *)
Lemma deleteEvent_removes_by_id_witness :
  events (deleteEvent true (str "zzz") (Sample.with_events [Sample.sync; Sample.lunch]))
  = events (Sample.with_events [Sample.sync; Sample.lunch]).
Proof.
  apply (deleteEvent_removes_by_id (str "zzz") (Sample.with_events [Sample.sync; Sample.lunch])).
  intros e [<- | [<- | []]]; vm_compute; discriminate.
Defined.

(** ** Saving the form *)

Module SaveFacts.
Import ListFacts.

Section Host.
Variable tz : Z.
Variable random_id : nat -> jsstring.

(** [saveEvent] throws exactly when the date and the time of the form do
    not make a date. *)
Lemma savedEvent_throws st :
  Date.parse tz (Form.date (form st) ++ str "T" ++ Form.time (form st)) = None ->
  savedEvent tz random_id st = Throw RangeError
  /\ saveEvent tz random_id st = Throw RangeError.
Proof.
  intros E. unfold saveEvent, savedEvent. rewrite E.
  destruct (editingEvent st); cbn; split; reflexivity.
Qed.

Lemma placeholder_not_empty : placeholder <> [].
Proof. discriminate. Qed.

Lemma or_else_truthy a b : Num.truthy b = true -> Num.truthy (Num.or_else a b) = true.
Proof. unfold Num.or_else. destruct (Num.truthy a) eqn:E; auto. Qed.

Lemma positive_integer_truthy n : Num.positive_integer n -> Num.truthy n = true.
Proof.
  intros (m & e & -> & M & _). cbn. apply negb_true_iff, Z.eqb_neq. lia.
Qed.
End Host.
End SaveFacts.

(** C3, amended.  When the date and the time of the form make an instant,
    [saveEvent] builds an event whose title is not empty (the placeholder
    when the form's title is empty, the form's title otherwise), whose start
    parses to that instant, and whose duration is a number other than NaN and
    zero: 60 when the field converts to NaN or to zero, the converted field
    otherwise, hence a positive integer whenever the field holds one.  When
    they make no instant, [saveEvent] throws a RangeError and saves nothing. *)
Theorem savedEvent_normalises (tz : Z) (random_id : nat -> jsstring) (st : State) :
  match Date.parse tz (Form.date (form st) ++ str "T" ++ Form.time (form st)) with
  | Some t =>
      exists ev st1,
        savedEvent tz random_id st = Ok (ev, st1)
        /\ Event.title ev <> []
        /\ (Form.title (form st) = [] -> Event.title ev = placeholder)
        /\ (Form.title (form st) <> [] -> Event.title ev = Form.title (form st))
        /\ Date.parse tz (Event.start ev) = Some t
        /\ Num.truthy (Event.duration ev) = true
        /\ (Num.truthy (Number (Form.duration (form st))) = false ->
            Event.duration ev = Num.of_Z 60)
        /\ (Num.truthy (Number (Form.duration (form st))) = true ->
            Event.duration ev = Number (Form.duration (form st)))
        /\ (Num.positive_integer (Number (Form.duration (form st))) ->
            Num.positive_integer (Event.duration ev))
  | None =>
      savedEvent tz random_id st = Throw RangeError
      /\ saveEvent tz random_id st = Throw RangeError
  end.
Proof.
  destruct (Date.parse tz _) as [t |] eqn:E; [| by apply SaveFacts.savedEvent_throws].
  pose proof (IsoFacts.parse_in_range tz _ _ E) as R.
  destruct (Date.toISOString (Some t)) as [iso |] eqn:I; [| discriminate].
  pose proof (IsoFacts.parse_toISOString tz t iso R I) as B.
  unfold savedEvent. rewrite E, I.
  set (id_st := match editingEvent st with
                | Some e => (Event.id e, st)
                | None => cryptoRandomId random_id st
                end).
  destruct id_st as [id st1]. eexists _, st1. split; [reflexivity |].
  cbn [Event.title Event.start Event.duration].
  destruct (jsstring_eqb (Form.title (form st)) []) eqn:T.
  - apply ListFacts.jsstring_eqb_eq in T.
    repeat split; try done.
    + apply SaveFacts.or_else_truthy. reflexivity.
    + intros F. unfold Num.or_else. by rewrite F.
    + intros F. unfold Num.or_else. by rewrite F.
    + intros F. unfold Num.or_else. by rewrite (SaveFacts.positive_integer_truthy _ F).
  - apply ListFacts.jsstring_eqb_neq in T.
    repeat split; try done.
    + apply SaveFacts.or_else_truthy. reflexivity.
    + intros F. unfold Num.or_else. by rewrite F.
    + intros F. unfold Num.or_else. by rewrite F.
    + intros F. unfold Num.or_else. by rewrite (SaveFacts.positive_integer_truthy _ F).
Qed.

(** Witness: a form with no title and the duration "abc". *)
Lemma savedEvent_normalises_witness :
  exists ev st1,
    savedEvent 3600000 Sample.ids
      (setForm (Sample.typed_form "" "2024-03-15" "09:00" "abc") Sample.march_2024)
    = Ok (ev, st1)
    /\ Event.title ev = placeholder
    /\ Date.parse 3600000 (Event.start ev) = Some 1710489600000
    /\ Event.duration ev = Num.of_Z 60.
Proof.
  pose proof (savedEvent_normalises 3600000 Sample.ids
                (setForm (Sample.typed_form "" "2024-03-15" "09:00" "abc") Sample.march_2024))
    as H.
  replace (Date.parse 3600000 _) with (Some 1710489600000) in H by (vm_compute; reflexivity).
  destruct H as (ev & st1 & E & _ & T & _ & S & _ & D & _).
  exists ev, st1. split; [exact E |]. split; [apply T; reflexivity |].
  split; [exact S |]. apply D. vm_compute. reflexivity.
Defined.

(** C3 as stated fails on a form whose duration is "-5", which is saved as
    the duration -5, and on a form without a date, on which [saveEvent]
    throws. *)
Lemma saveEvent_invariants_not_every_form :
  ~ Spec.save_keeps_invariants 0 Sample.ids
      (setForm (Sample.typed_form "Sync" "2024-03-15" "09:00" "-5") Sample.march_2024)
  /\ ~ Spec.save_keeps_invariants 0 Sample.ids
         (setForm (Sample.typed_form "Sync" "" "09:00" "30") Sample.march_2024).
Proof.
  split; intros (ev & st1 & E & (_ & P & _) & _).
  - vm_compute in E. injection E as <- _.
    destruct P as (m & e & F & M & _). cbn in F. injection F as <- _. lia.
  - vm_compute in E. discriminate.
Qed.

(** ** Editing an event, and the calendar export *)

(** C5.  Saving an edit (the date and the time of the form making an
    instant, without which nothing is saved) puts the event built from the
    form, which has the id of the edited event, in the place of every event
    with that id: the list keeps its length, the events with another id stay
    where they are, and the id of the edited event being in the list, the
    new event is in it afterwards. *)
Theorem saveEvent_edit_replaces_in_place
    (tz : Z) (random_id : nat -> jsstring) (st : State) (e : Event.t) (t : Z) :
  editingEvent st = Some e ->
  In (Event.id e) (List.map Event.id (events st)) ->
  Date.parse tz (Form.date (form st) ++ str "T" ++ Form.time (form st)) = Some t ->
  exists ev st',
    savedEvent tz random_id st = Ok (ev, st)
    /\ saveEvent tz random_id st = Ok st'
    /\ Event.id ev = Event.id e
    /\ Event.title ev = (if decide (Form.title (form st) = []) then placeholder
                        else Form.title (form st))
    /\ Date.toISOString (Some t) = Some (Event.start ev)
    /\ Event.duration ev = Num.or_else (Number (Form.duration (form st))) (Num.of_Z 60)
    /\ Event.description ev = Form.description (form st)
    /\ Event.attendees ev
       = List.filter (fun s => negb (jsstring_eqb s []))
           (List.map trim (split 44 (Form.attendees (form st))))
    /\ length (events st') = length (events st)
    /\ (forall i p, events st !! i = Some p ->
          events st' !! i = Some (if decide (Event.id p = Event.id e) then ev else p))
    /\ In ev (events st').
Proof.
  intros Ed Hin P.
  destruct (Date.toISOString (Some t)) as [iso |] eqn:I; [| discriminate].
  unfold saveEvent, savedEvent. rewrite P, I, Ed.
  eexists _, _. split; [reflexivity |]. split; [reflexivity |].
  cbn [Event.id Event.title Event.start Event.duration Event.description Event.attendees
       events setModalOpen setEvents].
  split; [reflexivity |]. split.
  { destruct (decide (Form.title (form st) = [])) as [T | T].
    - by rewrite (proj2 (ListFacts.jsstring_eqb_eq _ _) T).
    - by rewrite (proj2 (ListFacts.jsstring_eqb_neq _ _) T). }
  do 4 (split; [reflexivity |]).
  split; [by rewrite length_map |]. split.
  - intros i p L. rewrite ListFacts.map_fmap, list_lookup_fmap, L. cbn [fmap option_fmap option_map].
    f_equal. destruct (decide (Event.id p = Event.id e)) as [T | T].
    + by rewrite (proj2 (ListFacts.jsstring_eqb_eq _ _) T).
    + by rewrite (proj2 (ListFacts.jsstring_eqb_neq _ _) T).
  - apply in_map_iff in Hin as (p & Hp & Hin).
    apply in_map_iff. exists p. split; [| exact Hin].
    by rewrite (proj2 (ListFacts.jsstring_eqb_eq _ _) Hp).
Qed.

(** Witness: the title of "Sync" is changed; "Lunch" stays in second place. *)
Lemma saveEvent_edit_replaces_in_place_witness :
  exists ev st',
    saveEvent 0 Sample.ids
      (setForm (Sample.typed_form "Sync!" "2024-03-15" "09:00" "30")
         (setEditingEvent (Some Sample.sync) (Sample.with_events [Sample.sync; Sample.lunch])))
    = Ok st'
    /\ Event.id ev = Event.id Sample.sync
    /\ events st' = [ev; Sample.lunch].
Proof.
  destruct (saveEvent_edit_replaces_in_place 0 Sample.ids
              (setForm (Sample.typed_form "Sync!" "2024-03-15" "09:00" "30")
                 (setEditingEvent (Some Sample.sync)
                    (Sample.with_events [Sample.sync; Sample.lunch])))
              Sample.sync 1710493200000)
    as (ev & st' & _ & E & I & _ & _ & _ & _ & _ & L & F & _).
  - reflexivity.
  - left. reflexivity.
  - vm_compute. reflexivity.
  - exists ev, st'. split; [exact E |]. split; [exact I |].
    pose proof (F 0%nat Sample.sync eq_refl) as F0.
    pose proof (F 1%nat Sample.lunch eq_refl) as F1.
    rewrite decide_True in F0 by reflexivity.
    rewrite decide_False in F1 by (vm_compute; discriminate).
    destruct (events st') as [| a [| b [| c r]]]; try discriminate.
    cbn in F0, F1. by injection F0 as ->; injection F1 as ->.
Defined.

(** C10 fails on a host two hours ahead of UTC and an event that starts at
    23:00 UTC (01:00 local time, on the next day): the form takes the date of
    14 March from UTC and the time 01:00 from the local clock, and saving it
    unchanged moves the event a day back, to 13 March, 23:00 UTC. *)
Theorem edit_then_save_moves_start :
  exists st1 st2 ev',
    openEditModal 7200000 Sample.late (Sample.with_events [Sample.late]) = Ok st1
    /\ Form.date (form st1) = str "2024-03-14" /\ Form.time (form st1) = str "01:00"
    /\ saveEvent 7200000 Sample.ids st1 = Ok st2
    /\ events st2 = [ev']
    /\ Event.start Sample.late = str "2024-03-14T23:00:00.000Z"
    /\ Event.start ev' = str "2024-03-13T23:00:00.000Z"
    /\ Date.parse 7200000 (Event.start Sample.late) = Some 1710457200000
    /\ Date.parse 7200000 (Event.start ev') = Some 1710370800000.
Proof.
  eexists _, _, _. split; [vm_compute; reflexivity |].
  split; [reflexivity |]. split; [reflexivity |].
  split; [vm_compute; reflexivity |].
  split; [reflexivity |].
  repeat split; vm_compute; reflexivity.
Qed.

(** C7 fails on a text with a comma: the replacement of a comma is the comma
    itself, so that the text comes out unchanged, its comma after the [a]. *)
Theorem escapeICSText_comma_not_escaped :
  escapeICSText (str "a,b") = str "a,b"
  /\ exportICS_text_lines
       {| Event.id := str "abc"; Event.title := str "a,b"; Event.start := [];
          Event.duration := Num.of_Z 60; Event.description := str "c,d";
          Event.attendees := [] |}
     = [str "SUMMARY:a,b"; str "DESCRIPTION:c,d"].
Proof. split; reflexivity. Qed.

(** The other half of C7 holds: the newlines, and only they, are rewritten. *)
Lemma escapeICSText_newlines s : escapeICSText s = replaceAll 10 [92; 110] s.
Proof.
  unfold escapeICSText. generalize (replaceAll 10 [92; 110] s) as r.
  induction r as [| c r IH]; [reflexivity |].
  cbn [replaceAll]. destruct (Z.eqb_spec c 44) as [-> | N]; cbn [app]; by rewrite IH.
Qed.

(** ** The events of a day *)

Module SortFacts.
Section Sorting.
Context {A : Type} (compareFn : A -> A -> option Z) (key : A -> Z).

Lemma insert_Permutation x l : Permutation (insert compareFn x l) (x :: l).
Proof.
  induction l as [| y r IH]; cbn [insert]; [reflexivity |].
  destruct (SortCompare compareFn y x <? 0); [| reflexivity].
  rewrite IH. apply perm_swap.
Qed.

Lemma sort_Permutation l : Permutation (sort compareFn l) l.
Proof.
  induction l as [| x r IH]; cbn [sort]; [reflexivity |].
  rewrite insert_Permutation. by constructor.
Qed.

(** Where the comparator is the difference of the keys, insertion keeps a
    list sorted by key. *)
Lemma insert_sorted x l :
  (forall a b, In a (x :: l) -> In b (x :: l) -> SortCompare compareFn a b = key a - key b) ->
  StronglySorted (fun a b => key a <= key b) l ->
  StronglySorted (fun a b => key a <= key b) (insert compareFn x l).
Proof.
  intros C S. induction S as [| y r S IH F]; cbn [insert].
  - repeat constructor.
  - rewrite C by (cbn; auto).
    destruct (Z.ltb_spec (key y - key x) 0) as [L | L].
    + constructor.
      * apply IH. intros a b Ha Hb. apply C; cbn in *; tauto.
      * rewrite insert_Permutation. constructor; [lia | exact F].
    + constructor; [by constructor |].
      constructor; [lia |].
      eapply Forall_impl; [exact F |]. cbn. intros. lia.
Qed.

Lemma sort_sorted l :
  (forall a b, In a l -> In b l -> SortCompare compareFn a b = key a - key b) ->
  StronglySorted (fun a b => key a <= key b) (sort compareFn l).
Proof.
  induction l as [| x r IH]; intros C; cbn [sort]; [constructor |].
  apply insert_sorted.
  - intros a b Ha Hb. apply C.
    + destruct Ha as [-> | Ha]; [by left | right].
      by rewrite <- (sort_Permutation r).
    + destruct Hb as [-> | Hb]; [by left | right].
      by rewrite <- (sort_Permutation r).
  - apply IH. intros a b Ha Hb. apply C; by right.
Qed.

Lemma StronglySorted_weaken (R R' : A -> A -> Prop) l :
  (forall a b, In a l -> In b l -> R a b -> R' a b) ->
  StronglySorted R l -> StronglySorted R' l.
Proof.
  intros W S. induction S as [| x r S IH F]; constructor.
  - apply IH. intros a b Ha Hb. apply W; by right.
  - rewrite Forall_forall in *. intros b Hb.
    apply W; [by left | right; by apply list_elem_of_In | by apply F].
Qed.
End Sorting.
End SortFacts.

Module DayFacts.
Import Date DateFacts GridFacts.

Section Host.
Variable tz : Z.

(** [new Date(y, m, d + k)] from the fields of [t]: the local midnight [k]
    days after the day of [t]. *)
Lemma new_ymd_day t k :
  Spec.inner t -> Spec.plain_year tz t -> -99 <= k <= 99 ->
  new_ymd_opt tz (getFullYear tz (Some t)) (getMonth tz (Some t))
    (Z.add k <$> getDate tz (Some t))
  = Some ((Day (LocalTime tz t) + k) * msPerDay - tz).
Proof.
  intros I P K. cbn [getFullYear getMonth getDate new_ymd_opt mbind option_bind
                     fmap option_fmap option_map].
  unfold new_ymd. unfold Spec.plain_year in P.
  replace ((0 <=? YearFromTime (LocalTime tz t)) && (YearFromTime (LocalTime tz t) <=? 99))
    with false.
  2:{ symmetry. apply andb_false_iff.
      destruct (Z.leb_spec 0 (YearFromTime (LocalTime tz t)));
        destruct (Z.leb_spec (YearFromTime (LocalTime tz t)) 99); auto; lia. }
  rewrite MakeDay_fields. replace (MakeTime 0 0 0 0) with 0 by reflexivity.
  replace (Day (LocalTime tz t) - DateFromTime (LocalTime tz t)
           + (k + DateFromTime (LocalTime tz t)))
    with (Day (LocalTime tz t) + k) by lia.
  by apply TimeClip_near.
Qed.

Lemma eventsForDay_value events t :
  Spec.inner t -> Spec.plain_year tz t ->
  let dayStart := Day (LocalTime tz t) * msPerDay - tz in
  eventsForDay tz events (Some t)
  = sort (fun a b => Date.sub (parse tz (Event.start a)) (parse tz (Event.start b)))
      (List.filter (Spec.starts_in tz dayStart (dayStart + msPerDay)) events).
Proof.
  intros I P dayStart. unfold eventsForDay.
  pose proof (new_ymd_day t 0 I P ltac:(lia)) as S.
  pose proof (new_ymd_day t 1 I P ltac:(lia)) as E.
  replace (Z.add 0 <$> getDate tz (Some t)) with (getDate tz (Some t)) in S by reflexivity.
  rewrite S, E. f_equal. apply filter_ext. intros ev.
  unfold Spec.starts_in, Date.ge, Date.lt.
  destruct (parse tz (Event.start ev)) as [s |]; [| reflexivity].
  replace ((Day (LocalTime tz t) + 0) * msPerDay - tz) with dayStart by (unfold dayStart; lia).
  replace ((Day (LocalTime tz t) + 1) * msPerDay - tz) with (dayStart + msPerDay)
    by (unfold dayStart; lia).
  reflexivity.
Qed.
(** The instants from the local midnight of day [d] to the next are those
    of local day [d]. *)
Lemma starts_in_day d ev :
  Spec.starts_in tz (d * msPerDay - tz) (d * msPerDay - tz + msPerDay) ev
  = Spec.starts_on tz d ev.
Proof.
  unfold Spec.starts_in, Spec.starts_on.
  destruct (parse tz (Event.start ev)) as [s |]; [| reflexivity].
  unfold Day, LocalTime, msPerDay.
  destruct (Z.eqb_spec ((s + tz) / 86400000) d) as [E | E].
  - apply andb_true_iff. rewrite Z.leb_le, Z.ltb_lt.
    revert E. Z.div_mod_to_equations. lia.
  - apply andb_false_iff. rewrite Z.leb_gt, Z.ltb_ge.
    revert E. Z.div_mod_to_equations. lia.
Qed.

Lemma eventsForDay_sorted_day events t :
  Spec.inner t -> Spec.plain_year tz t ->
  Spec.day_events tz events (Some t) (eventsForDay tz events (Some t)).
Proof.
  intros I P. exists t. split; [reflexivity |].
  rewrite (eventsForDay_value events t I P).
  rewrite (filter_ext _ _ (starts_in_day (Date.Day (Date.LocalTime tz t)))).
  set (day := List.filter _ events).
  split; [apply SortFacts.sort_Permutation |].
  assert (V : forall a, In a day -> exists s, Date.parse tz (Event.start a) = Some s).
  { intros a Ha. apply filter_In in Ha as [_ Ha]. unfold Spec.starts_on in Ha.
    destruct (Date.parse tz (Event.start a)) as [s |]; [by exists s | discriminate]. }
  apply (SortFacts.StronglySorted_weaken
           (fun a b => default 0 (Date.parse tz (Event.start a))
                       <= default 0 (Date.parse tz (Event.start b)))).
  - intros a b Ha Hb.
    rewrite (SortFacts.sort_Permutation _ day) in Ha, Hb.
    destruct (V a Ha) as [sa Ea], (V b Hb) as [sb Eb].
    unfold Spec.start_le. by rewrite Ea, Eb.
  - apply SortFacts.sort_sorted. intros a b Ha Hb.
    destruct (V a Ha) as [sa Ea], (V b Hb) as [sb Eb].
    unfold SortCompare. by rewrite Ea, Eb.
Qed.

(** The events returned are those that start on the local day of the date:
    the local midnight that begins the day belongs to it, the one that ends
    it is the first instant of the next day and does not. *)
Lemma eventsForDay_In events t ev :
  Spec.inner t -> Spec.plain_year tz t ->
  In ev (eventsForDay tz events (Some t))
  <-> In ev events
      /\ exists s, Date.parse tz (Event.start ev) = Some s
           /\ Date.Day (Date.LocalTime tz s) = Date.Day (Date.LocalTime tz t).
Proof.
  intros I P.
  destruct (eventsForDay_sorted_day events t I P) as (t' & [= <-] & Perm & _).
  rewrite Perm, filter_In. unfold Spec.starts_on.
  destruct (Date.parse tz (Event.start ev)) as [s |].
  - rewrite Z.eqb_eq. split.
    + intros [H D]. split; [exact H |]. by exists s.
    + intros [H (s' & [= <-] & D)]. by split.
  - split; [intros [_ F]; discriminate | intros [_ (s & F & _)]; discriminate].
Qed.
End Host.
End DayFacts.

(** C4, amended.  For a date a hundred days inside the range of Date whose
    local year is not one of 0..99, [eventsForDay] returns exactly the events
    whose start is an instant of the local calendar day of that date, from
    the local midnight that begins it (included) to the next one (excluded),
    sorted ascending by start. *)
Theorem eventsForDay_day_events (tz : Z) (events : list Event.t) (t : Z) :
  Spec.inner t -> Spec.plain_year tz t ->
  Spec.day_events tz events (Some t) (eventsForDay tz events (Some t)).
Proof. apply DayFacts.eventsForDay_sorted_day. Qed.

(** Witness: the events of 15 March 2024, given out of order. *)
Lemma eventsForDay_day_events_witness :
  Spec.inner 1710460800000 /\ Spec.plain_year 0 1710460800000
  /\ Spec.day_events 0 [Sample.lunch; Sample.late; Sample.sync] (Some 1710460800000)
       (eventsForDay 0 [Sample.lunch; Sample.late; Sample.sync] (Some 1710460800000))
  /\ eventsForDay 0 [Sample.lunch; Sample.late; Sample.sync] (Some 1710460800000)
     = [Sample.sync; Sample.lunch].
Proof.
  assert (I : Spec.inner 1710460800000) by (unfold Spec.inner; vm_compute; discriminate).
  assert (P : Spec.plain_year 0 1710460800000).
  { unfold Spec.plain_year. vm_compute. intros [_ H]. apply H. reflexivity. }
  split; [exact I | split; [exact P | split]].
  - exact (eventsForDay_day_events 0 [Sample.lunch; Sample.late; Sample.sync]
             1710460800000 I P).
  - vm_compute. reflexivity.
Defined.

(** C4 as stated fails on 15 March of the year 50, whose events are looked
    for in 1950, and on the last day that a Date can hold, whose end is not a
    date: in both cases an event of that day is not returned. *)
Lemma eventsForDay_not_every_date :
  ~ Spec.day_events 0 [Sample.noon_50] (Some (-60582988800000))
      (eventsForDay 0 [Sample.noon_50] (Some (-60582988800000)))
  /\ ~ Spec.day_events 0 [Sample.last] (Some 8640000000000000)
         (eventsForDay 0 [Sample.last] (Some 8640000000000000)).
Proof.
  split; intros (t & [= <-] & Perm & _); apply Permutation_length in Perm;
    vm_compute in Perm; discriminate.
Qed.

(** ** Base64 *)

Module Base64Facts.
Import Base64.

(** Induction three elements at a time. *)
Lemma list_ind3 {A} (P : list A -> Prop) :
  P [] -> (forall a, P [a]) -> (forall a b, P [a; b]) ->
  (forall a b c r, P r -> P (a :: b :: c :: r)) ->
  forall l, P l.
Proof.
  intros P0 P1 P2 P3.
  assert (H : forall l, P l /\ (forall a, P (a :: l)) /\ (forall a b, P (a :: b :: l))).
  { induction l as [| c r (Hr & Hr1 & Hr2)].
    - auto.
    - split; [apply Hr1 |]. split; [intros a; apply Hr2 |]. intros a b. by apply P3. }
  intros l. apply H.
Qed.

Lemma value_of_alphabet i : 0 <= i < 64 -> value_of (alphabet i) = Some i.
Proof.
  intros H. unfold alphabet, value_of.
  repeat match goal with
         | |- context [Z.ltb ?a ?b] => destruct (Z.ltb_spec a b)
         | |- context [Z.leb ?a ?b] => destruct (Z.leb_spec a b)
         | |- context [Z.eqb ?a ?b] => destruct (Z.eqb_spec a b)
         end; cbn [andb]; try lia; f_equal; lia.
Qed.

(** A character of the alphabet is neither white space nor the padding. *)
Lemma alphabet_range i :
  0 <= i < 64 ->
  65 <= alphabet i <= 90 \/ 97 <= alphabet i <= 122 \/ 48 <= alphabet i <= 57
  \/ alphabet i = 43 \/ alphabet i = 47.
Proof.
  intros H. unfold alphabet.
  repeat match goal with
         | |- context [Z.ltb ?a ?b] => destruct (Z.ltb_spec a b)
         | |- context [Z.eqb ?a ?b] => destruct (Z.eqb_spec a b)
         end; lia.
Qed.

Lemma alphabet_ws i : 0 <= i < 64 -> is_ascii_ws (alphabet i) = false.
Proof.
  intros H. pose proof (alphabet_range i H) as R. revert R.
  generalize (alphabet i). intros c R. unfold is_ascii_ws.
  repeat match goal with
         | |- context [Z.eqb ?a ?b] => destruct (Z.eqb_spec a b)
         end; cbn [orb]; try lia; reflexivity.
Qed.

Lemma alphabet_pad i : 0 <= i < 64 -> (alphabet i =? 61) = false.
Proof. intros H. pose proof (alphabet_range i H). apply Z.eqb_neq. lia. Qed.

Ltac sextet := Z.div_mod_to_equations; lia.

Lemma encode_no_ws l :
  Forall byte l -> List.filter (fun c => negb (is_ascii_ws c)) (encode l) = encode l.
Proof.
  unfold byte.
  induction l as [| a | a b | a b c r IH] using list_ind3; intros F.
  - reflexivity.
  - inversion_clear F as [| ? ? A _]. cbn [encode List.filter].
    rewrite (alphabet_ws (a / 4)), (alphabet_ws (a mod 4 * 16)) by sextet. reflexivity.
  - inversion_clear F as [| ? ? A F']. inversion_clear F' as [| ? ? B _].
    cbn [encode List.filter].
    rewrite (alphabet_ws (a / 4)), (alphabet_ws (a mod 4 * 16 + b / 16)),
      (alphabet_ws (b mod 16 * 4)) by sextet.
    reflexivity.
  - inversion_clear F as [| ? ? A F']. inversion_clear F' as [| ? ? B F''].
    inversion_clear F'' as [| ? ? C F].
    cbn [encode List.filter].
    rewrite (alphabet_ws (a / 4)), (alphabet_ws (a mod 4 * 16 + b / 16)),
      (alphabet_ws (b mod 16 * 4 + c / 64)), (alphabet_ws (c mod 64)) by sextet.
    cbn [negb]. by rewrite IH.
Qed.

Lemma length_encode l : (length (encode l) mod 4 = 0)%nat.
Proof.
  induction l as [| a | a b | a b c r IH] using list_ind3; try reflexivity.
  cbn [encode length].
  change (S (S (S (S (length (encode r)))))) with (4 + length (encode r))%nat.
  rewrite <- Nat.Div0.add_mod_idemp_r, IH. reflexivity.
Qed.

(** Four characters in front of a text that is not empty do not change what
    is stripped from its end. *)
Lemma strip_padding_cons4 c1 c2 c3 c4 e :
  e <> [] -> (length e mod 4 = 0)%nat ->
  strip_padding (c1 :: c2 :: c3 :: c4 :: e) = c1 :: c2 :: c3 :: c4 :: strip_padding e.
Proof.
  intros N L. unfold strip_padding.
  change (length (c1 :: c2 :: c3 :: c4 :: e)) with (4 + length e)%nat.
  rewrite <- Nat.Div0.add_mod_idemp_r, L.
  change ((4 + 0) mod 4 =? 0)%nat with true. change (0 =? 0)%nat with true. cbv iota.
  change (c1 :: c2 :: c3 :: c4 :: e) with ([c1; c2; c3; c4] ++ e).
  rewrite rev_app_distr.
  destruct (rev e) as [| z zs] eqn:R.
  { apply (f_equal (@rev Z)) in R. rewrite rev_involutive in R. by destruct N. }
  destruct zs as [| z' zs].
  { apply (f_equal (@length Z)) in R. rewrite length_rev in R. rewrite R in L. discriminate. }
  cbn [app].
  assert (X : forall t : list Z, rev (t ++ rev [c1; c2; c3; c4]) = [c1; c2; c3; c4] ++ rev t).
  { intros t. by rewrite rev_app_distr, rev_involutive. }
  destruct (z =? 61); [| reflexivity].
  destruct (z' =? 61); [apply X | apply (X (z' :: zs))].
Qed.

Lemma base64_nonempty l : l <> [] -> encode l <> [].
Proof. destruct l as [| a [| b [| c r]]]; [done | discriminate ..]. Qed.

Ltac len4 :=
  match goal with
  | |- context [Nat.eqb ?x 0] => replace (Nat.eqb x 0) with true by reflexivity
  end; cbv iota.

Lemma decode_strip_encode l :
  Forall byte l -> decode (strip_padding (encode l)) = Some l.
Proof.
  unfold byte.
  induction l as [| a | a b | a b c r IH] using list_ind3; intros F.
  - reflexivity.
  - inversion_clear F as [| ? ? A _]. cbn [encode].
    unfold strip_padding. len4. cbn [rev app].
    change (61 =? 61) with true. cbv iota. cbn [rev app decode].
    rewrite !value_of_alphabet by sextet. cbn [mbind option_bind].
    do 2 f_equal. sextet.
  - inversion_clear F as [| ? ? A F']. inversion_clear F' as [| ? ? B _]. cbn [encode].
    unfold strip_padding. len4. cbn [rev app].
    change (61 =? 61) with true. cbv iota.
    rewrite alphabet_pad by sextet. cbn [rev app decode].
    rewrite !value_of_alphabet by sextet. cbn [mbind option_bind].
    f_equal. f_equal; [sextet |]. f_equal. sextet.
  - inversion_clear F as [| ? ? A F']. inversion_clear F' as [| ? ? B F''].
    inversion_clear F'' as [| ? ? C F]. specialize (IH F). cbn [encode].
    destruct r as [| d r].
    + cbn [encode]. unfold strip_padding. len4. cbn [rev app].
      rewrite alphabet_pad by sextet. cbn [decode].
      rewrite !value_of_alphabet by sextet. cbn [mbind option_bind].
      f_equal. f_equal; [sextet |]. f_equal; [sextet |]. f_equal. sextet.
    + rewrite strip_padding_cons4 by (apply base64_nonempty || apply length_encode; done).
      cbn [decode]. rewrite !value_of_alphabet by sextet. cbn [mbind option_bind].
      rewrite IH. cbn [mbind option_bind].
      f_equal. f_equal; [sextet |]. f_equal; [sextet |]. f_equal. sextet.
Qed.

(** [atob] inverts [btoa]. *)
Lemma atob_btoa s e : btoa s = Some e -> atob e = Some s.
Proof.
  unfold btoa, atob. destruct (forallb _ s) eqn:F; [| discriminate].
  intros [= <-].
  assert (B : Forall byte s).
  { rewrite forallb_forall in F. apply List.Forall_forall. intros c Hc.
    specialize (F c Hc). apply andb_true_iff in F. rewrite !Z.leb_le in F. exact F. }
  rewrite encode_no_ws by exact B. by apply decode_strip_encode.
Qed.

Lemma btoa_ascii s : Forall byte s -> btoa s = Some (encode s).
Proof.
  intros B. unfold btoa.
  replace (forallb _ s) with true; [reflexivity |].
  symmetry. apply forallb_forall. intros c Hc.
  rewrite List.Forall_forall in B. specialize (B c Hc). unfold byte in B.
  apply andb_true_iff. rewrite !Z.leb_le. exact B.
Qed.

End Base64Facts.

(** ** URI component encoding *)

Module URIFacts.
Import URI.

Ltac arith := Z.div_mod_to_equations; lia.

(** Settles the comparisons of the goal, in order, from the hypotheses. *)
Ltac settle :=
  repeat match goal with
         | |- context [Z.ltb ?a ?b] =>
             destruct (Z.ltb_spec a b); [try (exfalso; arith) | try (exfalso; arith)]
         | |- context [Z.leb ?a ?b] =>
             destruct (Z.leb_spec a b); [try (exfalso; arith) | try (exfalso; arith)]
         | |- context [Z.eqb ?a ?b] =>
             destruct (Z.eqb_spec a b); [try (exfalso; arith) | try (exfalso; arith)]
         end.

Lemma hex_digit_upper d : 0 <= d < 16 -> Num.hex_digit (hex_char_upper d) = Some d.
Proof.
  intros H. unfold Num.hex_digit, hex_char_upper, is_digit.
  destruct (Z.ltb_spec d 10); settle; cbn [andb]; f_equal; lia.
Qed.

Lemma hex_digit_lower d : 0 <= d < 16 -> Num.hex_digit (hex_char_lower d) = Some d.
Proof.
  intros H. unfold Num.hex_digit, hex_char_lower, is_digit.
  destruct (Z.ltb_spec d 10); settle; cbn [andb]; f_equal; lia.
Qed.

Lemma hex_char_upper_ascii d : 0 <= d < 16 -> 48 <= hex_char_upper d <= 70.
Proof. intros H. unfold hex_char_upper. destruct (Z.ltb_spec d 10); lia. Qed.

(** One escape: the octet [b] reaches the decoder. *)
Lemma decode_escape b e pending :
  0 <= b < 256 ->
  decode (percent [b] ++ e) pending
  = match pending with
    | None =>
        if b <? 128 then cons b <$> decode e None
        else if b <? 192 then None
        else if b <? 224 then decode e (Some (1%nat, b - 192, 128))
        else if b <? 240 then decode e (Some (2%nat, b - 224, 2048))
        else if b <? 248 then decode e (Some (3%nat, b - 240, 65536))
        else None
    | Some (n, acc, low) =>
        if (128 <=? b) && (b <? 192) then
          match n with
          | 1%nat => u ← finish (acc * 64 + (b - 128)) low; app u <$> decode e None
          | S n' => decode e (Some (n', acc * 64 + (b - 128), low))
          | O => None
          end
        else None
    end.
Proof.
  intros H. cbn [percent app decode]. change (37 =? 37) with true. cbv iota.
  rewrite !hex_digit_upper by arith. cbn [mbind option_bind].
  replace (16 * (b / 16) + b mod 16) with b by arith. reflexivity.
Qed.

Lemma percent_app a b : percent (a ++ b) = percent a ++ percent b.
Proof. induction a as [| x a IH]; [reflexivity |]. cbn [percent app]. by rewrite IH. Qed.

Lemma percent_cons b r e : percent (b :: r) ++ e = percent [b] ++ (percent r ++ e).
Proof. reflexivity. Qed.

(** The escapes of the UTF-8 form of a scalar value decode to its UTF-16
    form. *)
Lemma decode_utf8 cp e :
  scalar cp ->
  decode (percent (utf8 cp) ++ e) None = app (utf16 cp) <$> decode e None.
Proof.
  intros [R S]. unfold utf8.
  destruct (Z.ltb_spec cp 128) as [C1 | C1];
    [| destruct (Z.ltb_spec cp 2048) as [C2 | C2];
       [| destruct (Z.ltb_spec cp 65536) as [C3 | C3]]].
  - rewrite decode_escape by lia. settle. unfold utf16. settle.
    by destruct (decode e None).
  - rewrite percent_cons, decode_escape by arith. settle.
    rewrite decode_escape by arith. settle. cbn [andb].
    unfold finish. settle. cbn [orb andb mbind option_bind].
    replace ((192 + cp / 64 - 192) * 64 + (128 + cp mod 64 - 128)) with cp by arith.
    reflexivity.
  - rewrite percent_cons, decode_escape by arith. settle.
    rewrite percent_cons, decode_escape by arith. settle. cbn [andb].
    rewrite decode_escape by arith. settle. cbn [andb].
    unfold finish. settle; cbn [orb andb mbind option_bind];
    replace (((224 + cp / 4096 - 224) * 64 + (128 + (cp / 64) mod 64 - 128)) * 64
             + (128 + cp mod 64 - 128)) with cp by arith; reflexivity.
  - rewrite percent_cons, decode_escape by arith. settle.
    rewrite percent_cons, decode_escape by arith. settle. cbn [andb].
    rewrite percent_cons, decode_escape by arith. settle. cbn [andb].
    rewrite decode_escape by arith. settle. cbn [andb].
    unfold finish. settle; cbn [orb andb mbind option_bind];
    replace ((((240 + cp / 262144 - 240) * 64 + (128 + (cp / 4096) mod 64 - 128)) * 64
              + (128 + (cp / 64) mod 64 - 128)) * 64 + (128 + cp mod 64 - 128))
      with cp by arith; reflexivity.
Qed.

(** Induction on a string read one or two code units at a time. *)
Lemma list_ind2 {A} (P : list A -> Prop) :
  P [] ->
  (forall c r, P r -> (forall c2 r2, r = c2 :: r2 -> P r2) -> P (c :: r)) ->
  forall l, P l.
Proof.
  intros P0 PS.
  assert (H : forall l, P l /\ forall a, P (a :: l)).
  { induction l as [| c r [IH1 IH2]].
    - split; [exact P0 |]. intros a. apply PS; [exact P0 | discriminate].
    - split; [apply IH2 |]. intros a. apply PS; [apply IH2 |].
      intros c2 r2 [= -> ->]. exact IH1. }
  intros l. apply H.
Qed.

Lemma is_lead_spec c : is_lead c = true <-> 55296 <= c <= 56319.
Proof. unfold is_lead. rewrite andb_true_iff, !Z.leb_le. tauto. Qed.

Lemma is_trail_spec c : is_trail c = true <-> 56320 <= c <= 57343.
Proof. unfold is_trail. rewrite andb_true_iff, !Z.leb_le. tauto. Qed.

Lemma is_lead_false c : is_lead c = false <-> ~ (55296 <= c <= 56319).
Proof. rewrite <- is_lead_spec. by destruct (is_lead c). Qed.

Lemma is_trail_false c : is_trail c = false <-> ~ (56320 <= c <= 57343).
Proof. rewrite <- is_trail_spec. by destruct (is_trail c). Qed.

Lemma unreserved_ascii c : unreserved c = true -> 0 <= c < 128 /\ c <> 37.
Proof.
  unfold unreserved, is_alnum, is_mark.
  rewrite !orb_true_iff, !andb_true_iff, !Z.leb_le, !Z.eqb_eq. lia.
Qed.

Lemma utf16_pair c c2 :
  55296 <= c <= 56319 -> 56320 <= c2 <= 57343 ->
  scalar (pair_code_point c c2) /\ utf16 (pair_code_point c c2) = [c; c2].
Proof.
  intros L T. unfold scalar, pair_code_point, utf16. split; [lia |].
  settle. f_equal; [arith |]. f_equal. arith.
Qed.

Lemma utf16_unit c :
  code_unit c -> ~ (55296 <= c <= 56319) -> ~ (56320 <= c <= 57343) ->
  scalar c /\ utf16 c = [c].
Proof.
  unfold code_unit, scalar, utf16. intros U L T. split; [lia |]. by settle.
Qed.

(** The cases of [encodeURIComponent] on a string that is not empty. *)
Lemma encodeURIComponent_cons c r e :
  code_unit c -> encodeURIComponent (c :: r) = Some e ->
  (unreserved c = true /\ exists e', encodeURIComponent r = Some e' /\ e = c :: e')
  \/ (exists cp, scalar cp /\ utf16 cp = [c]
        /\ exists e', encodeURIComponent r = Some e' /\ e = percent (utf8 cp) ++ e')
  \/ (exists c2 r2 cp, r = c2 :: r2 /\ scalar cp /\ utf16 cp = [c; c2]
        /\ exists e', encodeURIComponent r2 = Some e' /\ e = percent (utf8 cp) ++ e').
Proof.
  intros U. cbn [encodeURIComponent].
  destruct (unreserved c) eqn:Un.
  { intros E. left. split; [reflexivity |].
    destruct (encodeURIComponent r) as [e' |]; [| discriminate].
    injection E as <-. by exists e'. }
  destruct (is_trail c) eqn:T; [discriminate |]. apply is_trail_false in T.
  destruct (is_lead c) eqn:L.
  - apply is_lead_spec in L. destruct r as [| c2 r2]; [discriminate |].
    destruct (is_trail c2) eqn:T2; [| discriminate]. apply is_trail_spec in T2.
    intros E. right. right. destruct (utf16_pair c c2 L T2) as [S P].
    exists c2, r2, (pair_code_point c c2). repeat split; try assumption; try apply S.
    destruct (encodeURIComponent r2) as [e' |]; [| discriminate].
    injection E as <-. by exists e'.
  - apply is_lead_false in L. intros E. right. left.
    destruct (utf16_unit c U L T) as [S P].
    exists c. repeat split; try assumption; try apply S.
    destruct (encodeURIComponent r) as [e' |]; [| discriminate].
    injection E as <-. by exists e'.
Qed.

(** [decodeURIComponent] inverts [encodeURIComponent]. *)
Lemma decode_encode s :
  Forall code_unit s ->
  forall e, encodeURIComponent s = Some e -> decodeURIComponent e = Some s.
Proof.
  unfold decodeURIComponent.
  induction s as [| c r IH1 IH2] using list_ind2; intros F e E.
  - injection E as <-. reflexivity.
  - inversion_clear F as [| ? ? U F'].
    destruct (encodeURIComponent_cons c r e U E)
      as [(Un & e' & E' & ->) | [(cp & S & P & e' & E' & ->)
                                | (c2 & r2 & cp & -> & S & P & e' & E' & ->)]].
    + apply unreserved_ascii in Un as [_ N]. cbn [decode].
      rewrite (proj2 (Z.eqb_neq c 37) N). by rewrite (IH1 F' e' E').
    + rewrite (decode_utf8 cp e' S), (IH1 F' e' E'), P. reflexivity.
    + inversion_clear F' as [| ? ? U2 F].
      rewrite (decode_utf8 cp e' S), (IH2 c2 r2 eq_refl F e' E'), P. reflexivity.
Qed.

Lemma utf8_bytes cp : 0 <= cp <= 1114111 -> Forall Base64.byte (utf8 cp).
Proof.
  intros R. unfold utf8, Base64.byte.
  settle; repeat constructor; arith.
Qed.

Lemma percent_bytes l :
  Forall Base64.byte l -> Forall Base64.byte (percent l).
Proof.
  unfold Base64.byte. induction 1 as [| b l B _ IH]; cbn [percent]; [constructor |].
  pose proof (hex_char_upper_ascii (b / 16) ltac:(arith)).
  pose proof (hex_char_upper_ascii (b mod 16) ltac:(arith)).
  repeat constructor; try lia. exact IH.
Qed.

(** The result of [encodeURIComponent] is made of octets, fit for [btoa]. *)
Lemma encode_bytes s :
  Forall code_unit s ->
  forall e, encodeURIComponent s = Some e -> Forall Base64.byte e.
Proof.
  induction s as [| c r IH1 IH2] using list_ind2; intros F e E.
  - injection E as <-. constructor.
  - inversion_clear F as [| ? ? U F'].
    destruct (encodeURIComponent_cons c r e U E)
      as [(Un & e' & E' & ->) | [(cp & S & P & e' & E' & ->)
                                | (c2 & r2 & cp & -> & S & P & e' & E' & ->)]].
    + apply unreserved_ascii in Un as [Un _]. constructor; [unfold Base64.byte; lia |].
      by apply IH1.
    + apply Forall_app. split; [| by apply IH1].
      apply percent_bytes, utf8_bytes, S.
    + inversion_clear F' as [| ? ? U2 F]. apply Forall_app. split; [| by eapply IH2].
      apply percent_bytes, utf8_bytes, S.
Qed.

(** [encodeURIComponent] does not throw on a well-formed string. *)
Lemma encode_well_formed s :
  well_formed s = true -> is_Some (encodeURIComponent s).
Proof.
  induction s as [| c r IH1 IH2] using list_ind2; intros W.
  - by eexists.
  - cbn [well_formed encodeURIComponent] in *.
    destruct (unreserved c) eqn:Un.
    + assert (W' : well_formed r = true).
      { apply unreserved_ascii in Un as [Un _].
        replace (is_lead c) with false in W by (symmetry; apply is_lead_false; lia).
        by apply andb_true_iff in W as [_ W]. }
      destruct (IH1 W') as [e' ->]. by eexists.
    + destruct (is_lead c) eqn:L.
      * replace (is_trail c) with false
          by (symmetry; apply is_trail_false; apply is_lead_spec in L; lia).
        destruct r as [| c2 r2]; [discriminate |].
        apply andb_true_iff in W as [T2 W']. rewrite T2.
        destruct (IH2 c2 r2 eq_refl W') as [e' ->]. by eexists.
      * apply andb_true_iff in W as [T W']. apply negb_true_iff in T. rewrite T.
        destruct (IH1 W') as [e' ->]. by eexists.
Qed.

Lemma escaped_nonempty s e : s <> [] -> encodeURIComponent s = Some e -> e <> [].
Proof.
  destruct s as [| c r]; [done |]. intros _. cbn [encodeURIComponent].
  destruct (unreserved c).
  { destruct (encodeURIComponent r); [intros [= <-]; discriminate | discriminate]. }
  destruct (is_trail c); [discriminate |].
  assert (P : forall cp e', percent (utf8 cp) ++ e' <> []).
  { intros cp e'. unfold utf8. by settle. }
  destruct (is_lead c).
  - destruct r as [| c2 r2]; [discriminate |]. destruct (is_trail c2); [| discriminate].
    destruct (encodeURIComponent r2); [intros [= <-]; apply P | discriminate].
  - destruct (encodeURIComponent r); [intros [= <-]; apply P | discriminate].
Qed.
End URIFacts.

(** ** JSON text *)

Module NumFacts.
Import DigitFacts.

Lemma pow10_succ k : 10 ^ Z.of_nat (S k) = 10 * 10 ^ Z.of_nat k.
Proof. rewrite Nat2Z.inj_succ, Z.pow_succ_r by lia. reflexivity. Qed.

Lemma pow10_pos k : 0 < 10 ^ Z.of_nat k.
Proof. apply Z.pow_pos_nonneg; lia. Qed.

(** Reading digits goes through a padded numeral. *)
Lemma read_digits_pad k n rest acc c :
  0 <= n < 10 ^ Z.of_nat k ->
  read_digits (digits_pad k n ++ rest) acc c
  = read_digits rest (acc * 10 ^ Z.of_nat k + n) (c + k)%nat.
Proof.
  revert n rest acc c. induction k as [| k IH]; intros n rest acc c H.
  - cbn in *. f_equal; lia.
  - cbn [digits_pad]. rewrite <- app_assoc. rewrite pow10_succ in *.
    rewrite IH by (Z.div_mod_to_equations; lia).
    cbn [app read_digits].
    replace (is_digit (48 + n mod 10)) with true
      by (symmetry; apply is_digit_spec; Z.div_mod_to_equations; lia).
    f_equal; [Z.div_mod_to_equations; lia | lia].
Qed.

(** The shortest numeral of [n >= 1] has [k + 1] digits, for the [k] with
    [10^k <= n < 10^(k+1)]. *)
Lemma digits_fuel_pad f n :
  1 <= n < 2 ^ Z.of_nat f ->
  exists k, digits_fuel f n = digits_pad (S k) n
            /\ 10 ^ Z.of_nat k <= n < 10 ^ Z.of_nat (S k).
Proof.
  revert n. induction f as [| f IH]; intros n H.
  - cbn in H. lia.
  - cbn [digits_fuel]. destruct (Z.ltb_spec n 10) as [L | L].
    + exists 0%nat. split.
      * cbn [digits_pad app]. do 2 f_equal. Z.div_mod_to_equations. lia.
      * cbn. lia.
    + assert (P : 2 ^ Z.of_nat (S f) = 2 * 2 ^ Z.of_nat f).
      { rewrite Nat2Z.inj_succ, Z.pow_succ_r by lia. reflexivity. }
      destruct (IH (n / 10)) as (k & E & B); [Z.div_mod_to_equations; lia |].
      exists (S k). split.
      * rewrite E. reflexivity.
      * rewrite !pow10_succ in *. Z.div_mod_to_equations. lia.
Qed.

Lemma digits_pad_spec n :
  1 <= n ->
  exists k, digits n = digits_pad (S k) n /\ 10 ^ Z.of_nat k <= n < 10 ^ Z.of_nat (S k).
Proof.
  intros H. unfold digits. apply digits_fuel_pad. split; [exact H |].
  rewrite Nat2Z.inj_succ, Z2Nat.id by apply Z.log2_nonneg.
  apply Z.log2_spec. lia.
Qed.

(** Zeros after a numeral multiply it by ten. *)
Lemma digits_pad_zeros k n e :
  digits_pad (k + e) (n * 10 ^ Z.of_nat e) = digits_pad k n ++ repeat 48 e.
Proof.
  induction e as [| e IH].
  - cbn. by rewrite Nat.add_0_r, Z.mul_1_r, app_nil_r.
  - rewrite Nat.add_succ_r. cbn [digits_pad]. rewrite pow10_succ.
    replace (n * (10 * 10 ^ Z.of_nat e) / 10) with (n * 10 ^ Z.of_nat e)
      by (Z.div_mod_to_equations; lia).
    replace ((n * (10 * 10 ^ Z.of_nat e)) mod 10) with 0
      by (Z.div_mod_to_equations; lia).
    rewrite IH, <- app_assoc. f_equal.
    change [48 + 0] with (repeat 48 1). rewrite <- repeat_app.
    f_equal. lia.
Qed.

Lemma strip_zeros_spec f m e m' e' :
  Num.strip_zeros f m e = (m', e') -> 0 < m -> 0 <= e ->
  0 < m' /\ e <= e' /\ m * 10 ^ e = m' * 10 ^ e'.
Proof.
  revert m e. induction f as [| f IH]; intros m e E M P.
  - injection E as <- <-. lia.
  - cbn [Num.strip_zeros] in E. destruct (Z.eqb_spec (m mod 10) 0) as [D | D].
    + apply IH in E as (M' & L & V); [| Z.div_mod_to_equations; lia | lia].
      split; [exact M' |]. split; [lia |]. rewrite <- V.
      rewrite Z.pow_add_r by lia. Z.div_mod_to_equations. nia.
    + injection E as <- <-. lia.
Qed.

Lemma pow10_lt a b : 10 ^ Z.of_nat a < 10 ^ Z.of_nat b -> (a < b)%nat.
Proof. intros H. apply Z.pow_lt_mono_r_iff in H; lia. Qed.

(** A positive integer below [10^16], which covers the integers that a
    double holds exactly, prints as its decimal numeral. *)
Lemma toString_of_Z z :
  0 < z < 10 ^ 16 ->
  exists k, Num.toString (Num.of_Z z) = digits_pad (S k) z
            /\ 10 ^ Z.of_nat k <= z < 10 ^ Z.of_nat (S k).
Proof.
  intros Z. unfold Num.of_Z, Num.dec.
  replace (z =? 0) with false by (symmetry; apply Z.eqb_neq; lia).
  destruct (Num.strip_zeros _ z 0) as [m e] eqn:E.
  apply strip_zeros_spec in E as (M & P & V); [| lia | lia].
  rewrite Z.pow_0_r, Z.mul_1_r in V.
  destruct (digits_pad_spec m ltac:(lia)) as (k & D & B).
  assert (Ee : e = Z.of_nat (Z.to_nat e)) by lia.
  set (en := Z.to_nat e) in *. clearbody en. subst e.
  assert (B' : 10 ^ Z.of_nat (k + en) <= z < 10 ^ Z.of_nat (S k + en)).
  { rewrite !Nat2Z.inj_add, !Z.pow_add_r by lia. pose proof (pow10_pos en). nia. }
  assert (K : (k + en < 16)%nat).
  { apply pow10_lt. change (10 ^ Z.of_nat 16) with (10 ^ 16). lia. }
  exists (k + en)%nat. split; [| exact B'].
  unfold Num.toString.
  replace (m =? 0) with false by (symmetry; apply Z.eqb_neq; lia).
  replace (m <? 0) with false by (symmetry; apply Z.ltb_ge; lia).
  unfold Num.positive_toString. rewrite D, length_digits_pad.
  replace ((Z.of_nat (S k) <=? Z.of_nat (S k) + Z.of_nat en)
           && (Z.of_nat (S k) + Z.of_nat en <=? 21)) with true
    by (symmetry; rewrite andb_true_iff, !Z.leb_le; lia).
  replace (Z.to_nat (Z.of_nat (S k) + Z.of_nat en - Z.of_nat (S k))) with en by lia.
  rewrite V. symmetry. apply (digits_pad_zeros (S k) m en).
Qed.

Lemma digits_pad_ascii k n : Forall (fun c => 48 <= c <= 57) (digits_pad k n).
Proof.
  revert n. induction k as [| k IH]; intros n; cbn [digits_pad]; [constructor |].
  apply Forall_app. split; [apply IH |]. repeat constructor; Z.div_mod_to_equations; lia.
Qed.

End NumFacts.

Module StringFacts.
Import URIFacts JSON.

Lemma well_formed_app a b :
  well_formed a = true -> well_formed b = true -> well_formed (a ++ b) = true.
Proof.
  induction a as [| c r IH1 IH2] using list_ind2; intros A B; [exact B |].
  cbn [well_formed app] in *. destruct (is_lead c).
  - destruct r as [| c2 r2]; [discriminate |].
    apply andb_true_iff in A as [T A]. cbn [app]. rewrite T. cbn [andb].
    by apply (IH2 c2 r2).
  - apply andb_true_iff in A as [T A]. rewrite T. cbn [andb]. by apply IH1.
Qed.

(** A string without surrogates is well formed. *)
Lemma well_formed_plain s :
  Forall (fun c => ~ (55296 <= c <= 57343)) s -> well_formed s = true.
Proof.
  induction 1 as [| c r C _ IH]; [reflexivity |].
  cbn [well_formed].
  replace (is_lead c) with false by (symmetry; apply is_lead_false; lia).
  replace (is_trail c) with false by (symmetry; apply is_trail_false; lia).
  exact IH.
Qed.

Lemma well_formed_digits k n : well_formed (digits_pad k n) = true.
Proof.
  apply well_formed_plain. eapply Forall_impl; [apply NumFacts.digits_pad_ascii |].
  cbn. intros. lia.
Qed.

Lemma escape_unicode_plain c :
  code_unit c -> Forall (fun x => ~ (55296 <= x <= 57343)) (escape_unicode c).
Proof.
  unfold code_unit, escape_unicode, hex_char_lower. intros U.
  settle; repeat (apply List.Forall_cons; [arith |]); apply List.Forall_nil.
Qed.

Lemma quote_unit_well_formed c :
  code_unit c -> is_lead c = false -> is_trail c = false ->
  well_formed (quote_unit c) = true.
Proof.
  intros U L T. apply well_formed_plain.
  apply is_lead_false in L. apply is_trail_false in T.
  unfold quote_unit. settle; try (repeat constructor; lia).
  by apply escape_unicode_plain.
Qed.

Lemma quote_body_well_formed s :
  Forall code_unit s -> well_formed (quote_body s) = true.
Proof.
  induction s as [| c r IH1 IH2] using list_ind2; intros F; [reflexivity |].
  inversion_clear F as [| ? ? U F'].
  cbn [quote_body]. destruct (is_lead c) eqn:L.
  - destruct r as [| c2 r2].
    + apply well_formed_plain. by apply escape_unicode_plain.
    + destruct (is_trail c2) eqn:T2.
      * cbn [well_formed]. rewrite L, T2. cbn [andb].
        inversion_clear F' as [| ? ? _ F]. by apply (IH2 c2 r2).
      * apply well_formed_app; [| by apply IH1].
        apply well_formed_plain. by apply escape_unicode_plain.
  - destruct (is_trail c) eqn:T.
    + apply well_formed_app; [| by apply IH1].
      apply well_formed_plain. by apply escape_unicode_plain.
    + apply well_formed_app; [| by apply IH1]. by apply quote_unit_well_formed.
Qed.

Lemma quote_well_formed s : Forall code_unit s -> well_formed (quote s) = true.
Proof.
  intros F. unfold quote.
  apply (well_formed_app [34]); [reflexivity |].
  apply well_formed_app; [by apply quote_body_well_formed | reflexivity].
Qed.

Lemma join_well_formed sep l :
  well_formed sep = true -> Forall (fun x => well_formed x = true) l ->
  well_formed (join sep l) = true.
Proof.
  intros S. induction 1 as [| x r X F IH]; [reflexivity |].
  cbn [join]. destruct r as [| y r]; [exact X |].
  apply well_formed_app; [exact X |]. apply well_formed_app; [exact S | exact IH].
Qed.

(** *** Reading a string literal back *)

Lemma parse_chars_literal c tl :
  32 <= c -> c <> 34 -> c <> 92 ->
  parse_chars (c :: tl) = '(body, rest) ← parse_chars tl; Some (c :: body, rest).
Proof. intros. cbn [parse_chars]. settle. reflexivity. Qed.

Lemma parse_chars_escape_unicode c tl :
  code_unit c ->
  parse_chars (escape_unicode c ++ tl)
  = '(body, rest) ← parse_chars tl; Some (c :: body, rest).
Proof.
  unfold code_unit. intros U. unfold escape_unicode. cbn [app parse_chars].
  change (92 =? 34) with false. change (92 =? 92) with true.
  change (117 =? 117) with true. cbv iota.
  rewrite !hex_digit_lower by arith. cbn [mbind option_bind].
  replace (c / 4096 * 4096 + (c / 256) mod 16 * 256 + (c / 16) mod 16 * 16 + c mod 16)
    with c by arith.
  reflexivity.
Qed.

Lemma parse_chars_quote_unit c tl :
  code_unit c ->
  parse_chars (quote_unit c ++ tl)
  = '(body, rest) ← parse_chars tl; Some (c :: body, rest).
Proof.
  intros U. unfold quote_unit.
  destruct (Z.eqb_spec c 8) as [-> | N8]; [reflexivity |].
  destruct (Z.eqb_spec c 9) as [-> | N9]; [reflexivity |].
  destruct (Z.eqb_spec c 10) as [-> | N10]; [reflexivity |].
  destruct (Z.eqb_spec c 12) as [-> | N12]; [reflexivity |].
  destruct (Z.eqb_spec c 13) as [-> | N13]; [reflexivity |].
  destruct (Z.eqb_spec c 34) as [-> | N34]; [reflexivity |].
  destruct (Z.eqb_spec c 92) as [-> | N92]; [reflexivity |].
  destruct (Z.ltb_spec c 32) as [L | L].
  - by apply parse_chars_escape_unicode.
  - by apply parse_chars_literal.
Qed.

(** [parse_chars] reads back a quoted string, up to its closing quote. *)
Lemma parse_chars_quote_body s rest :
  Forall code_unit s -> parse_chars (quote_body s ++ 34 :: rest) = Some (s, rest).
Proof.
  induction s as [| c r IH1 IH2] using list_ind2; intros F; [reflexivity |].
  inversion_clear F as [| ? ? U F'].
  cbn [quote_body]. destruct (is_lead c) eqn:L.
  - pose proof (proj1 (is_lead_spec c) L) as Lc.
    destruct r as [| c2 r2].
    + rewrite parse_chars_escape_unicode by exact U. reflexivity.
    + destruct (is_trail c2) eqn:T2.
      * pose proof (proj1 (is_trail_spec c2) T2) as Tc.
        inversion_clear F' as [| ? ? _ F]. cbn [app].
        rewrite parse_chars_literal by lia. rewrite parse_chars_literal by lia.
        by rewrite (IH2 c2 r2 eq_refl F).
      * rewrite <- app_assoc, parse_chars_escape_unicode by exact U.
        by rewrite (IH1 F').
  - destruct (is_trail c) eqn:T.
    + rewrite <- app_assoc, parse_chars_escape_unicode by exact U. by rewrite (IH1 F').
    + rewrite <- app_assoc, parse_chars_quote_unit by exact U. by rewrite (IH1 F').
Qed.

Lemma parse_chars_quote s rest :
  Forall code_unit s -> exists tl, quote s ++ rest = 34 :: tl /\ parse_chars tl = Some (s, rest).
Proof.
  intros F. exists (quote_body s ++ 34 :: rest). split.
  - unfold quote. cbn [app]. by rewrite <- app_assoc.
  - by apply parse_chars_quote_body.
Qed.

End StringFacts.

Module ParseFacts.
Import URIFacts JSON StringFacts NumFacts.

(** The first digit of the numeral of [n], [10^k <= n < 10^(k+1)], is not a
    zero. *)
Lemma digits_pad_cons k n :
  0 <= n -> digits_pad (S k) n = 48 + (n / 10 ^ Z.of_nat k) mod 10 :: digits_pad k n.
Proof.
  revert n. induction k as [| k IH]; intros n N.
  - cbn. by rewrite Z.div_1_r.
  - change (digits_pad (S (S k)) n) with (digits_pad (S k) (n / 10) ++ [48 + n mod 10]).
    rewrite IH by (Z.div_mod_to_equations; lia). cbn [app digits_pad]. f_equal.
    rewrite pow10_succ, Z.div_div by (pose proof (pow10_pos k); lia). reflexivity.
Qed.

Lemma digits_pad_first k n :
  10 ^ Z.of_nat k <= n < 10 ^ Z.of_nat (S k) ->
  exists c r, digits_pad (S k) n = c :: r /\ 49 <= c <= 57.
Proof.
  intros B. pose proof (pow10_pos k) as P. rewrite pow10_succ in B.
  exists (48 + (n / 10 ^ Z.of_nat k) mod 10), (digits_pad k n).
  split; [apply digits_pad_cons; lia |].
  assert (1 <= n / 10 ^ Z.of_nat k < 10).
  { split; [apply Z.div_le_lower_bound; lia | apply Z.div_lt_upper_bound; lia]. }
  Z.div_mod_to_equations. lia.
Qed.

Lemma stringify_number_of_Z z :
  stringify_number (Num.of_Z z) = Num.toString (Num.of_Z z).
Proof.
  unfold Num.of_Z, Num.dec. destruct (z =? 0); [reflexivity |].
  by destruct (Num.strip_zeros _ z 0).
Qed.

(** A string value. *)
Lemma parse_value_string k s rest :
  Forall code_unit s ->
  parse_value (S k) (quote s ++ rest) = Some (VStr s, rest).
Proof.
  intros F. destruct (parse_chars_quote s rest F) as (tl & -> & P).
  cbn [parse_value skip_ws]. change (is_json_ws 34) with false. cbv iota.
  change (34 =? 123) with false. change (34 =? 91) with false.
  change (34 =? 34) with true. cbv iota. by rewrite P.
Qed.

(** A number value, followed by a comma. *)
Lemma parse_value_number k z rest :
  0 < z < 10 ^ 16 ->
  parse_value (S k) (stringify_number (Num.of_Z z) ++ 44 :: rest)
  = Some (VNum (Num.of_Z z), 44 :: rest).
Proof.
  intros Hz. rewrite stringify_number_of_Z.
  destruct (toString_of_Z z Hz) as (kk & -> & B).
  destruct (digits_pad_first kk z B) as (c & r & E & C).
  assert (R : read_digits (digits_pad (S kk) z ++ 44 :: rest) 0 0
              = (z, S kk, 44 :: rest)).
  { rewrite read_digits_pad by lia. cbn [read_digits]. change (is_digit 44) with false.
    cbv iota. by replace (0 * 10 ^ Z.of_nat (S kk) + z) with z by lia. }
  rewrite E in *. cbn [app] in *.
  assert (D : is_digit c = true) by (apply DigitFacts.is_digit_spec; lia).
  cbn [parse_value skip_ws]. unfold is_json_ws. settle. cbn [orb].
  rewrite D. cbn [orb]. unfold parse_number. settle. rewrite D, R.
  cbn [mbind option_bind]. change (44 =? 46) with false. cbv iota.
  cbn [mbind option_bind]. change ((44 =? 101) || (44 =? 69)) with false. cbv iota.
  cbn [mbind option_bind]. reflexivity.
Qed.

Lemma join_cons (sep x y : jsstring) l :
  join sep (x :: y :: l) = x ++ sep ++ join sep (y :: l).
Proof. reflexivity. Qed.

Lemma parse_elements_unfold k s :
  parse_elements (S k) s
  = '(v, r) ← parse_value k s;
    match skip_ws r with
    | 44 :: r' => '(vs, r'') ← parse_elements k r'; Some (v :: vs, r'')
    | 93 :: r' => Some ([v], r')
    | _ => None
    end.
Proof. reflexivity. Qed.

(** The elements of an array of strings, up to the closing bracket. *)
Lemma parse_elements_strings l k rest :
  l <> [] -> Forall (Forall code_unit) l -> (length l < k)%nat ->
  parse_elements k (join [44] (List.map quote l) ++ 93 :: rest)
  = Some (List.map VStr l, rest).
Proof.
  revert k. induction l as [| x l IH]; intros k N F K; [done |].
  inversion_clear F as [| ? ? X F'].
  destruct k as [| [| k]]; [cbn in K; lia | cbn in K; lia |].
  rewrite parse_elements_unfold. destruct l as [| y l].
  - cbn [List.map join]. rewrite parse_value_string by exact X. reflexivity.
  - change (List.map quote (x :: y :: l)) with (quote x :: quote y :: List.map quote l).
    rewrite join_cons, <- !app_assoc. rewrite parse_value_string by exact X.
    cbn [mbind option_bind app skip_ws]. change (is_json_ws 44) with false. cbv iota.
    change (quote y :: List.map quote l) with (List.map quote (y :: l)).
    rewrite (IH (S k)); [reflexivity | discriminate | exact F' | cbn in *; lia].
Qed.

(** An array of strings. *)
Lemma parse_value_strings l k rest :
  Forall (Forall code_unit) l -> (length l + 1 < k)%nat ->
  parse_value k (stringify (VArr (List.map VStr l)) ++ rest)
  = Some (VArr (List.map VStr l), rest).
Proof.
  intros F K. destruct k as [| k]; [lia |].
  cbn [stringify]. rewrite List.map_map. cbn [stringify].
  change (List.map (fun x => quote x) l) with (List.map quote l).
  destruct l as [| x l].
  - reflexivity.
  - cbn [app parse_value skip_ws]. change (is_json_ws 91) with false. cbv iota.
    change (91 =? 123) with false. change (91 =? 91) with true. cbv iota.
    rewrite <- app_assoc. cbn [app].
    rewrite parse_elements_strings; [| discriminate | exact F | cbn in *; lia].
    assert (H : exists tl, join [44] (List.map quote (x :: l)) ++ 93 :: rest = 34 :: tl).
    { cbn [List.map]. destruct (List.map quote l) as [| q qs]; cbn [join];
        unfold quote at 1; cbn [app]; eexists; reflexivity. }
    destruct H as [tl ->]. reflexivity.
Qed.

Lemma parse_members_unfold k s :
  parse_members (S k) s
  = match skip_ws s with
    | 34 :: r =>
        '(key, r1) ← parse_chars r;
        match skip_ws r1 with
        | 58 :: r2 =>
            '(v, r3) ← parse_value k r2;
            match skip_ws r3 with
            | 44 :: r4 => '(ms, r5) ← parse_members k r4; Some ((key, v) :: ms, r5)
            | 125 :: r4 => Some ([(key, v)], r4)
            | _ => None
            end
        | _ => None
        end
    | _ => None
    end.
Proof. reflexivity. Qed.

(** A member that is followed by a comma and further members. *)
Lemma parse_members_step k key v vtext tl ms rest :
  Forall code_unit key ->
  parse_value k (vtext ++ 44 :: tl) = Some (v, 44 :: tl) ->
  parse_members k tl = Some (ms, rest) ->
  parse_members (S k) (quote key ++ [58] ++ vtext ++ [44] ++ tl)
  = Some ((key, v) :: ms, rest).
Proof.
  intros K V M. rewrite parse_members_unfold.
  destruct (parse_chars_quote key ([58] ++ vtext ++ [44] ++ tl) K) as (q & -> & P).
  cbn [skip_ws]. change (is_json_ws 34) with false. cbv iota. rewrite P.
  cbn [mbind option_bind app skip_ws]. change (is_json_ws 58) with false. cbv iota.
  rewrite V. cbn [mbind option_bind app skip_ws]. change (is_json_ws 44) with false.
  cbv iota. rewrite M. reflexivity.
Qed.

(** The last member, followed by the closing brace. *)
Lemma parse_members_last k key v vtext rest :
  Forall code_unit key ->
  parse_value k (vtext ++ 125 :: rest) = Some (v, 125 :: rest) ->
  parse_members (S k) (quote key ++ [58] ++ vtext ++ 125 :: rest) = Some ([(key, v)], rest).
Proof.
  intros K V. rewrite parse_members_unfold.
  destruct (parse_chars_quote key ([58] ++ vtext ++ 125 :: rest) K) as (q & -> & P).
  cbn [skip_ws]. change (is_json_ws 34) with false. cbv iota. rewrite P.
  cbn [mbind option_bind app skip_ws]. change (is_json_ws 58) with false. cbv iota.
  rewrite V. reflexivity.
Qed.

Lemma literal_code_units (s : string) :
  forallb (fun c => (0 <=? c) && (c <? 65536)) (str s) = true -> Forall code_unit (str s).
Proof.
  intros H. apply List.Forall_forall. intros c Hc.
  rewrite forallb_forall in H. specialize (H c Hc).
  apply andb_true_iff in H. rewrite Z.leb_le, Z.ltb_lt in H. exact H.
Qed.

Lemma build_object_event a b c d e f :
  build_object [(str "id", a); (str "title", b); (str "start", c); (str "duration", d);
                (str "description", e); (str "attendees", f)]
  = VObj [(str "id", a); (str "title", b); (str "start", c); (str "duration", d);
          (str "description", e); (str "attendees", f)].
Proof. reflexivity. Qed.

Lemma stringify_event e :
  stringify (Event.to_value e)
  = [123] ++ (quote (str "id") ++ [58] ++ quote (Event.id e) ++ [44]
              ++ quote (str "title") ++ [58] ++ quote (Event.title e) ++ [44]
              ++ quote (str "start") ++ [58] ++ quote (Event.start e) ++ [44]
              ++ quote (str "duration") ++ [58]
              ++ stringify_number (Event.duration e) ++ [44]
              ++ quote (str "description") ++ [58] ++ quote (Event.description e) ++ [44]
              ++ quote (str "attendees") ++ [58]
              ++ stringify (VArr (List.map VStr (Event.attendees e))) ++ [125]).
Proof.
  unfold Event.to_value.
  change (stringify (VObj ?o))
    with ([123] ++ join [44] (List.map (fun kx => quote kx.1 ++ [58] ++ stringify kx.2) o)
          ++ [125]).
  cbn [List.map fst snd]. rewrite !join_cons. cbn [join].
  change (stringify (VStr ?s)) with (quote s).
  change (stringify (VNum ?n)) with (stringify_number n).
  rewrite <- !app_assoc. reflexivity.
Qed.

(** An object with at least one member. *)
Lemma parse_value_object k key tl ms v rest :
  parse_members k (quote key ++ tl) = Some (ms, rest) ->
  build_object ms = v ->
  parse_value (S k) ([123] ++ quote key ++ tl) = Some (v, rest).
Proof.
  intros M <-. cbn [app parse_value skip_ws]. change (is_json_ws 123) with false.
  cbv iota. change (123 =? 123) with true. cbv iota.
  unfold quote in *. cbn [app skip_ws] in *. change (is_json_ws 34) with false.
  cbv iota. by rewrite M.
Qed.

(** One event of the list. *)
Lemma parse_value_event e k rest :
  Spec.valid_event e -> (length (Event.attendees e) + 8 < k)%nat ->
  parse_value k (stringify (Event.to_value e) ++ rest) = Some (Event.to_value e, rest).
Proof.
  intros (_ & Fi & Ft & Fs & Fd & Fa & z & Hz & D) K.
  assert (X : exists k', k = S (S (S (S (S (S (S k'))))))
                         /\ (length (Event.attendees e) + 1 < k')%nat).
  { exists (k - 7)%nat. lia. }
  destruct X as (k' & -> & K').
  rewrite stringify_event. rewrite <- !app_assoc.
  eapply parse_value_object; [| apply build_object_event].
  apply (parse_members_step _ (str "id")); [apply (literal_code_units "id" eq_refl)
                                           | by apply parse_value_string |].
  apply (parse_members_step _ (str "title")); [apply (literal_code_units "title" eq_refl)
                                              | by apply parse_value_string |].
  apply (parse_members_step _ (str "start")); [apply (literal_code_units "start" eq_refl)
                                              | by apply parse_value_string |].
  apply (parse_members_step _ (str "duration"));
    [apply (literal_code_units "duration" eq_refl)
    | rewrite D; apply parse_value_number;
      change (10 ^ 16) with 10000000000000000; lia |].
  apply (parse_members_step _ (str "description"));
    [apply (literal_code_units "description" eq_refl) | by apply parse_value_string |].
  apply (parse_members_last _ (str "attendees"));
    [apply (literal_code_units "attendees" eq_refl) |].
  apply parse_value_strings; [exact Fa | exact K'].
Qed.

End ParseFacts.

Module TextFacts.
Import URIFacts JSON StringFacts NumFacts ParseFacts.

Lemma encodable_app a b : encodable a -> encodable b -> encodable (a ++ b).
Proof.
  intros [A1 A2] [B1 B2]. split; [by apply Forall_app | by apply well_formed_app].
Qed.

Lemma encodable_ascii s : Forall (fun c => 0 <= c < 128) s -> encodable s.
Proof.
  intros F. split.
  - eapply Forall_impl; [exact F |]. unfold code_unit. cbn. intros. lia.
  - apply well_formed_plain. eapply Forall_impl; [exact F |]. cbn. intros. lia.
Qed.

Lemma encodable_literal (s : string) :
  forallb (fun c => (0 <=? c) && (c <? 128)) (str s) = true -> encodable (str s).
Proof.
  intros H. apply encodable_ascii, List.Forall_forall. intros c Hc.
  rewrite forallb_forall in H. specialize (H c Hc).
  apply andb_true_iff in H. rewrite Z.leb_le, Z.ltb_lt in H. exact H.
Qed.

Lemma escape_unicode_units c : code_unit c -> Forall code_unit (escape_unicode c).
Proof.
  unfold code_unit, escape_unicode, hex_char_lower. intros U.
  settle; repeat (apply List.Forall_cons; [arith |]); apply List.Forall_nil.
Qed.

Lemma quote_body_units s : Forall code_unit s -> Forall code_unit (quote_body s).
Proof.
  induction s as [| c r IH1 IH2] using list_ind2; intros F; [constructor |].
  inversion_clear F as [| ? ? U F'].
  cbn [quote_body]. destruct (is_lead c).
  - destruct r as [| c2 r2]; [by apply escape_unicode_units |].
    destruct (is_trail c2).
    + inversion_clear F' as [| ? ? U2 F].
      apply List.Forall_cons; [exact U |]. apply List.Forall_cons; [exact U2 |].
      by apply (IH2 c2 r2).
    + apply Forall_app. split; [by apply escape_unicode_units | by apply IH1].
  - destruct (is_trail c).
    + apply Forall_app. split; [by apply escape_unicode_units | by apply IH1].
    + apply Forall_app. split; [| by apply IH1].
      unfold quote_unit.
      settle; try (by apply escape_unicode_units);
        repeat (apply List.Forall_cons; [first [exact U | unfold code_unit; lia] |]);
        apply List.Forall_nil.
Qed.

Lemma encodable_quote s : Forall code_unit s -> encodable (quote s).
Proof.
  intros F. split; [| by apply quote_well_formed].
  unfold quote. apply Forall_app.
  split; [apply List.Forall_cons; [unfold code_unit; lia | apply List.Forall_nil] |].
  apply Forall_app. split; [by apply quote_body_units |].
  apply List.Forall_cons; [unfold code_unit; lia | apply List.Forall_nil].
Qed.

Lemma encodable_join sep l : encodable sep -> Forall encodable l -> encodable (join sep l).
Proof.
  intros S. induction 1 as [| x r X F IH]; [by split |].
  cbn [join]. destruct r as [| y r]; [exact X |].
  apply encodable_app; [exact X |]. apply encodable_app; [exact S | exact IH].
Qed.

Lemma encodable_number z : 0 < z < 10 ^ 16 -> encodable (stringify_number (Num.of_Z z)).
Proof.
  intros Hz. rewrite stringify_number_of_Z.
  destruct (toString_of_Z z Hz) as (k & -> & _).
  apply encodable_ascii. eapply Forall_impl; [apply digits_pad_ascii |]. cbn. intros. lia.
Qed.

Lemma encodable_strings l :
  Forall (Forall code_unit) l -> encodable (stringify (VArr (List.map VStr l))).
Proof.
  intros F. cbn [stringify]. rewrite List.map_map. cbn [stringify].
  apply (encodable_app [91]); [by apply (encodable_literal "[") |].
  apply encodable_app; [| by apply (encodable_literal "]")].
  apply encodable_join; [by apply (encodable_literal ",") |].
  apply List.Forall_forall. intros x Hx. apply in_map_iff in Hx as (s & <- & Hs).
  apply encodable_quote. rewrite List.Forall_forall in F. by apply F.
Qed.

Lemma encodable_event e : Spec.valid_event e -> encodable (stringify (Event.to_value e)).
Proof.
  intros (_ & Fi & Ft & Fs & Fd & Fa & z & Hz & D).
  rewrite stringify_event, D.
  pose proof (fun s H => proj1 (encodable_literal s H)) as Lit.
  repeat first
    [ apply (encodable_app [123]); [by apply (encodable_literal "{") |]
    | apply (encodable_app [58]); [by apply (encodable_literal ":") |]
    | apply (encodable_app [44]); [by apply (encodable_literal ",") |]
    | by apply (encodable_literal "}")
    | apply encodable_app;
      [first [ apply encodable_quote; first [assumption | by apply literal_code_units]
             | apply encodable_number; change (10 ^ 16) with 10000000000000000; lia
             | by apply encodable_strings ] |] ].
Qed.

(** The JSON text of an event list. *)
Lemma encodable_events evs :
  Forall Spec.valid_event evs ->
  encodable (stringify (VArr (List.map Event.to_value evs))).
Proof.
  intros F. change (stringify (VArr ?l)) with ([91] ++ join [44] (List.map stringify l) ++ [93]).
  apply (encodable_app [91]); [by apply (encodable_literal "[") |].
  apply encodable_app; [| by apply (encodable_literal "]")].
  apply encodable_join; [by apply (encodable_literal ",") |].
  apply List.Forall_forall. intros x Hx.
  apply in_map_iff in Hx as (v & <- & Hv). apply in_map_iff in Hv as (e & <- & He).
  apply encodable_event. rewrite List.Forall_forall in F. by apply F.
Qed.

(** *** Lengths, for the fuel of the parser *)

Lemma length_join_quote l : (length l <= length (join [44%Z] (List.map quote l)))%nat.
Proof.
  induction l as [| x l IH]; [cbn; lia |].
  cbn [List.map]. destruct l as [| y l].
  - cbn [List.map join]. unfold quote. rewrite !length_app. cbn. lia.
  - change (List.map quote (y :: l)) with (quote y :: List.map quote l) in *.
    rewrite join_cons. unfold quote at 1. rewrite !length_app. cbn [length] in *. lia.
Qed.

Lemma length_event e :
  (length (Event.attendees e) + 9 <= length (stringify (Event.to_value e)))%nat.
Proof.
  rewrite stringify_event. cbn [stringify]. rewrite List.map_map. cbn [stringify].
  change (List.map (fun x => quote x) (Event.attendees e))
    with (List.map quote (Event.attendees e)).
  pose proof (length_join_quote (Event.attendees e)) as H.
  set (j := join [44] (List.map quote (Event.attendees e))) in *. clearbody j.
  rewrite !length_app. cbn [length]. unfold quote. rewrite !length_app. cbn [length]. lia.
Qed.

(** The elements of an array of events, up to the closing bracket. *)
Lemma parse_elements_events evs k rest :
  evs <> [] -> Forall Spec.valid_event evs ->
  (length (join [44%Z] (List.map stringify (List.map Event.to_value evs))) < k)%nat ->
  parse_elements k (join [44] (List.map stringify (List.map Event.to_value evs))
                    ++ 93 :: rest)
  = Some (List.map Event.to_value evs, rest).
Proof.
  revert k. induction evs as [| x l IH]; intros k N F K; [done |].
  inversion_clear F as [| ? ? X F'].
  destruct k as [| k]; [lia |].
  rewrite parse_elements_unfold. pose proof (length_event x) as Lx.
  destruct l as [| y l].
  - cbn [List.map join] in *. rewrite parse_value_event by (exact X || lia). reflexivity.
  - set (r := y :: l) in *.
    assert (J : join [44] (List.map stringify (List.map Event.to_value (x :: r)))
                = stringify (Event.to_value x) ++ [44]
                  ++ join [44] (List.map stringify (List.map Event.to_value r)))
      by reflexivity.
    rewrite J in *. rewrite !length_app in K. cbn [length] in K.
    rewrite <- !app_assoc. rewrite parse_value_event by (exact X || lia).
    cbn [mbind option_bind app skip_ws]. change (is_json_ws 44) with false. cbv iota.
    rewrite (IH k); [reflexivity | discriminate | exact F' | lia].
Qed.

(** [JSON.parse] reads back the text of a list of valid events. *)
Lemma parse_stringify_events evs :
  Forall Spec.valid_event evs ->
  parse (stringify (VArr (List.map Event.to_value evs)))
  = Some (VArr (List.map Event.to_value evs)).
Proof.
  intros F. unfold parse.
  change (stringify (VArr ?l)) with ([91] ++ join [44] (List.map stringify l) ++ [93]).
  set (body := join [44] (List.map stringify (List.map Event.to_value evs))).
  rewrite !length_app. cbn [length app parse_value skip_ws].
  change (is_json_ws 91) with false. cbv iota.
  change (91 =? 123) with false. change (91 =? 91) with true. cbv iota.
  destruct evs as [| x l].
  - reflexivity.
  - assert (H : exists tl, body ++ [93] = 123 :: tl).
    { unfold body. cbn [List.map]. rewrite stringify_event.
      destruct (List.map stringify (List.map Event.to_value l)); cbn [join app];
        eexists; reflexivity. }
    destruct H as [tl H]. rewrite H. cbn [skip_ws]. change (is_json_ws 123) with false.
    cbv iota. rewrite <- H. unfold body.
    rewrite parse_elements_events; [reflexivity | discriminate | exact F |].
    fold body. lia.
Qed.
End TextFacts.

(** ** Share links and loading *)

Module LoadFacts.
Import JSON ListFacts.

Lemma URL_get_set name v q : URL.get name (URL.set name v q) = Some v.
Proof.
  induction q as [| [k w] q IH]; cbn [URL.set URL.get].
  - by rewrite jsstring_eqb_refl.
  - destruct (jsstring_eqb k name) eqn:E; cbn [URL.get]; by rewrite E.
Qed.

Lemma obj_set_same k v o : obj_get k o = Some v -> obj_set k v o = o.
Proof.
  induction o as [| [k' v'] o IH]; cbn [obj_get obj_set]; [discriminate |].
  destruct (jsstring_eqb k' k); [by intros [= ->] |].
  intros H. by rewrite IH.
Qed.

Lemma to_value_inj a b : Event.to_value a = Event.to_value b -> a = b.
Proof.
  destruct a, b. unfold Event.to_value. cbn. intros [= -> -> -> -> -> H].
  f_equal. revert attendees0 H.
  induction attendees as [| x l IH]; intros [| y m]; cbn; try discriminate; [done |].
  intros [= -> H]. f_equal. by apply IH.
Qed.

Section Host.
Variable random_id : nat -> jsstring.

(** An event that has an id keeps it, and is not changed. *)
Lemma assign_ids_events evs n :
  Forall (fun e => Event.id e <> []) evs ->
  assign_ids random_id (List.map Event.to_value evs) n = Some (List.map Event.to_value evs).
Proof.
  intros F. revert n. induction F as [| e evs E _ IH]; intros n; [reflexivity |].
  cbn [List.map assign_ids].
  change (id_of (Event.to_value e)) with (Some (Some (VStr (Event.id e)))).
  cbn [mbind option_bind truthy default].
  rewrite (proj2 (jsstring_eqb_neq _ _) E). cbn [negb]. cbv iota beta.
  rewrite IH. cbn [mbind option_bind]. rewrite obj_set_same; reflexivity.
Qed.

(** The records of a decoded snapshot, after the assignment of ids: one
    that has a truthy id is unchanged, another one gets the next drawn
    id. *)
Lemma assign_ids_records decoded n :
  Forall (fun v => exists o, v = VObj o) decoded ->
  exists l, assign_ids random_id decoded n = Some l
    /\ length l = length decoded
    /\ forall i o, decoded !! i = Some (VObj o) ->
         l !! i
         = Some (if truthy (obj_get (str "id") o) then VObj o
                 else VObj (obj_set (str "id")
                              (VStr (random_id
                                       (n + length (List.filter Spec.lacks_id
                                                      (take i decoded)))))
                              o)).
Proof.
  intros F. revert n. induction F as [| v decoded [o ->] _ IH]; intros n.
  - exists []. repeat split. intros i o. by rewrite lookup_nil.
  - cbn [assign_ids id_of mbind option_bind spread].
    destruct (truthy (obj_get (str "id") o)) eqn:T.
    + destruct (IH n) as (l & -> & L & P). cbn [mbind option_bind].
      eexists. split; [reflexivity |]. split; [cbn; by rewrite L |].
      intros [| i] o'; cbn [lookup list_lookup].
      * intros [= <-]. rewrite T. f_equal. f_equal.
        destruct (obj_get (str "id") o) as [w |] eqn:G; [| discriminate].
        by apply obj_set_same.
      * intros H. etransitivity; [exact (P i o' H) |].
        cbn [take List.filter Spec.lacks_id]. rewrite T. reflexivity.
    + destruct (IH (S n)) as (l & -> & L & P). cbn [mbind option_bind].
      eexists. split; [reflexivity |]. split; [cbn; by rewrite L |].
      intros [| i] o'; cbn [lookup list_lookup].
      * intros [= <-]. rewrite T. cbn. by rewrite Nat.add_0_r.
      * intros H. etransitivity; [exact (P i o' H) |].
        cbn [take List.filter Spec.lacks_id]. rewrite T. cbn [negb length].
        rewrite Nat.add_succ_r. reflexivity.
Qed.
End Host.
End LoadFacts.

Module ShareFacts.
Import JSON LoadFacts.

(** The payload of a list of valid events exists, is not empty, and decodes
    to the list. *)
Lemma share_payload_decodes evs :
  Forall Spec.valid_event evs ->
  exists payload, share_payload evs = Some payload
    /\ payload <> []
    /\ decode_shared payload = Some (VArr (List.map Event.to_value evs)).
Proof.
  intros F. destruct (TextFacts.encodable_events evs F) as [U W].
  destruct (URIFacts.encode_well_formed _ W) as [escaped E].
  pose proof (URIFacts.encode_bytes _ U _ E) as B.
  exists (Base64.encode escaped). unfold share_payload, decode_shared.
  rewrite E. cbn [mbind option_bind]. rewrite (Base64Facts.btoa_ascii _ B).
  split; [reflexivity |]. split.
  - apply Base64Facts.base64_nonempty. eapply URIFacts.escaped_nonempty; [| exact E].
    discriminate.
  - rewrite (Base64Facts.atob_btoa escaped _ (Base64Facts.btoa_ascii _ B)).
    cbn [mbind option_bind].
    rewrite (URIFacts.decode_encode _ U _ E). cbn [mbind option_bind].
    by apply TextFacts.parse_stringify_events.
Qed.
(** A page opened without a shared snapshot reads back the list that the
    persisting effect stored. *)
Lemma load_persisted random_id loc storage evs :
  Forall Spec.valid_event evs ->
  URL.get (str "shared") (URL.searchParams loc) = None ->
  load random_id {| location := loc; localStorage := persist evs storage |}
  = {| loaded_events := JSON.VArr (List.map Event.to_value evs);
       warned := false; storage_read := true |}.
Proof.
  intros F G. unfold load. cbn [location]. rewrite G.
  unfold load_stored, persist. cbn [localStorage]. rewrite lookup_insert_eq.
  pose proof (TextFacts.parse_stringify_events evs F) as P.
  change (JSON.stringify (JSON.VArr ?l))
    with ([91] ++ join [44] (List.map JSON.stringify l) ++ [93]) in *.
  cbn [app] in *. by rewrite P.
Qed.

End ShareFacts.

(** C1.  For a list of valid events, the link of [makeShareLink] carries a
    payload from which the loading effect gets the list back, event for
    event and field for field: no id is drawn, nothing is logged and the
    local storage is not read. *)
Theorem share_link_round_trip
    (random_id : nat -> jsstring) (loc : URL.t) (storage : gmap jsstring jsstring)
    (evs : list Event.t) :
  Forall Spec.valid_event evs ->
  exists link,
    makeShareLink loc evs = Some link
    /\ load random_id {| location := link; localStorage := storage |}
       = {| loaded_events := JSON.VArr (List.map Event.to_value evs);
            warned := false; storage_read := false |}.
Proof.
  intros F. destruct (ShareFacts.share_payload_decodes evs F) as (payload & P & N & D).
  unfold makeShareLink. rewrite P. cbn [mbind option_bind].
  eexists. split; [reflexivity |].
  unfold load. cbn [location URL.searchParams]. rewrite LoadFacts.URL_get_set.
  destruct payload as [| c payload]; [done |]. rewrite D.
  rewrite LoadFacts.assign_ids_events; [reflexivity |].
  eapply Forall_impl; [exact F |]. by intros e [I _].
Qed.

Lemma sample_events_valid : Forall Spec.valid_event [Sample.sync; Sample.lunch].
Proof.
  assert (U : forall s : string,
             forallb (fun c => (0 <=? c) && (c <? 65536)) (str s) = true ->
             Forall code_unit (str s)) by exact ParseFacts.literal_code_units.
  apply List.Forall_cons; [| apply List.Forall_cons; [| apply List.Forall_nil]].
  - split; [discriminate |]. do 4 (split; [by apply U |]). split.
    + apply List.Forall_cons; [by apply U | apply List.Forall_nil].
    + exists 30. split; [lia | reflexivity].
  - split; [discriminate |]. do 2 (split; [by apply U |]).
    split; [by apply U |]. split; [apply List.Forall_nil |]. split; [apply List.Forall_nil |].
    exists 60. split; [lia | reflexivity].
Qed.

(** Witness: a calendar of two events, one with a comma in its description. *)
Lemma share_link_round_trip_witness :
  exists link,
    makeShareLink {| URL.base := str "https://example.com/"; URL.searchParams := [] |}
      [Sample.sync; Sample.lunch] = Some link
    /\ load Sample.ids {| location := link; localStorage := ∅ |}
       = {| loaded_events := JSON.VArr (List.map Event.to_value [Sample.sync; Sample.lunch]);
            warned := false; storage_read := false |}.
Proof.
  exact (share_link_round_trip Sample.ids
           {| URL.base := str "https://example.com/"; URL.searchParams := [] |} ∅
           [Sample.sync; Sample.lunch] sample_events_valid).
Defined.

(** The loading effect, on a host [h]; it is a total function of the host,
    every exception of a built-in being a [None] that it handles.

    - A shared parameter that is present (not empty) and decodes to a
      sequence of records becomes the event list, a record without a truthy
      id getting the next drawn one and the others staying as they are;
      nothing is logged and the local storage is not read.
    - A shared parameter that is present and fails to decode is dropped with
      a warning, and the local storage is loaded.
    - What is loaded from the local storage is the empty list when the entry
      is missing or is not JSON, and the parsed entry otherwise.
    - Without a shared parameter the local storage is loaded, with no
      warning. *)
Theorem load_sources (random_id : nat -> jsstring) (h : Host) :
  let shared := URL.get (str "shared") (URL.searchParams (location h)) in
  let raw := localStorage h !! STORAGE_KEY in
  (forall s decoded,
     shared = Some s -> s <> [] ->
     decode_shared s = Some (JSON.VArr decoded) ->
     Forall (fun v => exists o, v = JSON.VObj o) decoded ->
     exists l,
       load random_id h
       = {| loaded_events := JSON.VArr l; warned := false; storage_read := false |}
       /\ length l = length decoded
       /\ forall i o, decoded !! i = Some (JSON.VObj o) ->
            l !! i
            = Some (if JSON.truthy (JSON.obj_get (str "id") o) then JSON.VObj o
                    else JSON.VObj
                           (JSON.obj_set (str "id")
                              (JSON.VStr
                                 (random_id
                                    (length (List.filter Spec.lacks_id (take i decoded)))))
                              o)))
  /\ (forall s,
        shared = Some s -> s <> [] -> decode_shared s = None ->
        load random_id h = load_stored h true)
  /\ (forall w,
        warned (load_stored h w) = w
        /\ storage_read (load_stored h w) = true
        /\ ((raw = None \/ exists text, raw = Some text /\ JSON.parse text = None) ->
            loaded_events (load_stored h w) = JSON.VArr [])
        /\ (forall text v, raw = Some text -> JSON.parse text = Some v ->
            loaded_events (load_stored h w) = v))
  /\ (shared = None -> load random_id h = load_stored h false).
Proof.
  cbv zeta. split; [| split; [| split]].
  - intros s decoded Sh N D F. unfold load. rewrite Sh.
    destruct s as [| c s]; [done |]. rewrite D.
    destruct (LoadFacts.assign_ids_records random_id decoded 0 F) as (l & -> & L & P).
    by exists l.
  - intros s Sh N D. unfold load. rewrite Sh.
    destruct s as [| c s]; [done |]. by rewrite D.
  - intros w. unfold load_stored.
    destruct (localStorage h !! STORAGE_KEY) as [[| c text] |] eqn:R.
    + cbn [loaded_events warned storage_read]. repeat split; try done.
      intros text v [= <-]. discriminate.
    + destruct (JSON.parse (c :: text)) as [v |] eqn:P;
        cbn [loaded_events warned storage_read]; repeat split; try done.
      * intros [| (text' & [= <-] & P')]; [discriminate | congruence].
      * intros text' v' [= <-] P'. congruence.
      * intros text' v' [= <-] P'. congruence.
    + cbn [loaded_events warned storage_read]. repeat split; try done.
  - intros Sh. unfold load. by rewrite Sh.
Qed.

(** Witness: a snapshot of one record without an id is adopted with a drawn
    id; a parameter that is not base64 is dropped with a warning, and the
    missing storage entry gives the empty list. *)
Lemma load_sources_witness :
  load Sample.ids (Sample.host (Some (Sample.payload_of Sample.untitled)) None)
  = {| loaded_events :=
         JSON.VArr [JSON.VObj [(str "title", JSON.VStr (str "x"));
                               (str "id", JSON.VStr (Sample.ids 0))]];
       warned := false; storage_read := false |}
  /\ load Sample.ids (Sample.host (Some (str "%%%")) None)
     = {| loaded_events := JSON.VArr []; warned := true; storage_read := true |}.
Proof.
  split.
  - destruct (load_sources Sample.ids
                (Sample.host (Some (Sample.payload_of Sample.untitled)) None))
      as (A & _).
    destruct (A (Sample.payload_of Sample.untitled)
                [JSON.VObj [(str "title", JSON.VStr (str "x"))]])
      as (l & E & L & P).
    + reflexivity.
    + vm_compute. discriminate.
    + vm_compute. reflexivity.
    + repeat constructor. by eexists.
    + rewrite E. f_equal. f_equal.
      specialize (P 0%nat _ eq_refl).
      destruct l as [| x [| y l]]; try discriminate.
      cbn [lookup list_lookup] in P. injection P as ->. reflexivity.
  - destruct (load_sources Sample.ids (Sample.host (Some (str "%%%")) None))
      as (_ & B & C & _).
    rewrite (B (str "%%%")); [| reflexivity | discriminate | vm_compute; reflexivity].
    destruct (C true) as (W & R & M & _).
    destruct (load_stored (Sample.host (Some (str "%%%")) None) true) as [ev wa re].
    cbn in W, R, M. rewrite W, R, M; [reflexivity |]. left. reflexivity.
Defined.

(** Two more cases: an empty parameter is taken as no parameter, and a
    sequence with a [null] in it is dropped with a warning, the spread of
    [null] giving an object whose [id] cannot be read. *)
Lemma load_other_cases (random_id : nat -> jsstring) :
  load random_id (Sample.host (Some []) None)
  = {| loaded_events := JSON.VArr []; warned := false; storage_read := true |}
  /\ load random_id (Sample.host (Some (Sample.payload_of (JSON.VArr [JSON.VNull]))) None)
     = {| loaded_events := JSON.VArr []; warned := true; storage_read := true |}.
Proof. repeat split; vm_compute; reflexivity. Qed.

(** C6.  The loading effect checks that a decoded snapshot is a sequence, and
    checks nothing of an entry of the local storage.  An entry that is JSON
    becomes the event list whatever it holds, here the number 5 and [null],
    where C6 has the empty list for corrupt data.  A snapshot that decodes to
    something else than a sequence, here the object [{}], is dropped without
    the warning that C6 has for a malformed parameter. *)
Theorem load_adopts_stored_non_list (random_id : nat -> jsstring) :
  load random_id (Sample.host None (Some (str "5")))
  = {| loaded_events := JSON.VNum (Num.of_Z 5); warned := false; storage_read := true |}
  /\ load random_id (Sample.host None (Some (str "null")))
     = {| loaded_events := JSON.VNull; warned := false; storage_read := true |}
  /\ Sample.payload_of (JSON.VObj []) = str "JTdCJTdE"
  /\ load random_id (Sample.host (Some (str "JTdCJTdE")) None)
     = {| loaded_events := JSON.VArr []; warned := false; storage_read := true |}.
Proof. repeat split; vm_compute; reflexivity. Qed.

(** ** The arithmetic of doubles *)

Module DoubleFacts.
Import Double.

Lemma nearest_exact x d : 0 < d -> nearest (x * d) d = x.
Proof.
  intros D. unfold nearest. rewrite Z.mod_mul, Z.div_mul by lia.
  replace (2 * 0 <? d) with true by (symmetry; apply Z.ltb_lt; lia). reflexivity.
Qed.

Lemma pow2_pos j : 0 <= j -> 0 < 2 ^ j.
Proof. intros J. apply Z.pow_pos_nonneg; lia. Qed.

(** An integer below [2^53], given as a fraction over a power of two, is
    its own rounding. *)
Lemma round_pos_integer a j :
  0 < a < 2 ^ 53 -> 0 <= j ->
  round_pos (a * 2 ^ j) (1 * 2 ^ j) = Finite (a * 2 ^ (52 - Z.log2 a)) (Z.log2 a - 52).
Proof.
  intros A J. rewrite Z.mul_1_l.
  pose proof (pow2_pos j J) as P.
  pose proof (Z.log2_nonneg a) as K0.
  assert (K1 : Z.log2 a < 53) by (apply Z.log2_lt_pow2; lia).
  destruct (Z.log2_spec a ltac:(lia)) as [L _].
  assert (I : ilog2 (a * 2 ^ j) (2 ^ j) = Z.log2 a).
  { unfold ilog2. rewrite Z.log2_mul_pow2, Z.log2_pow2 by lia.
    replace (j + Z.log2 a - j) with (Z.log2 a) by lia.
    unfold scale. replace (0 <=? Z.log2 a) with true by (symmetry; apply Z.leb_le; lia).
    replace (a * 2 ^ j <? 2 ^ j * 2 ^ Z.log2 a) with false; [reflexivity |].
    symmetry. apply Z.ltb_ge. nia. }
  unfold round_pos. rewrite I.
  replace (Z.max (Z.log2 a - 52) (-1074)) with (Z.log2 a - 52) by lia.
  set (ex := Z.log2 a - 52).
  assert (O : forall q, (971 <? ex) || ((ex =? 971) && (2 ^ 53 <=? q)) = false).
  { intros q. apply orb_false_iff. split; [apply Z.ltb_ge; lia |].
    apply andb_false_iff. left. apply Z.eqb_neq. lia. }
  unfold scale. destruct (Z.leb_spec 0 ex) as [E | E]; cbv beta iota zeta; rewrite O.
  - assert (ex = 0) by lia.
    replace (52 - Z.log2 a) with 0 by lia. replace ex with 0 by lia.
    rewrite Z.pow_0_r, !Z.mul_1_r. rewrite nearest_exact by lia. reflexivity.
  - replace (a * 2 ^ j * 2 ^ (- ex)) with (a * 2 ^ (- ex) * 2 ^ j) by lia.
    rewrite nearest_exact by lia. f_equal. f_equal. f_equal. lia.
Qed.

Lemma round_integer z j :
  Z.abs z < 2 ^ 53 -> 0 <= j -> holds (round (z * 2 ^ j) (1 * 2 ^ j)) z.
Proof.
  intros B J. pose proof (pow2_pos j J) as P. unfold round.
  destruct (Z.eqb_spec (z * 2 ^ j) 0) as [E | E].
  - exists 0, 0. split; [reflexivity |]. split; [lia |].
    assert (z = 0) by nia. subst z. reflexivity.
  - assert (Hz : z <> 0) by (intros ->; lia).
    destruct (Z.ltb_spec 0 (z * 2 ^ j)) as [S | S].
    + assert (0 < z) by nia.
      rewrite round_pos_integer by lia.
      pose proof (Z.log2_nonneg z).
      assert (Z.log2 z < 53) by (apply Z.log2_lt_pow2; lia).
      eexists _, _. split; [reflexivity |]. split; [lia |]. f_equal. f_equal. lia.
    + assert (z < 0) by nia.
      replace (- (z * 2 ^ j)) with (- z * 2 ^ j) by lia.
      rewrite round_pos_integer by lia.
      pose proof (Z.log2_nonneg (- z)).
      assert (Z.log2 (- z) < 53) by (apply Z.log2_lt_pow2; lia).
      eexists _, _. split; [reflexivity |]. split; [lia |].
      replace (- (Z.log2 (- z) - 52)) with (52 - Z.log2 (- z)) by lia. lia.
Qed.

Lemma of_Z_holds z : Z.abs z < 2 ^ 53 -> holds (of_Z z) z.
Proof.
  intros B. unfold of_Z.
  pose proof (round_integer z 0 B ltac:(lia)) as H.
  rewrite Z.pow_0_r, !Z.mul_1_r in H. exact H.
Qed.

Lemma round_dyadic_holds m e z :
  e <= 0 -> m = z * 2 ^ (- e) -> Z.abs z < 2 ^ 53 -> holds (round_dyadic m e) z.
Proof.
  intros E -> B. unfold round_dyadic, scale.
  replace (0 <=? - e) with true by (symmetry; apply Z.leb_le; lia).
  apply round_integer; lia.
Qed.

(** The product and the sum of two integers, when they are below [2^53],
    are exact. *)
Lemma mul_holds x y a b :
  holds x a -> holds y b -> Z.abs (a * b) < 2 ^ 53 -> holds (mul x y) (a * b).
Proof.
  intros (m1 & e1 & -> & E1 & ->) (m2 & e2 & -> & E2 & ->) B. cbn [mul].
  apply round_dyadic_holds; [lia | | exact B].
  replace (- (e1 + e2)) with (- e1 + - e2) by lia. rewrite Z.pow_add_r by lia. lia.
Qed.

Lemma add_holds x y a b :
  holds x a -> holds y b -> Z.abs (a + b) < 2 ^ 53 -> holds (add x y) (a + b).
Proof.
  intros (m1 & e1 & -> & E1 & ->) (m2 & e2 & -> & E2 & ->) B. cbn [add]. cbv zeta.
  apply round_dyadic_holds; [lia | | exact B].
  rewrite Z.mul_add_distr_r, <- !Z.mul_assoc, <- !Z.pow_add_r by lia.
  f_equal; f_equal; f_equal; lia.
Qed.

Lemma to_time_holds x z : holds x z -> to_time x = Date.TimeClip z.
Proof.
  intros (m & e & -> & E & ->). unfold to_time, scale, Date.TimeClip.
  replace (0 <=? - e) with true by (symmetry; apply Z.leb_le; lia).
  pose proof (pow2_pos (- e) ltac:(lia)) as P. rewrite Z.mul_1_l.
  rewrite Z.quot_mul by lia.
  replace (Z.abs (z * 2 ^ (- e)) >? Date.maxTime * 2 ^ (- e)) with (Z.abs z >? Date.maxTime);
    [reflexivity |].
  rewrite Z.abs_mul, (Z.abs_eq (2 ^ (- e))) by lia.
  destruct (Z.gtb_spec (Z.abs z) Date.maxTime), (Z.gtb_spec (Z.abs z * 2 ^ (- e))
                                                    (Date.maxTime * 2 ^ (- e))); (reflexivity || nia).
Qed.

(** The normal form of a decimal has its value. *)
Lemma strip_zeros_value f m e m' e' :
  Num.strip_zeros f m e = (m', e') -> 0 <= e -> e <= e' /\ m * 10 ^ e = m' * 10 ^ e'.
Proof.
  revert m e. induction f as [| f IH]; intros m e E P.
  - injection E as <- <-. lia.
  - cbn [Num.strip_zeros] in E. destruct (Z.eqb_spec (m mod 10) 0) as [D | D].
    + apply IH in E as (L & V); [| lia]. split; [lia |]. rewrite <- V.
      rewrite Z.pow_add_r by lia. Z.div_mod_to_equations. nia.
    + injection E as <- <-. lia.
Qed.

Lemma of_number_of_Z z : of_number (Num.of_Z z) = of_Z z.
Proof.
  unfold Num.of_Z, Num.dec, of_Z. destruct (Z.eqb_spec z 0) as [-> | N]; [reflexivity |].
  destruct (Num.strip_zeros _ z 0) as [m e] eqn:E.
  apply strip_zeros_value in E as (P & V); [| lia].
  cbn [of_number]. replace (0 <=? e) with true by (symmetry; apply Z.leb_le; lia).
  rewrite <- V, Z.pow_0_r, Z.mul_1_r. reflexivity.
Qed.

Lemma truthy_of_Z z : Num.truthy (Num.of_Z z) = negb (z =? 0).
Proof.
  unfold Num.of_Z, Num.dec. destruct (Z.eqb_spec z 0) as [-> | N]; [reflexivity |].
  destruct (Num.strip_zeros _ z 0) as [m e] eqn:E.
  apply strip_zeros_value in E as (P & V); [| lia].
  cbn [Num.truthy]. destruct (Z.eqb_spec m 0) as [-> | M]; [| reflexivity].
  rewrite Z.pow_0_r in V. lia.
Qed.

(** The end of an event of [z] minutes that starts at [t]. *)
Lemma end_of_minutes t z :
  Z.abs t <= Date.maxTime -> Z.abs z <= 1000000000 ->
  end_of (Some t) (Num.of_Z z) = Date.TimeClip (t + (if z =? 0 then 60 else z) * 60000).
Proof.
  intros T B. unfold end_of, Num.or_else. rewrite truthy_of_Z.
  set (w := if z =? 0 then 60 else z).
  assert (W : Z.abs w <= 1000000000) by (unfold w; destruct (z =? 0); lia).
  assert (D : of_number (if negb (z =? 0) then Num.of_Z z else Num.of_Z 60) = of_Z w).
  { unfold w. destruct (z =? 0); apply of_number_of_Z. }
  rewrite D. apply to_time_holds.
  unfold Date.maxTime in T.
  change (2 ^ 53) with 9007199254740992 in *.
  replace (w * 60000) with (w * 60 * 1000) by lia.
  apply add_holds.
  - apply of_Z_holds. change (2 ^ 53) with 9007199254740992. lia.
  - apply mul_holds.
    + apply mul_holds; apply of_Z_holds || idtac; change (2 ^ 53) with 9007199254740992; lia.
    + apply of_Z_holds. change (2 ^ 53) with 9007199254740992. lia.
    + change (2 ^ 53) with 9007199254740992. lia.
  - change (2 ^ 53) with 9007199254740992. lia.
Qed.

End DoubleFacts.

(** ** The export of the calendar *)

Module ExportFacts.
Import Date DateFacts DigitFacts IsoFacts NumFacts.

Lemma digits_pad_inj w a b :
  0 <= a < 10 ^ Z.of_nat w -> 0 <= b < 10 ^ Z.of_nat w ->
  digits_pad w a = digits_pad w b -> a = b.
Proof.
  intros A B E.
  pose proof (take_digits_pad w a [] 0 A) as Ta.
  pose proof (take_digits_pad w b [] 0 B) as Tb.
  rewrite E, Tb in Ta. injection Ta. lia.
Qed.

(** A positive integer prints as its numeral, which has [S k] digits when
    it lies between [10^k] and [10^(k+1)]. *)
Lemma ToString_positive z :
  0 < z < 10 ^ 16 ->
  exists k, ToString (Some z) = digits_pad (S k) z
            /\ 10 ^ Z.of_nat k <= z < 10 ^ Z.of_nat (S k).
Proof. apply toString_of_Z. Qed.

(** [String(n).padStart(2, '0')] on a number of one or two digits. *)
Lemma pad2 n : 0 <= n <= 99 -> padStart 2 48 (ToString (Some n)) = digits_pad 2 n.
Proof.
  intros R. destruct (Z.eq_dec n 0) as [-> | N]; [reflexivity |].
  destruct (ToString_positive n) as (k & E & B).
  { change (10 ^ 16) with 10000000000000000. lia. }
  rewrite E. unfold padStart. rewrite length_digits_pad.
  destruct k as [| [| k]].
  - change (10 ^ Z.of_nat 1) with 10 in B. cbn [digits_pad repeat Nat.sub app].
    replace (n / 10) with 0 by (Z.div_mod_to_equations; lia).
    reflexivity.
  - reflexivity.
  - exfalso. rewrite !pow10_succ in B. pose proof (pow10_pos k). lia.
Qed.

(** The text of a date whose UTC year has four digits. *)
Lemma formatICSDatetime_four_digits t :
  1000 <= YearFromTime t <= 9999 ->
  formatICSDatetime (Some t)
  = digits_pad 4 (YearFromTime t)
    ++ (digits_pad 2 (MonthFromTime t + 1) ++ digits_pad 2 (DateFromTime t))
    ++ [84]
    ++ (digits_pad 2 (HourFromTime t) ++ digits_pad 2 (MinFromTime t)
        ++ digits_pad 2 (SecFromTime t))
    ++ [90].
Proof.
  intros Y. unfold formatICSDatetime, getUTCFullYear, getUTCMonth, getUTCDate, getUTCHours,
    getUTCMinutes, getUTCSeconds.
  cbn [mbind option_bind fmap option_fmap option_map].
  pose proof (MonthFromTime_range t). pose proof (DateFromTime_range t).
  destruct (time_fields t) as (? & ? & ? & _).
  rewrite !pad2 by lia.
  replace (1 + MonthFromTime t) with (MonthFromTime t + 1) by lia.
  destruct (ToString_positive (YearFromTime t)) as (k & E & B).
  { change (10 ^ 16) with 10000000000000000. lia. }
  assert (k = 3%nat) as ->.
  { destruct k as [| [| [| [| k]]]]; try reflexivity; exfalso.
    - change (10 ^ Z.of_nat 1) with 10 in B. lia.
    - change (10 ^ Z.of_nat 2) with 100 in B. lia.
    - change (10 ^ Z.of_nat 3) with 1000 in B. lia.
    - rewrite !pow10_succ in B. pose proof (pow10_pos k). lia. }
  rewrite E. rewrite <- !app_assoc. reflexivity.
Qed.

Lemma digits_pad_digits w n : forallb is_digit (digits_pad w n) = true.
Proof.
  apply forallb_forall. intros c Hc.
  pose proof (digits_pad_ascii w n) as F. rewrite List.Forall_forall in F.
  apply is_digit_spec. by apply F.
Qed.

Lemma basic_format_build a b :
  length a = 8%nat -> length b = 6%nat ->
  forallb is_digit a = true -> forallb is_digit b = true ->
  basic_format (a ++ [84] ++ b ++ [90]) = true.
Proof.
  intros La Lb Da Db.
  do 9 (destruct a as [| ? a]; try discriminate).
  do 7 (destruct b as [| ? b]; try discriminate).
  unfold basic_format. cbn [app length take drop lookup list_lookup] in *.
  rewrite Da, Db. reflexivity.
Qed.

(** The text of any date: the year as it prints, and twelve more code
    units. *)
Lemma formatICSDatetime_year t :
  exists tail, length tail = 12%nat
    /\ formatICSDatetime (Some t) = ToString (Some (YearFromTime t)) ++ tail.
Proof.
  unfold formatICSDatetime, getUTCFullYear, getUTCMonth, getUTCDate, getUTCHours,
    getUTCMinutes, getUTCSeconds.
  cbn [mbind option_bind fmap option_fmap option_map].
  pose proof (MonthFromTime_range t). pose proof (DateFromTime_range t).
  destruct (time_fields t) as (? & ? & ? & _).
  rewrite !pad2 by lia. eexists. split; [| reflexivity].
  rewrite !length_app, !length_digits_pad. reflexivity.
Qed.

Lemma ToString_negative z : z < 0 -> exists r, ToString (Some z) = 45 :: r.
Proof.
  intros N. unfold ToString, Num.of_Z, Num.dec.
  replace (z =? 0) with false by (symmetry; apply Z.eqb_neq; lia).
  destruct (Num.strip_zeros _ z 0) as [m e] eqn:E.
  apply DoubleFacts.strip_zeros_value in E as (P & V); [| lia].
  assert (m < 0).
  { rewrite Z.pow_0_r in V. pose proof (Z.pow_pos_nonneg 10 e ltac:(lia) ltac:(lia)). nia. }
  unfold Num.toString.
  replace (m =? 0) with false by (symmetry; apply Z.eqb_neq; lia).
  replace (m <? 0) with true by (symmetry; apply Z.ltb_lt; lia).
  eexists. reflexivity.
Qed.

Lemma starts_with_app p q x :
  (length p <= length q)%nat -> starts_with p (q ++ x) = starts_with p q.
Proof. intros L. unfold starts_with. by rewrite take_app_le. Qed.

Lemma fields_of_seconds t1 t2 :
  t1 / 1000 = t2 / 1000 ->
  YearFromTime t1 = YearFromTime t2 /\ MonthFromTime t1 = MonthFromTime t2
  /\ DateFromTime t1 = DateFromTime t2 /\ HourFromTime t1 = HourFromTime t2
  /\ MinFromTime t1 = MinFromTime t2 /\ SecFromTime t1 = SecFromTime t2.
Proof.
  intros E.
  assert (D : Day t1 = Day t2) by (unfold Day, msPerDay; Z.div_mod_to_equations; lia).
  assert (Y : YearFromTime t1 = YearFromTime t2) by (unfold YearFromTime; by rewrite D).
  assert (L : InLeapYear t1 = InLeapYear t2) by (unfold InLeapYear; by rewrite Y).
  assert (W : DayWithinYear t1 = DayWithinYear t2) by (unfold DayWithinYear; by rewrite D, Y).
  assert (M : MonthFromTime t1 = MonthFromTime t2) by (unfold MonthFromTime; by rewrite W, L).
  repeat split; try assumption.
  - unfold DateFromTime. by rewrite W, M, L.
  - unfold HourFromTime, msPerHour. Z.div_mod_to_equations. lia.
  - unfold MinFromTime, msPerMinute. Z.div_mod_to_equations. lia.
  - unfold SecFromTime, msPerSecond. Z.div_mod_to_equations. lia.
Qed.

Lemma seconds_of_fields t1 t2 :
  YearFromTime t1 = YearFromTime t2 -> MonthFromTime t1 = MonthFromTime t2 ->
  DateFromTime t1 = DateFromTime t2 -> HourFromTime t1 = HourFromTime t2 ->
  MinFromTime t1 = MinFromTime t2 -> SecFromTime t1 = SecFromTime t2 ->
  t1 / 1000 = t2 / 1000.
Proof.
  intros Y M D h m s.
  assert (Dy : Day t1 = Day t2).
  { pose proof (MakeDay_fields t1 (DateFromTime t1)) as F1.
    pose proof (MakeDay_fields t2 (DateFromTime t2)) as F2.
    rewrite Y, M, D in F1. lia. }
  revert Dy h m s.
  unfold Day, HourFromTime, MinFromTime, SecFromTime, msPerDay, msPerHour, msPerMinute,
    msPerSecond.
  Z.div_mod_to_equations. lia.
Qed.

End ExportFacts.

(** *** The export: dates in the basic format *)

(** X1.  [formatICSDatetime] writes a date of the range of Date in the form
    of eight digits, [T], six digits and [Z] exactly when its UTC year has
    four digits: a year below 1000 is written with fewer digits, a negative
    one with a sign, one above 9999 with more digits. *)
Theorem formatICSDatetime_basic_format (t : Z) :
  Z.abs t <= Date.maxTime ->
  basic_format (formatICSDatetime (Some t)) = true <-> 1000 <= Date.YearFromTime t <= 9999.
Proof.
  intros B. split.
  - intros F. destruct (ExportFacts.formatICSDatetime_year t) as (tail & L & E).
    rewrite E in F. clear E.
    pose proof (IsoFacts.YearFromTime_bounds t B) as Y.
    set (y := Date.YearFromTime t) in *. clearbody y.
    destruct (Z.lt_trichotomy y 0) as [N | [-> | P]].
    + destruct (ExportFacts.ToString_negative y N) as (r & E). rewrite E in F.
      unfold basic_format in F. cbn [app take forallb] in F.
      change (is_digit 45) with false in F.
      rewrite andb_false_r in F. discriminate.
    + unfold basic_format in F. change (ToString (Some 0)) with [48] in F.
      rewrite length_app, L in F. discriminate.
    + destruct (ExportFacts.ToString_positive y) as (k & E & R).
      { change (10 ^ 16) with 10000000000000000. lia. }
      rewrite E in F. unfold basic_format in F.
      rewrite length_app, DigitFacts.length_digits_pad, L in F.
      destruct (decide ((S k + 12)%nat = 16%nat)) as [K | K].
      * assert (k = 3%nat) as -> by lia.
        change (10 ^ Z.of_nat 3) with 1000 in R. change (10 ^ Z.of_nat 4) with 10000 in R. lia.
      * rewrite bool_decide_eq_false_2 in F by exact K. discriminate.
  - intros Y. rewrite ExportFacts.formatICSDatetime_four_digits by exact Y.
    rewrite (app_assoc (digits_pad 4 _)).
    apply ExportFacts.basic_format_build.
    + rewrite !length_app, !DigitFacts.length_digits_pad. reflexivity.
    + rewrite !length_app, !DigitFacts.length_digits_pad. reflexivity.
    + rewrite !forallb_app, !ExportFacts.digits_pad_digits. reflexivity.
    + rewrite !forallb_app, !ExportFacts.digits_pad_digits. reflexivity.
Qed.

(** Witness: 15 March 2024, 09:00 UTC. *)
Lemma formatICSDatetime_basic_format_witness :
  basic_format (formatICSDatetime (Some 1710493200000)) = true.
Proof.
  apply (formatICSDatetime_basic_format 1710493200000).
  - vm_compute. discriminate.
  - vm_compute. split; discriminate.
Defined.

(** X2.  Two dates whose UTC years have four digits are written alike by
    [formatICSDatetime] exactly when they lie in the same second. *)
Theorem formatICSDatetime_same_second (t1 t2 : Z) :
  1000 <= Date.YearFromTime t1 <= 9999 -> 1000 <= Date.YearFromTime t2 <= 9999 ->
  formatICSDatetime (Some t1) = formatICSDatetime (Some t2) <-> t1 / 1000 = t2 / 1000.
Proof.
  intros Y1 Y2. rewrite !ExportFacts.formatICSDatetime_four_digits by assumption.
  pose proof (DateFacts.MonthFromTime_range t1). pose proof (DateFacts.MonthFromTime_range t2).
  pose proof (DateFacts.DateFromTime_range t1). pose proof (DateFacts.DateFromTime_range t2).
  destruct (IsoFacts.time_fields t1) as (? & ? & ? & _).
  destruct (IsoFacts.time_fields t2) as (? & ? & ? & _).
  split.
  - intros E.
    apply app_inj_1 in E as [Ey E]; [| by rewrite !DigitFacts.length_digits_pad].
    apply app_inj_1 in E as [Emd E];
      [| by rewrite !length_app, !DigitFacts.length_digits_pad].
    apply app_inj_1 in Emd as [Em Ed]; [| by rewrite !DigitFacts.length_digits_pad].
    apply app_inj_1 in E as [_ E]; [| reflexivity].
    apply app_inj_1 in E as [E _];
      [| by rewrite !length_app, !DigitFacts.length_digits_pad].
    apply app_inj_1 in E as [Eh E]; [| by rewrite !DigitFacts.length_digits_pad].
    apply app_inj_1 in E as [Emi Es]; [| by rewrite !DigitFacts.length_digits_pad].
    apply ExportFacts.digits_pad_inj in Ey; [| change (10 ^ Z.of_nat 4) with 10000; lia ..].
    apply ExportFacts.digits_pad_inj in Em; [| change (10 ^ Z.of_nat 2) with 100; lia ..].
    apply ExportFacts.digits_pad_inj in Ed; [| change (10 ^ Z.of_nat 2) with 100; lia ..].
    apply ExportFacts.digits_pad_inj in Eh; [| change (10 ^ Z.of_nat 2) with 100; lia ..].
    apply ExportFacts.digits_pad_inj in Emi; [| change (10 ^ Z.of_nat 2) with 100; lia ..].
    apply ExportFacts.digits_pad_inj in Es; [| change (10 ^ Z.of_nat 2) with 100; lia ..].
    apply ExportFacts.seconds_of_fields; lia.
  - intros E. apply ExportFacts.fields_of_seconds in E as (-> & -> & -> & -> & -> & ->).
    reflexivity.
Qed.

(** Witness: 09:00:00.000 and 09:00:00.999 on 15 March 2024. *)
Lemma formatICSDatetime_same_second_witness :
  formatICSDatetime (Some 1710493200000) = formatICSDatetime (Some 1710493200999).
Proof.
  apply (formatICSDatetime_same_second 1710493200000 1710493200999).
  - vm_compute. split; discriminate.
  - vm_compute. split; discriminate.
  - reflexivity.
Defined.

(** *** The export: the lines of an event *)

(** X3.  For an event that starts at the instant [t] and lasts a whole number
    [z] of minutes (a billion at most), the fourth and the fifth line of its
    block are DTSTART with [t] and DTEND with [t] plus [z] minutes, 60
    minutes when [z] is 0; a negative duration puts the end before the
    start, and an end beyond the range of Date is the Invalid Date. *)
Theorem vevent_dtstart_dtend (tz now : Z) (ev : Event.t) (t z : Z) :
  Date.parse tz (Event.start ev) = Some t ->
  Event.duration ev = Num.of_Z z -> Z.abs z <= 1000000000 ->
  vevent tz now ev !! 3%nat = Some (str "DTSTART:" ++ formatICSDatetime (Some t))
  /\ vevent tz now ev !! 4%nat
     = Some (str "DTEND:"
             ++ formatICSDatetime
                  (Date.TimeClip (t + (if z =? 0 then 60 else z) * 60000))).
Proof.
  intros P D B. unfold vevent. rewrite P, D. cbv zeta.
  rewrite DoubleFacts.end_of_minutes; [| exact (IsoFacts.parse_in_range tz _ t P) | exact B].
  split; reflexivity.
Qed.

(** Witness: "Sync", 30 minutes from 09:00 UTC on 15 March 2024. *)
Lemma vevent_dtstart_dtend_witness :
  vevent 0 0 Sample.sync !! 4%nat = Some (str "DTEND:20240315T093000Z").
Proof.
  destruct (vevent_dtstart_dtend 0 0 Sample.sync 1710493200000 30) as [_ E].
  - vm_compute. reflexivity.
  - reflexivity.
  - vm_compute. discriminate.
  - etransitivity; [exact E | vm_compute; reflexivity].
Defined.

(** X4.  An event whose start is not a date is exported all the same: its
    DTSTART and its DTEND are the text that [formatICSDatetime] makes of the
    Invalid Date, whatever the duration, and nothing is thrown (where
    [openEditModal] throws on such an event). *)
Theorem vevent_invalid_start (tz now : Z) (ev : Event.t) :
  Date.parse tz (Event.start ev) = None ->
  vevent tz now ev !! 3%nat = Some (str "DTSTART:NaNNaNNaNTNaNNaNNaNZ")
  /\ vevent tz now ev !! 4%nat = Some (str "DTEND:NaNNaNNaNTNaNNaNNaNZ")
  /\ forall st, openEditModal tz ev st = Throw RangeError.
Proof.
  intros P. unfold vevent, openEditModal. rewrite P. cbv zeta.
  split; [reflexivity |]. split; reflexivity.
Qed.

(** Witness: an event whose start is the empty string. *)
Lemma vevent_invalid_start_witness :
  vevent 0 0 {| Event.id := str "x"; Event.title := str "x"; Event.start := [];
                Event.duration := Num.of_Z 60; Event.description := [];
                Event.attendees := [] |} !! 3%nat
  = Some (str "DTSTART:NaNNaNNaNTNaNNaNNaNZ").
Proof.
  apply (vevent_invalid_start 0 0). reflexivity.
Defined.

(** Of the lines that [exportICS] pushes, before it joins them, those that
    begin with UID: are the ones of the events, one for each event and in the
    order of the list. *)
Lemma exportICS_lines_uids (tz : Z) (clock : nat -> Z) (events : list Event.t) :
  List.filter (starts_with (str "UID:")) (exportICS_lines tz clock events)
  = List.map (fun ev => str "UID:" ++ Event.id ev ++ str "@sharedcalendar.local") events.
Proof.
  unfold exportICS_lines. rewrite !List.filter_app.
  replace (List.filter _ [str "BEGIN:VCALENDAR"; _; _]) with (@nil jsstring)
    by (vm_compute; reflexivity).
  replace (List.filter _ [str "END:VCALENDAR"]) with (@nil jsstring)
    by (vm_compute; reflexivity).
  rewrite app_nil_r, app_nil_l. generalize O.
  induction events as [| ev r IH]; intros i; [reflexivity |].
  cbn [vevents List.map]. rewrite List.filter_app, IH. f_equal.
  unfold vevent. cbv zeta. rewrite !List.filter_app. cbn [List.filter].
  rewrite !(ExportFacts.starts_with_app (str "UID:")) by (vm_compute; lia).
  replace (starts_with (str "UID:") (str "BEGIN:VEVENT")) with false by (vm_compute; reflexivity).
  replace (starts_with (str "UID:") (str "UID:")) with true by (vm_compute; reflexivity).
  replace (starts_with (str "UID:") (str "DTSTAMP:")) with false by (vm_compute; reflexivity).
  replace (starts_with (str "UID:") (str "DTSTART:")) with false by (vm_compute; reflexivity).
  replace (starts_with (str "UID:") (str "DTEND:")) with false by (vm_compute; reflexivity).
  replace (starts_with (str "UID:") (str "SUMMARY:")) with false by (vm_compute; reflexivity).
  replace (starts_with (str "UID:") (str "END:VEVENT")) with false by (vm_compute; reflexivity).
  destruct (jsstring_eqb (Event.description ev) []), (Event.attendees ev); cbn [List.filter];
    rewrite ?(ExportFacts.starts_with_app (str "UID:")) by (vm_compute; lia);
    replace (starts_with (str "UID:") (str "DESCRIPTION:")) with false
      by (vm_compute; reflexivity);
    replace (starts_with (str "UID:") (str "ATTENDEE:")) with false
      by (vm_compute; reflexivity);
    reflexivity.
Qed.

(** ** Days and months *)

Module CalendarFacts.
Import Date DateFacts GridFacts.

Lemma MakeDay_first y m :
  0 <= m <= 11 ->
  MakeDay y m 1 = DayFromYear y + monthStart m (if DaysInYear y =? 366 then 1 else 0).
Proof.
  intros Hm. unfold MakeDay. cbv zeta.
  replace (m / 12) with 0 by (Z.div_mod_to_equations; lia).
  replace (m mod 12) with m by (Z.div_mod_to_equations; lia).
  rewrite Z.add_0_r. lia.
Qed.

Lemma MakeDay_first_12 y : MakeDay y 12 1 = DayFromYear (y + 1).
Proof.
  unfold MakeDay. cbv zeta. change (12 / 12) with 1. change (12 mod 12) with 0.
  change (monthStart 0 _) with 0. lia.
Qed.

Lemma MakeDay_date y m dt : MakeDay y m dt = MakeDay y m 1 + (dt - 1).
Proof. unfold MakeDay. cbv zeta. lia. Qed.

Lemma MakeDay_succ_month y m : MakeDay y (m + 1) 1 = MakeDay (y + m / 12) (m mod 12 + 1) 1.
Proof.
  rewrite (MakeDay_normal y (m + 1)), (MakeDay_normal (y + m / 12) (m mod 12 + 1)).
  f_equal; Z.div_mod_to_equations; lia.
Qed.

(** The [k]-th day after the first of month [m] of year [y], when the month
    is that long, has the year [y], the month [m] and the date [k + 1]. *)
Lemma fields_in_month y m k t :
  0 <= m <= 11 -> 0 <= k -> MakeDay y m 1 + k < MakeDay y (m + 1) 1 ->
  Day t = MakeDay y m 1 + k ->
  YearFromTime t = y /\ MonthFromTime t = m /\ DateFromTime t = k + 1.
Proof.
  intros Hm Hk Hn E.
  rewrite MakeDay_first in E, Hn by lia.
  set (leap := if DaysInYear y =? 366 then 1 else 0) in *.
  assert (L : 0 <= leap <= 1 /\ DaysInYear y = 365 + leap).
  { subst leap. pose proof (DaysInYear_cases y).
    destruct (Z.eqb_spec (DaysInYear y) 366); lia. }
  assert (N : monthStart m leap + k < 365 + leap
              /\ monthOfDay (monthStart m leap + k) leap = m).
  { assert (C : m = 0 \/ m = 1 \/ m = 2 \/ m = 3 \/ m = 4 \/ m = 5 \/ m = 6 \/ m = 7
                \/ m = 8 \/ m = 9 \/ m = 10 \/ m = 11) by lia.
    clear E. revert Hn.
    repeat (destruct C as [-> | C]); try subst m.
    all: try (rewrite MakeDay_first by lia; fold leap).
    all: try (change (11 + 1) with 12; rewrite MakeDay_first_12, DayFromYear_succ).
    all: try match goal with
             | |- context [monthStart (?a + 1) _] =>
                 let v := eval vm_compute in (a + 1) in change (a + 1) with v
             end.
    all: unfold monthOfDay; cbn [monthStart Z.eqb Pos.eqb];
      intros Hn; split; [lia |]; month_cases; lia. }
  destruct N as [N1 N2].
  pose proof (monthStart_range m leap ltac:(lia)).
  assert (Y : YearFromTime t = y).
  { apply YearFromTime_unique. rewrite DayFromYear_succ. lia. }
  assert (IL : InLeapYear t = leap) by (unfold InLeapYear; rewrite Y; reflexivity).
  assert (W : DayWithinYear t = monthStart m leap + k) by (unfold DayWithinYear; rewrite Y; lia).
  assert (M : MonthFromTime t = m) by (unfold MonthFromTime; rewrite W, IL; exact N2).
  split; [exact Y | split; [exact M |]].
  unfold DateFromTime. rewrite M, W, IL. lia.
Qed.

(** The same for a month that is not in 0..11. *)
Lemma fields_in_month_any y m k t :
  0 <= k -> MakeDay y m 1 + k < MakeDay y (m + 1) 1 -> Day t = MakeDay y m 1 + k ->
  YearFromTime t = y + m / 12 /\ MonthFromTime t = m mod 12 /\ DateFromTime t = k + 1.
Proof.
  intros Hk Hn E. rewrite MakeDay_succ_month in Hn. rewrite MakeDay_normal in E, Hn.
  assert (R : 0 <= m mod 12 <= 11) by (Z.div_mod_to_equations; lia).
  exact (fields_in_month _ _ _ _ R Hk Hn E).
Qed.

Lemma monthOfDay_end d leap :
  monthOfDay d leap <> 11 -> d < monthStart (monthOfDay d leap + 1) leap.
Proof.
  unfold monthOfDay. month_cases; intros N; try lia;
    match goal with
    | |- context [monthStart (?a + 1) _] =>
        let v := eval vm_compute in (a + 1) in change (a + 1) with v
    end; cbn [monthStart Z.eqb Pos.eqb]; lia.
Qed.

(** The day of [t] lies in its month: between the first day of the month and
    the first day of the next. *)
Lemma day_in_month t :
  MakeDay (YearFromTime t) (MonthFromTime t) 1 = Day t - DateFromTime t + 1
  /\ Day t < MakeDay (YearFromTime t) (MonthFromTime t + 1) 1.
Proof.
  split; [rewrite MakeDay_fields; lia |].
  pose proof (MonthFromTime_range t) as R.
  pose proof (YearFromTime_spec t) as S.
  destruct (Z.eq_dec (MonthFromTime t) 11) as [E | E].
  - rewrite E. change (11 + 1) with 12. rewrite MakeDay_first_12. lia.
  - rewrite MakeDay_first by lia. fold (InLeapYear t).
    pose proof (monthOfDay_end (DayWithinYear t) (InLeapYear t) E) as N.
    fold (MonthFromTime t) in N. unfold DayWithinYear in N. lia.
Qed.

End CalendarFacts.

(** ** The month shown *)

Module ViewFacts.
Import Date DateFacts GridFacts CalendarFacts.

Section Host.
Variable tz : Z.

Lemma plain_year_false t :
  Spec.plain_year tz t ->
  (0 <=? YearFromTime (LocalTime tz t)) && (YearFromTime (LocalTime tz t) <=? 99) = false.
Proof.
  unfold Spec.plain_year. intros P. apply andb_false_iff.
  destruct (Z.leb_spec 0 (YearFromTime (LocalTime tz t)));
    destruct (Z.leb_spec (YearFromTime (LocalTime tz t)) 99); auto; lia.
Qed.

(** The value of [endOfMonth]: the local midnight of the day before the
    first day of the next month. *)
Lemma endOfMonth_value t :
  Spec.inner t -> Spec.plain_year tz t ->
  let lt := LocalTime tz t in
  endOfMonth tz (Some t)
  = Some ((MakeDay (YearFromTime lt) (MonthFromTime lt + 1) 1 - 1) * msPerDay - tz).
Proof.
  intros I P lt. unfold endOfMonth, new_ymd_opt, getFullYear, getMonth.
  cbn [mbind option_bind fmap option_fmap option_map]. unfold new_ymd.
  rewrite (plain_year_false t P). fold lt.
  replace (1 + MonthFromTime lt) with (MonthFromTime lt + 1) by lia.
  rewrite (MakeDay_date _ _ 0). replace (MakeTime 0 0 0 0) with 0 by reflexivity.
  destruct (day_in_month lt) as [F N].
  pose proof (MakeDay_next_month (YearFromTime lt) (MonthFromTime lt)) as R.
  pose proof (DateFromTime_range lt) as Dt.
  pose proof (TimeClip_near tz t
                (MakeDay (YearFromTime lt) (MonthFromTime lt + 1) 1 - 1 - Day lt) I) as C.
  fold lt in C.
  replace (Day lt + (MakeDay (YearFromTime lt) (MonthFromTime lt + 1) 1 - 1 - Day lt))
    with (MakeDay (YearFromTime lt) (MonthFromTime lt + 1) 1 - 1) in C by lia.
  replace (MakeDay (YearFromTime lt) (MonthFromTime lt + 1) 1 + (0 - 1))
    with (MakeDay (YearFromTime lt) (MonthFromTime lt + 1) 1 - 1) by lia.
  apply C. lia.
Qed.

(** The month of a day that is at most six days before the first day of
    the month of [lt] and at most 41 days after it. *)
Lemma near_month lt u :
  let Y := YearFromTime lt in
  let M := MonthFromTime lt in
  let F := MakeDay Y M 1 in
  let N := MakeDay Y (M + 1) 1 in
  F - 6 <= Day u <= F + 41 ->
  (MonthFromTime u = M <-> F <= Day u < N)
  /\ (F <= Day u < N -> DateFromTime u = Day u - F + 1).
Proof.
  intros Y M F N R.
  pose proof (MonthFromTime_range lt) as Mr. fold M in Mr.
  pose proof (MakeDay_next_month Y M) as L1. fold F N in L1.
  pose proof (MakeDay_next_month Y (M - 1)) as L0.
  replace (M - 1 + 1) with M in L0 by lia. fold F in L0.
  pose proof (MakeDay_next_month Y (M + 1)) as L2. fold N in L2.
  destruct (Z.lt_ge_cases (Day u) F) as [Lo | Lo];
    [| destruct (Z.lt_ge_cases (Day u) N) as [Hi | Hi]].
  - destruct (fields_in_month_any Y (M - 1) (Day u - MakeDay Y (M - 1) 1) u)
      as (_ & E & _); [lia | replace (M - 1 + 1) with M by lia; fold F; lia | lia |].
    split; [| lia]. rewrite E. split; [| lia]. Z.div_mod_to_equations. lia.
  - destruct (fields_in_month Y M (Day u - F) u) as (_ & E & D);
      [lia | lia | fold F N; lia | fold F; lia |].
    split; [| intros _; rewrite D; lia]. rewrite E. split; [lia | reflexivity].
  - destruct (fields_in_month_any Y (M + 1) (Day u - N) u)
      as (_ & E & _); [lia | fold N; lia | fold N; lia |].
    split; [| lia]. rewrite E. split; [| lia]. Z.div_mod_to_equations. lia.
Qed.

(** The cells of the grid, one by one. *)
Lemma buildMonthGrid_lookup t i d :
  Spec.inner t -> Spec.plain_year tz t ->
  buildMonthGrid tz (Some t) !! i = Some d ->
  let F := Day (LocalTime tz t) + (1 - DateFromTime (LocalTime tz t)) in
  (i < 42)%nat /\ d = Some ((F - (F + 4) mod 7 + Z.of_nat i) * msPerDay - tz).
Proof.
  intros I P L F. rewrite (buildMonthGrid_value tz t I P) in L. cbv zeta in L.
  rewrite list_lookup_fmap in L.
  destruct (seqZ 0 42 !! i) as [k |] eqn:K; [| discriminate].
  apply lookup_seqZ in K as [-> K]. cbn in L. injection L as <-.
  split; [lia |]. unfold F. do 3 f_equal.
Qed.

End Host.
End ViewFacts.

(** *** The months of the view *)

(** X6.  For a reference date a hundred days inside the range of Date whose
    local year is not one of 0..99, [endOfMonth] is the local midnight of the
    last day of the month of the reference date: it has the year and the
    month of the date, its day of the month is the number of days of that
    month, and the day after it is the first of a month. *)
Theorem endOfMonth_last_day (tz t : Z) :
  Spec.inner t -> Spec.plain_year tz t ->
  exists e,
    endOfMonth tz (Some t) = Some e
    /\ Date.YearFromTime (Date.LocalTime tz e) = Date.YearFromTime (Date.LocalTime tz t)
    /\ Date.MonthFromTime (Date.LocalTime tz e) = Date.MonthFromTime (Date.LocalTime tz t)
    /\ Date.DateFromTime (Date.LocalTime tz e)
       = Spec.DaysInMonth (Date.YearFromTime (Date.LocalTime tz t))
           (Date.MonthFromTime (Date.LocalTime tz t))
    /\ Date.TimeWithinDay (Date.LocalTime tz e) = 0
    /\ Date.DateFromTime (Date.LocalTime tz (e + Date.msPerDay)) = 1.
Proof.
  intros I P. rewrite (ViewFacts.endOfMonth_value tz t I P). cbv zeta.
  set (lt := Date.LocalTime tz t).
  set (Y := Date.YearFromTime lt). set (M := Date.MonthFromTime lt).
  set (N := Date.MakeDay Y (M + 1) 1).
  eexists. split; [reflexivity |].
  destruct (GridFacts.LocalTime_midnight tz (N - 1)) as [D0 T0].
  destruct (CalendarFacts.day_in_month lt) as [F L]. fold Y M N in F, L.
  pose proof (DateFacts.MakeDay_next_month Y M) as R. fold N in R.
  pose proof (DateFacts.MonthFromTime_range lt) as Mr. fold M in Mr.
  pose proof (DateFacts.DateFromTime_range lt) as Dr.
  destruct (CalendarFacts.fields_in_month Y M (N - 1 - Date.MakeDay Y M 1)
              (Date.LocalTime tz ((N - 1) * Date.msPerDay - tz)))
    as (EY & EM & ED); [lia | lia | fold N; lia | rewrite D0; lia |].
  rewrite EY, EM, ED, T0. unfold Spec.DaysInMonth. fold N.
  repeat split; try lia.
  assert (D1 : Date.Day (Date.LocalTime tz ((N - 1) * Date.msPerDay - tz + Date.msPerDay)) = N).
  { replace ((N - 1) * Date.msPerDay - tz + Date.msPerDay) with (N * Date.msPerDay - tz) by lia.
    apply (GridFacts.LocalTime_midnight tz N). }
  destruct (DateFacts.fields_MakeDay_any Y (M + 1) 1
              (Date.LocalTime tz ((N - 1) * Date.msPerDay - tz + Date.msPerDay)))
    as (_ & _ & E1); [lia | rewrite D1; reflexivity | exact E1].
Qed.

(** Witness: 15 March 2024 on a host one hour ahead of UTC; the month ends
    on 31 March, local midnight. *)
Lemma endOfMonth_last_day_witness :
  exists e, endOfMonth 3600000 (Some 1710460800000) = Some e
            /\ Date.DateFromTime (Date.LocalTime 3600000 e) = 31.
Proof.
  destruct (endOfMonth_last_day 3600000 1710460800000) as (e & E & _ & _ & D & _).
  - vm_compute. discriminate.
  - vm_compute. intros [_ H]. apply H. reflexivity.
  - exists e. split; [exact E |]. rewrite D. vm_compute. reflexivity.
Defined.

(** X7.  For a reference date as above, the days of the month shown are
    cells of the grid, each once and in order: with [w] the weekday of the
    first day of the month, the cell of index [i] is marked as lying in the
    month exactly when [w <= i < w + n], [n] being the number of days of the
    month, and it is then the day [i - w + 1] of the month; the 42 cells
    are enough for every month. *)
Theorem buildMonthGrid_covers_month (tz t : Z) (st : State) :
  Spec.inner t -> Spec.plain_year tz t -> viewDate st = Some t ->
  let n := Spec.DaysInMonth (Date.YearFromTime (Date.LocalTime tz t))
             (Date.MonthFromTime (Date.LocalTime tz t)) in
  exists w,
    Date.getDay tz (startOfMonth tz (Some t)) = Some w
    /\ 0 <= w <= 6 /\ w + n <= 42
    /\ forall (i : nat) d,
         buildMonthGrid tz (Some t) !! i = Some d ->
         (inMonth (cell tz st d) = true <-> w <= Z.of_nat i < w + n)
         /\ (w <= Z.of_nat i < w + n -> Date.getDate tz d = Some (Z.of_nat i - w + 1)).
Proof.
  intros I P V n.
  set (lt := Date.LocalTime tz t) in *.
  set (Y := Date.YearFromTime lt) in *. set (M := Date.MonthFromTime lt) in *.
  set (F := Date.Day lt + (1 - Date.DateFromTime lt)).
  destruct (CalendarFacts.day_in_month lt) as [HF HN]. fold Y M in HF, HN.
  assert (EF : Date.MakeDay Y M 1 = F) by (unfold F; lia).
  pose proof (DateFacts.MakeDay_next_month Y M) as L1.
  assert (En : n = Date.MakeDay Y (M + 1) 1 - F) by (unfold n, Spec.DaysInMonth; lia).
  exists ((F + 4) mod 7).
  split.
  { rewrite (GridFacts.startOfMonth_value tz t I P). fold lt F.
    cbn [Date.getDay mbind option_bind]. unfold Date.WeekDay.
    destruct (GridFacts.LocalTime_midnight tz F) as [-> _]. reflexivity. }
  split; [Z.div_mod_to_equations; lia |].
  split; [Z.div_mod_to_equations; lia |].
  intros i d L.
  destruct (ViewFacts.buildMonthGrid_lookup tz t i d I P L) as [Hi ->]. fold lt F.
  set (w := (F + 4) mod 7). assert (W : 0 <= w <= 6) by (unfold w; Z.div_mod_to_equations; lia).
  set (c := (F - w + Z.of_nat i) * Date.msPerDay - tz).
  destruct (GridFacts.LocalTime_midnight tz (F - w + Z.of_nat i)) as [Dc _]. fold c in Dc.
  destruct (ViewFacts.near_month lt (Date.LocalTime tz c)) as [Hm Hd].
  { fold Y M. rewrite EF, Dc. lia. }
  fold Y M in Hm, Hd. rewrite EF, Dc in Hm, Hd.
  unfold cell. cbn [inMonth]. rewrite V.
  cbn [Date.getMonth Date.getDate mbind option_bind strict_equal]. fold lt M.
  split.
  - rewrite Z.eqb_eq, Hm. lia.
  - intros R. rewrite Hd by lia. f_equal. lia.
Qed.

(** Witness: March 2024 begins on a Friday (cell 5); the cell of index 19 is
    15 March. *)
Lemma buildMonthGrid_covers_month_witness :
  exists d, buildMonthGrid 3600000 (Some 1710460800000) !! 19%nat = Some d
            /\ inMonth (cell 3600000 Sample.march_2024 d) = true
            /\ Date.getDate 3600000 d = Some 15.
Proof.
  destruct (buildMonthGrid_covers_month 3600000 1710460800000 Sample.march_2024)
    as (w & W & _ & _ & H).
  - vm_compute. discriminate.
  - vm_compute. intros [_ H]. apply H. reflexivity.
  - reflexivity.
  - assert (w = 5) as ->.
    { vm_compute in W. injection W as <-. reflexivity. }
    destruct (buildMonthGrid 3600000 (Some 1710460800000) !! 19%nat) as [d |] eqn:L;
      [| vm_compute in L; discriminate].
    exists d. destruct (H 19%nat d L) as [A B].
    assert (R : 5 <= Z.of_nat 19
                < 5 + Spec.DaysInMonth
                        (Date.YearFromTime (Date.LocalTime 3600000 1710460800000))
                        (Date.MonthFromTime (Date.LocalTime 3600000 1710460800000))).
    { vm_compute. split; [discriminate | reflexivity]. }
    split; [reflexivity |]. split; [by apply A | by apply B].
Defined.

(** ** Date strings *)

Module DateStringFacts.
Import Date DateFacts DigitFacts NumFacts.

Lemma digits_pad_zero j : digits_pad j 0 = repeat 48 j.
Proof.
  induction j as [| j IH]; [reflexivity |].
  cbn [digits_pad]. change (0 / 10) with 0. change (48 + 0 mod 10) with 48.
  rewrite IH. symmetry. apply repeat_cons.
Qed.

(** Zeros in front of a padded numeral pad it further. *)
Lemma leading_zeros j w n :
  0 <= n < 10 ^ Z.of_nat w -> repeat 48 j ++ digits_pad w n = digits_pad (j + w) n.
Proof.
  revert n. induction w as [| w IH]; intros n H.
  - change (10 ^ Z.of_nat 0) with 1 in H. assert (n = 0) as -> by lia.
    rewrite Nat.add_0_r. cbn [digits_pad]. rewrite app_nil_r. symmetry. apply digits_pad_zero.
  - rewrite Nat.add_succ_r. cbn [digits_pad]. rewrite app_assoc. f_equal.
    apply IH. rewrite pow10_succ in H. Z.div_mod_to_equations. lia.
Qed.

(** ToZeroPaddedDecimalString is a padded numeral of [m] digits or more. *)
Lemma padded n m :
  0 <= n -> (1 <= m)%nat ->
  exists w, ToZeroPaddedDecimalString n m = digits_pad w n
            /\ n < 10 ^ Z.of_nat w /\ (m <= w)%nat
            /\ (n < 10 ^ Z.of_nat m -> w = m).
Proof.
  intros N M. unfold ToZeroPaddedDecimalString, padStart.
  destruct (Z.eq_dec n 0) as [-> | P].
  - exists m. change (digits 0) with (digits_pad 1 0).
    rewrite leading_zeros by (cbn; lia).
    replace (m - length (digits_pad 1 0) + 1)%nat with m by (cbn; lia).
    split; [reflexivity |]. pose proof (pow10_pos m). repeat split; lia.
  - destruct (digits_pad_spec n ltac:(lia)) as (k & E & B).
    rewrite E, length_digits_pad. rewrite leading_zeros by lia.
    exists (m - S k + S k)%nat. split; [reflexivity |].
    destruct (le_lt_dec m (S k)) as [L | L].
    + replace (m - S k + S k)%nat with (S k) by lia.
      split; [lia |]. split; [lia |]. intros H.
      assert (k < m)%nat by (apply pow10_lt; lia). lia.
    + replace (m - S k + S k)%nat with m by lia.
      split; [| split; [lia | reflexivity]].
      assert (10 ^ Z.of_nat (S k) <= 10 ^ Z.of_nat m) by (apply Z.pow_le_mono_r; lia).
      lia.
Qed.

Lemma ToZeroPaddedDecimalString_inj a b m :
  0 <= a -> 0 <= b -> (1 <= m)%nat ->
  ToZeroPaddedDecimalString a m = ToZeroPaddedDecimalString b m -> a = b.
Proof.
  intros A B M E.
  destruct (padded a m A M) as (wa & Ea & La & _ & _).
  destruct (padded b m B M) as (wb & Eb & Lb & _ & _).
  rewrite Ea, Eb in E.
  assert (wa = wb).
  { apply (f_equal (@length Z)) in E. by rewrite !length_digits_pad in E. }
  subst wb. apply (ExportFacts.digits_pad_inj wa); [lia | lia | exact E].
Qed.

Lemma padded_head n m :
  0 <= n -> (1 <= m)%nat ->
  exists c r, ToZeroPaddedDecimalString n m = c :: r /\ 48 <= c <= 57.
Proof.
  intros N M. destruct (padded n m N M) as (w & E & _ & L & _).
  destruct w as [| w]; [lia |]. rewrite E. apply digits_pad_head.
Qed.

Lemma year_string_inj a b : year_string a = year_string b -> a = b.
Proof.
  unfold year_string.
  destruct (Z.leb_spec 0 a) as [A | A], (Z.leb_spec 0 b) as [B | B]; cbn [app]; intros E.
  - apply ToZeroPaddedDecimalString_inj in E; lia.
  - destruct (padded_head (Z.abs a) 4) as (c & r & H & R); [lia | lia |].
    rewrite H in E. injection E as -> _. lia.
  - destruct (padded_head (Z.abs b) 4) as (c & r & H & R); [lia | lia |].
    rewrite H in E. injection E as <- _. lia.
  - injection E as E. apply ToZeroPaddedDecimalString_inj in E; lia.
Qed.

Lemma length_weekday_name w : length (weekday_name w) = 3%nat.
Proof. unfold weekday_name. repeat case_match; reflexivity. Qed.

Lemma length_month_name m : length (month_name m) = 3%nat.
Proof. unfold month_name. repeat case_match; reflexivity. Qed.

Lemma month_name_inj a b :
  0 <= a <= 11 -> 0 <= b <= 11 -> month_name a = month_name b -> a = b.
Proof.
  intros A B.
  assert (Ca : a = 0 \/ a = 1 \/ a = 2 \/ a = 3 \/ a = 4 \/ a = 5 \/ a = 6 \/ a = 7
               \/ a = 8 \/ a = 9 \/ a = 10 \/ a = 11) by lia.
  assert (Cb : b = 0 \/ b = 1 \/ b = 2 \/ b = 3 \/ b = 4 \/ b = 5 \/ b = 6 \/ b = 7
               \/ b = 8 \/ b = 9 \/ b = 10 \/ b = 11) by lia.
  repeat (destruct Ca as [-> | Ca]); try subst a;
    repeat (destruct Cb as [-> | Cb]); try subst b;
    intros E; try reflexivity; vm_compute in E; discriminate.
Qed.

Section Host.
Variable tz : Z.

(** Two dates have the same date string exactly when they lie on the same
    local day. *)
Lemma toDateString_same_day a b :
  toDateString tz (Some a) = toDateString tz (Some b)
  <-> Day (LocalTime tz a) = Day (LocalTime tz b).
Proof.
  unfold toDateString. cbv zeta.
  set (la := LocalTime tz a). set (lb := LocalTime tz b).
  pose proof (MonthFromTime_range la). pose proof (MonthFromTime_range lb).
  pose proof (DateFromTime_range la). pose proof (DateFromTime_range lb).
  split.
  - intros E.
    apply app_inj_1 in E as [_ E]; [| by rewrite !length_weekday_name].
    apply app_inj_1 in E as [_ E]; [| reflexivity].
    apply app_inj_1 in E as [Em E]; [| by rewrite !length_month_name].
    apply app_inj_1 in E as [_ E]; [| reflexivity].
    destruct (padded (DateFromTime la) 2) as (wa & Ea & _ & _ & Wa); [lia | lia |].
    destruct (padded (DateFromTime lb) 2) as (wb & Eb & _ & _ & Wb); [lia | lia |].
    rewrite Wa in Ea by (change (10 ^ Z.of_nat 2) with 100; lia).
    rewrite Wb in Eb by (change (10 ^ Z.of_nat 2) with 100; lia).
    rewrite Ea, Eb in E.
    apply app_inj_1 in E as [Ed E]; [| by rewrite !length_digits_pad].
    apply app_inj_1 in E as [_ Ey]; [| reflexivity].
    apply month_name_inj in Em; [| lia | lia].
    apply ExportFacts.digits_pad_inj in Ed; [| change (10 ^ Z.of_nat 2) with 100; lia ..].
    apply year_string_inj in Ey.
    pose proof (MakeDay_fields la (DateFromTime la)) as Fa.
    pose proof (MakeDay_fields lb (DateFromTime lb)) as Fb.
    rewrite Ey, Em, Ed in Fa. lia.
  - intros D.
    assert (Y : YearFromTime la = YearFromTime lb) by (unfold YearFromTime; by rewrite D).
    assert (L : InLeapYear la = InLeapYear lb) by (unfold InLeapYear; by rewrite Y).
    assert (W : DayWithinYear la = DayWithinYear lb) by (unfold DayWithinYear; by rewrite D, Y).
    assert (M : MonthFromTime la = MonthFromTime lb) by (unfold MonthFromTime; by rewrite W, L).
    assert (Dt : DateFromTime la = DateFromTime lb) by (unfold DateFromTime; by rewrite W, M, L).
    assert (Wd : WeekDay la = WeekDay lb) by (unfold WeekDay; by rewrite D).
    by rewrite Y, M, Dt, Wd.
Qed.

End Host.
End DateStringFacts.

(** *** The cell of today *)

(** X8.  A cell is marked as today exactly when its date and the date kept as
    today lie on the same local day: the comparison of the two date strings
    tells the days apart, over the whole range of Date. *)
Theorem cell_isToday_same_day (tz : Z) (st : State) (a b : Z) :
  today st = Some b ->
  isToday (cell tz st (Some a)) = true
  <-> Date.Day (Date.LocalTime tz a) = Date.Day (Date.LocalTime tz b).
Proof.
  intros T. unfold cell. cbn [isToday]. rewrite T.
  rewrite ListFacts.jsstring_eqb_eq. apply DateStringFacts.toDateString_same_day.
Qed.

(** Witness: today is 15 March 2024, 00:00 UTC, which is 01:00 on a host one
    hour ahead; the cell of that day's local midnight is marked. *)
Lemma cell_isToday_same_day_witness :
  isToday (cell 3600000 Sample.march_2024 (Some 1710457200000)) = true.
Proof.
  apply (cell_isToday_same_day 3600000 Sample.march_2024 1710457200000 1710460800000).
  - reflexivity.
  - vm_compute. reflexivity.
Defined.

(** ** Attendees *)

Module AttendeeFacts.
Import ListFacts Cond.

(** A string that does not begin with white space. *)
Lemma trimStart_head s :
  match trimStart s with [] => True | c :: _ => is_ws c = false end.
Proof.
  induction s as [| c r IH]; [exact I |].
  cbn [trimStart]. destruct (is_ws c) eqn:W; [exact IH | exact W].
Qed.

Lemma trimStart_fixed s :
  match s with [] => True | c :: _ => is_ws c = false end -> trimStart s = s.
Proof. destruct s as [| c r]; [reflexivity |]. cbn [trimStart]. by intros ->. Qed.

(** [trimStart] drops a prefix. *)
Lemma trimStart_suffix s : exists p, s = p ++ trimStart s.
Proof.
  induction s as [| c r [p IH]]; [by exists [] |].
  cbn [trimStart]. destruct (is_ws c).
  - exists (c :: p). cbn [app]. by rewrite <- IH.
  - by exists [].
Qed.

Lemma In_trimStart c s : In c (trimStart s) -> In c s.
Proof.
  destruct (trimStart_suffix s) as [p E]. intros H. rewrite E. apply in_or_app. by right.
Qed.

Lemma In_trim c s : In c (trim s) -> In c s.
Proof.
  unfold trim. intros H. apply in_rev in H. apply In_trimStart in H.
  apply in_rev in H. by apply In_trimStart in H.
Qed.

(** A trimmed string begins and ends without white space, and trimming it
    again changes nothing. *)
Lemma trim_ends s :
  match trim s with [] => True | c :: _ => is_ws c = false end
  /\ match rev (trim s) with [] => True | c :: _ => is_ws c = false end.
Proof.
  unfold trim. rewrite rev_involutive.
  split; [| apply trimStart_head].
  pose proof (trimStart_head s) as H.
  destruct (trimStart_suffix (rev (trimStart s))) as [p E].
  set (u := trimStart (rev (trimStart s))) in *.
  apply (f_equal (@rev Z)) in E. rewrite rev_involutive, rev_app_distr in E.
  destruct (rev u) as [| c r]; [exact I |].
  rewrite E in H. exact H.
Qed.

Lemma trim_fixed s :
  match s with [] => True | c :: _ => is_ws c = false end ->
  match rev s with [] => True | c :: _ => is_ws c = false end ->
  trim s = s.
Proof.
  intros A B. unfold trim. rewrite (trimStart_fixed s A), (trimStart_fixed (rev s) B).
  apply rev_involutive.
Qed.

Lemma trim_idempotent s : trim (trim s) = trim s.
Proof. destruct (trim_ends s) as [A B]. by apply trim_fixed. Qed.

Lemma trim_space s : trim (32 :: s) = trim s.
Proof. reflexivity. Qed.

(** The pieces of a split do not hold the separator. *)
Lemma split_acc_pieces sep s cur :
  ~ In sep cur -> Forall (fun p => ~ In sep p) (split_acc sep s cur).
Proof.
  revert cur. induction s as [| c r IH]; intros cur H; cbn [split_acc].
  - constructor; [| constructor]. by rewrite <- in_rev.
  - destruct (Z.eqb_spec c sep) as [-> | N].
    + constructor; [by rewrite <- in_rev | apply IH; intros []].
    + apply IH. intros [-> | Hc]; [by apply N | by apply H].
Qed.

(** Splitting runs over a text without the separator. *)
Lemma split_acc_app sep x rest cur :
  ~ In sep x -> split_acc sep (x ++ rest) cur = split_acc sep rest (rev x ++ cur).
Proof.
  revert cur. induction x as [| c r IH]; intros cur H; [reflexivity |].
  cbn [app split_acc]. destruct (Z.eqb_spec c sep) as [-> | N].
  - exfalso. apply H. by left.
  - rewrite IH by (intros Hc; apply H; by right).
    cbn [rev]. by rewrite <- app_assoc.
Qed.

(** What [split] makes of the attendees that [join] put together. *)
Lemma split_join x l :
  Forall (fun a => ~ In 44 a) (x :: l) ->
  split 44 (join (str ", ") (x :: l)) = x :: List.map (cons 32) l.
Proof.
  revert x. induction l as [| y r IH]; intros x F.
  - cbn [join List.map]. unfold split.
    rewrite <- (app_nil_r x) at 1. rewrite split_acc_app by (by inversion F).
    cbn [split_acc]. by rewrite app_nil_r, rev_involutive.
  - change (join (str ", ") (x :: y :: r)) with (x ++ [44; 32] ++ join (str ", ") (y :: r)).
    unfold split. rewrite split_acc_app by (by inversion F).
    cbn [app split_acc]. rewrite Z.eqb_refl, app_nil_r, rev_involutive. f_equal.
    change (Z.eqb 32 44) with false. cbv iota.
    assert (F' : Forall (fun a => ~ In 44 a) (y :: r)) by (by inversion F).
    specialize (IH y F'). unfold split in IH.
    change [32] with (rev [32] ++ []).
    rewrite <- (split_acc_app 44 [32]) by (intros [H | []]; discriminate).
    cbn [app]. cbn [List.map].
    assert (G : forall s cur, split_acc 44 s (cur ++ [32])
                              = match split_acc 44 s cur with
                                | [] => []
                                | p :: q => (32 :: p) :: q
                                end).
    { induction s as [| c s IHs]; intros cur; cbn [split_acc].
      - by rewrite rev_app_distr.
      - destruct (c =? 44); [by rewrite rev_app_distr |]. apply (IHs (c :: cur)). }
    change (split_acc 44 (32 :: join (str ", ") (y :: r)) [])
      with (split_acc 44 (join (str ", ") (y :: r)) ([] ++ [32])).
    rewrite G, IH. reflexivity.
Qed.

(** The attendees that [saveEvent] reads from the text that [openEditModal]
    made of a list of clean attendees are that list. *)
Lemma attendees_round_trip l :
  Forall clean_attendee l ->
  List.filter (fun s => negb (jsstring_eqb s []))
    (List.map trim (split 44 (join (str ", ") l)))
  = l.
Proof.
  intros F. destruct l as [| x l]; [reflexivity |].
  rewrite split_join.
  2:{ eapply Forall_impl; [exact F |]. by intros a (_ & H & _). }
  assert (K : forall a, clean_attendee a -> negb (jsstring_eqb a []) = true).
  { intros a (N & _ & _). by rewrite (proj2 (jsstring_eqb_neq a []) N). }
  cbn [List.map List.filter].
  inversion F as [| ? ? Hx Hl]; subst.
  destruct Hx as (Nx & Cx & Tx). rewrite Tx, (K x (conj Nx (conj Cx Tx))). f_equal.
  clear F Nx Cx Tx. induction Hl as [| y r Hy Hr IH]; [reflexivity |].
  cbn [List.map List.filter]. rewrite trim_space.
  destruct Hy as (Ny & Cy & Ty). rewrite Ty, (K y (conj Ny (conj Cy Ty))). by f_equal.
Qed.

(** What [saveEvent] reads from any text are clean attendees. *)
Lemma attendees_clean text :
  Forall clean_attendee
    (List.filter (fun s => negb (jsstring_eqb s [])) (List.map trim (split 44 text))).
Proof.
  apply List.Forall_forall. intros a Ha.
  apply filter_In in Ha as [Ha N]. apply in_map_iff in Ha as (p & <- & Hp).
  pose proof (split_acc_pieces 44 text [] ltac:(intros [])) as P.
  rewrite List.Forall_forall in P. specialize (P p Hp).
  split; [| split].
  - apply jsstring_eqb_neq. by destruct (jsstring_eqb (trim p) []).
  - intros H. apply P. by apply In_trim.
  - apply trim_idempotent.
Qed.

End AttendeeFacts.

(** ** The form, from opening to saving *)

Module FlowFacts.
Import Date DateFacts DigitFacts IsoFacts ListFacts Cond.

(** A date whose year has four digits lies well inside the range of Date. *)
Lemma four_digit_year_range t : four_digit_year t -> Z.abs t <= 253402300799999.
Proof.
  unfold four_digit_year. intros Y. pose proof (YearFromTime_spec t) as S.
  assert (A : DayFromYear 0 <= DayFromYear (YearFromTime t)).
  { pose proof (DayFromYear_mono 0 (YearFromTime t) ltac:(lia)). lia. }
  assert (B : DayFromYear (YearFromTime t + 1) <= DayFromYear 10000).
  { pose proof (DayFromYear_mono (YearFromTime t + 1) 10000 ltac:(lia)). lia. }
  change (DayFromYear 0) with (-719528) in A. change (DayFromYear 10000) with 2932897 in B.
  revert S. unfold Day, msPerDay. Z.div_mod_to_equations. lia.
Qed.

Section Host.
Variable tz : Z.

Opaque digits_pad.

(** [Date.parse] on a date and a time of day without an offset: local
    time. *)
Lemma parse_local y m d h mi :
  0 <= y <= 9999 -> 1 <= m <= 12 -> 1 <= d <= 31 -> 0 <= h <= 23 -> 0 <= mi <= 59 ->
  parse tz ((digits_pad 4 y ++ [45] ++ digits_pad 2 m ++ [45] ++ digits_pad 2 d)
            ++ str "T" ++ (digits_pad 2 h ++ [58] ++ digits_pad 2 mi))
  = TimeClip (UTC tz (MakeDate (MakeDay y (m - 1) d) (MakeTime h mi 0 0))).
Proof.
  intros Y M D H Mi. unfold parse.
  pose proof (parse_year_isoYear y) as PY. unfold isoYear in PY.
  replace ((0 <=? y) && (y <=? 9999)) with true in PY
    by (symmetry; rewrite andb_true_iff, !Z.leb_le; lia).
  rewrite <- !app_assoc. rewrite PY by lia.
  cbn [mbind option_bind]. unfold parse_month_day. cbn [app].
  rewrite take2 by lia. cbn [mbind option_bind app].
  rewrite take2 by lia. cbn [mbind option_bind app].
  replace ((1 <=? m) && (m <=? 12) && (1 <=? d) && (d <=? 31)) with true
    by (symmetry; rewrite !andb_true_iff, !Z.leb_le; lia).
  cbn [negb]. change (str "T") with [84]. cbn [app]. unfold parse_time.
  rewrite take2 by lia. cbn [mbind option_bind app].
  rewrite <- (app_nil_r (digits_pad 2 mi)). rewrite take2 by lia.
  cbn [mbind option_bind app parse_offset]. unfold valid_time.
  replace ((h <=? 23) && (mi <=? 59) && (0 <=? 59)) with true
    by (symmetry; rewrite !andb_true_iff, !Z.leb_le; lia).
  reflexivity.
Qed.

(** The date of the edit form: the first ten code units of the ISO
    string. *)
Lemma isoDate_slice t :
  four_digit_year t ->
  exists iso,
    toISOString (Some t) = Some iso
    /\ slice 0 10 iso
       = digits_pad 4 (YearFromTime t) ++ [45] ++ digits_pad 2 (MonthFromTime t + 1)
         ++ [45] ++ digits_pad 2 (DateFromTime t).
Proof.
  unfold four_digit_year. intros Y. eexists. split; [reflexivity |].
  unfold isoYear.
  replace ((0 <=? YearFromTime t) && (YearFromTime t <=? 9999)) with true
    by (symmetry; rewrite andb_true_iff, !Z.leb_le; lia).
  unfold slice. cbn [drop Nat.sub].
  rewrite !(app_assoc _ _ ([84] ++ _)).
  apply take_app_length'.
  rewrite !length_app, !length_digits_pad. reflexivity.
Qed.

(** The time of the edit form: the local hour and minute. *)
Lemma hhmm_slice t :
  slice 0 5 (toTimeString tz (Some t))
  = digits_pad 2 (HourFromTime (LocalTime tz t)) ++ [58]
    ++ digits_pad 2 (MinFromTime (LocalTime tz t)).
Proof.
  unfold toTimeString, slice. cbv zeta. cbn [drop Nat.sub].
  rewrite !(app_assoc _ _ ([58] ++ digits_pad 2 (SecFromTime _) ++ _)).
  apply take_app_length'.
  rewrite !length_app, !length_digits_pad. reflexivity.
Qed.

Transparent digits_pad.

(** The UTC day of [t] with the local hour and minute of [t], as an
    instant. *)
Lemma resaved_start_value t :
  UTC tz (MakeDate (Day t)
            (MakeTime (HourFromTime (LocalTime tz t)) (MinFromTime (LocalTime tz t)) 0 0))
  = resaved_start tz t.
Proof.
  unfold resaved_start, UTC, MakeDate, MakeTime, HourFromTime, MinFromTime, LocalTime, Day,
    msPerDay, msPerHour, msPerMinute, msPerSecond.
  Z.div_mod_to_equations. lia.
Qed.

End Host.
End FlowFacts.

(** *** Opening the form and saving it *)

(** X9.  Opening an event in the edit form and saving the form unchanged, for
    an event whose start is an instant [t] with a UTC year of four digits, on
    a host within a day of UTC: the saved start is the UTC day of [t] with
    the local hour and minute of [t], which is [t] exactly when [t] is a
    whole local minute whose UTC day and local day are the same; the id and
    the description are kept, the title is kept unless it is empty, the
    duration unless it is NaN or zero, and a list of clean attendees is
    kept. *)
Theorem edit_then_save_unchanged
    (tz : Z) (random_id : nat -> jsstring) (st : State) (e : Event.t) (t : Z) :
  Date.parse tz (Event.start e) = Some t ->
  Cond.four_digit_year t -> Z.abs tz <= Date.msPerDay ->
  exists st1 ev,
    openEditModal tz e st = Ok st1
    /\ savedEvent tz random_id st1 = Ok (ev, st1)
    /\ Date.parse tz (Event.start ev) = Some (Cond.resaved_start tz t)
    /\ (Cond.resaved_start tz t = t
        <-> (t + tz) mod Date.msPerMinute = 0
            /\ Date.Day (Date.LocalTime tz t) = Date.Day t)
    /\ Event.id ev = Event.id e
    /\ Event.title ev = (if decide (Event.title e = []) then placeholder else Event.title e)
    /\ Event.duration ev = Num.or_else (Event.duration e) (Num.of_Z 60)
    /\ Event.description ev = Event.description e
    /\ (Forall Cond.clean_attendee (Event.attendees e) ->
        Event.attendees ev = Event.attendees e).
Proof.
  intros P Y Tz.
  pose proof (FlowFacts.four_digit_year_range t Y) as R.
  destruct (FlowFacts.isoDate_slice t Y) as (iso & I & S).
  set (s := Cond.resaved_start tz t).
  assert (B : Z.abs s <= Date.maxTime /\ (s = t <-> (t + tz) mod Date.msPerMinute = 0
                                         /\ Date.Day (Date.LocalTime tz t) = Date.Day t)).
  { unfold s, Cond.resaved_start, Date.maxTime, Date.LocalTime, Date.Day, Date.msPerDay,
      Date.msPerMinute in *. Z.div_mod_to_equations. lia. }
  destruct B as [B Eq].
  destruct (Date.toISOString (Some s)) as [iso' |] eqn:I'; [| discriminate].
  unfold openEditModal. rewrite P, I. cbv zeta.
  eexists _, _. split; [reflexivity |].
  unfold savedEvent.
  cbn [form editingEvent setModalOpen setForm setEditingEvent Form.date Form.time
       Form.title Form.duration Form.description Form.attendees].
  rewrite S, FlowFacts.hhmm_slice.
  pose proof (DateFacts.MonthFromTime_range t). pose proof (DateFacts.DateFromTime_range t).
  destruct (IsoFacts.time_fields (Date.LocalTime tz t)) as (? & ? & _).
  pose proof (FlowFacts.parse_local tz (Date.YearFromTime t) (Date.MonthFromTime t + 1)
                (Date.DateFromTime t) (Date.HourFromTime (Date.LocalTime tz t))
                (Date.MinFromTime (Date.LocalTime tz t)) Y ltac:(lia) ltac:(lia)
                ltac:(lia) ltac:(lia)) as PL.
  rewrite <- !app_assoc in PL. rewrite <- !app_assoc. rewrite PL. clear PL.
  replace (Date.MonthFromTime t + 1 - 1) with (Date.MonthFromTime t) by lia.
  rewrite DateFacts.MakeDay_fields.
  replace (Date.Day t - Date.DateFromTime t + Date.DateFromTime t) with (Date.Day t) by lia.
  rewrite FlowFacts.resaved_start_value. fold s.
  unfold Date.TimeClip. destruct (Z.gtb_spec (Z.abs s) Date.maxTime) as [G | G]; [lia |].
  rewrite I'.
  split; [reflexivity |].
  cbn [Event.id Event.title Event.start Event.duration Event.description Event.attendees].
  split; [exact (IsoFacts.parse_toISOString tz s iso' B I') |].
  split; [exact Eq |].
  split; [reflexivity |].
  split.
  { destruct (decide (Event.title e = [])) as [T | T].
    - by rewrite T.
    - by rewrite (proj2 (ListFacts.jsstring_eqb_neq _ _) T). }
  split.
  { cbn [Number]. unfold Num.or_else.
    destruct (Num.truthy (Event.duration e)) eqn:D; [by rewrite D | reflexivity]. }
  split.
  { destruct (jsstring_eqb (Event.description e) []) eqn:D; [| reflexivity].
    symmetry. by apply ListFacts.jsstring_eqb_eq. }
  apply AttendeeFacts.attendees_round_trip.
Qed.

(** Witness: "Sync" (09:00 UTC on 15 March 2024) on a host one hour ahead of
    UTC keeps its start. *)
Lemma edit_then_save_unchanged_witness :
  exists st1 ev,
    openEditModal 3600000 Sample.sync Sample.march_2024 = Ok st1
    /\ savedEvent 3600000 Sample.ids st1 = Ok (ev, st1)
    /\ Date.parse 3600000 (Event.start ev) = Some 1710493200000.
Proof.
  destruct (edit_then_save_unchanged 3600000 Sample.ids Sample.march_2024 Sample.sync
              1710493200000) as (st1 & ev & O & S & P & _).
  - vm_compute. reflexivity.
  - vm_compute. split; discriminate.
  - vm_compute. discriminate.
  - exists st1, ev. split; [exact O |]. split; [exact S |]. exact P.
Defined.

(** X10.  The attendees of a saved event are clean, whatever the form holds:
    none is empty, none holds a comma, none begins or ends with white
    space. *)
Theorem savedEvent_attendees_clean
    (tz : Z) (random_id : nat -> jsstring) (st st1 : State) (ev : Event.t) :
  savedEvent tz random_id st = Ok (ev, st1) ->
  Forall Cond.clean_attendee (Event.attendees ev).
Proof.
  unfold savedEvent. intros E.
  destruct (editingEvent st); cbn in E;
    destruct (Date.toISOString _); try discriminate;
    injection E as <- _; apply AttendeeFacts.attendees_clean.
Qed.

(** Witness: the form of the sample, whose attendees are written
    "ana@example.com, , peter@example.com". *)
Lemma savedEvent_attendees_clean_witness :
  exists ev st1,
    savedEvent 0 Sample.ids
      (setForm (Sample.typed_form "Sync" "2024-03-15" "09:00" "30") Sample.march_2024)
    = Ok (ev, st1)
    /\ Forall Cond.clean_attendee (Event.attendees ev).
Proof.
  destruct (savedEvent 0 Sample.ids
              (setForm (Sample.typed_form "Sync" "2024-03-15" "09:00" "30")
                 Sample.march_2024)) as [[ev st1] | x] eqn:E;
    [| vm_compute in E; discriminate].
  exists ev, st1. split; [reflexivity |].
  exact (savedEvent_attendees_clean 0 Sample.ids _ st1 ev E).
Defined.

(** X11.  The button of a cell opens the form with the UTC date of the cell
    and 09:00; saving it (whatever else is typed, the date and the time left
    as they are) makes an event that starts at 09:00 local time on that UTC
    day.  A cell is a local midnight: on a host ahead of UTC its UTC date is
    the day before, so the new event lies on the day before the cell; on a
    host at or behind UTC it lies on the day of the cell. *)
Theorem add_on_cell_day
    (tz : Z) (random_id : nat -> jsstring) (st st2 : State) (c : Z) :
  Cond.four_digit_year c -> - Date.msPerDay < tz <= Date.msPerDay ->
  exists st1,
    add_on_cell (Some c) st = Ok st1
    /\ modalOpen st1 = true /\ editingEvent st1 = None
    /\ (Form.date (form st2) = Form.date (form st1) ->
        Form.time (form st2) = Form.time (form st1) ->
        exists ev st3 s,
          savedEvent tz random_id st2 = Ok (ev, st3)
          /\ Date.parse tz (Event.start ev) = Some s
          /\ Date.LocalTime tz s = Date.Day c * Date.msPerDay + 9 * Date.msPerHour
          /\ (Date.TimeWithinDay (Date.LocalTime tz c) = 0 ->
              Date.Day (Date.LocalTime tz s)
              = Date.Day (Date.LocalTime tz c) - (if 0 <? tz then 1 else 0))).
Proof.
  intros Y Tz.
  pose proof (FlowFacts.four_digit_year_range c Y) as R.
  destruct (FlowFacts.isoDate_slice c Y) as (iso & I & S).
  set (s := Date.Day c * Date.msPerDay + 9 * Date.msPerHour - tz).
  assert (B : Z.abs s <= Date.maxTime).
  { unfold s, Date.maxTime, Date.Day, Date.msPerDay, Date.msPerHour in *.
    Z.div_mod_to_equations. lia. }
  destruct (Date.toISOString (Some s)) as [iso' |] eqn:I'; [| discriminate].
  unfold add_on_cell. rewrite I. eexists. split; [reflexivity |].
  split; [reflexivity |]. split; [reflexivity |].
  cbn [form openNewModal setModalOpen setForm setEditingEvent Form.date Form.time].
  intros Hd Ht. rewrite S in Hd.
  pose proof (DateFacts.MonthFromTime_range c). pose proof (DateFacts.DateFromTime_range c).
  assert (PL : Date.parse tz ((digits_pad 4 (Date.YearFromTime c) ++ [45]
                               ++ digits_pad 2 (Date.MonthFromTime c + 1) ++ [45]
                               ++ digits_pad 2 (Date.DateFromTime c))
                              ++ str "T" ++ str "09:00") = Some s).
  { change (str "09:00") with (digits_pad 2 9 ++ [58] ++ digits_pad 2 0).
    rewrite (FlowFacts.parse_local tz) by (unfold Cond.four_digit_year in Y; lia).
    replace (Date.MonthFromTime c + 1 - 1) with (Date.MonthFromTime c) by lia.
    rewrite DateFacts.MakeDay_fields.
    replace (Date.Day c - Date.DateFromTime c + Date.DateFromTime c) with (Date.Day c) by lia.
    unfold Date.TimeClip.
    replace (Date.UTC tz (Date.MakeDate (Date.Day c) (Date.MakeTime 9 0 0 0))) with s
      by (unfold s, Date.UTC, Date.MakeDate, Date.MakeTime, Date.msPerHour; lia).
    destruct (Z.gtb_spec (Z.abs s) Date.maxTime); [lia | reflexivity]. }
  unfold savedEvent. rewrite Hd, Ht, PL, I'.
  destruct (match editingEvent st2 with
            | Some e => (Event.id e, st2)
            | None => cryptoRandomId random_id st2
            end) as [id st3].
  eexists _, st3, s. split; [reflexivity |].
  cbn [Event.start].
  split; [exact (IsoFacts.parse_toISOString tz s iso' B I') |].
  split; [unfold s, Date.LocalTime; lia |].
  intros M. revert M.
  unfold s, Date.LocalTime, Date.TimeWithinDay, Date.Day, Date.msPerDay, Date.msPerHour in *.
  destruct (Z.ltb_spec 0 tz); Z.div_mod_to_equations; lia.
Qed.

(** Witness: the cell of 15 March 2024 on a host one hour ahead of UTC (its
    local midnight is 14 March, 23:00 UTC); the saved event lies on 14
    March. *)
Lemma add_on_cell_day_witness :
  exists st1 ev st3 s,
    add_on_cell (Some 1710457200000) Sample.march_2024 = Ok st1
    /\ savedEvent 3600000 Sample.ids st1 = Ok (ev, st3)
    /\ Date.parse 3600000 (Event.start ev) = Some s
    /\ Date.Day (Date.LocalTime 3600000 s)
       = Date.Day (Date.LocalTime 3600000 1710457200000) - 1.
Proof.
  destruct (add_on_cell (Some 1710457200000) Sample.march_2024) as [st1 | x] eqn:E.
  2:{ vm_compute in E. discriminate. }
  destruct (add_on_cell_day 3600000 Sample.ids Sample.march_2024 st1 1710457200000)
    as (st1' & O & _ & _ & H).
  - vm_compute. split; discriminate.
  - vm_compute. split; [reflexivity | discriminate].
  - rewrite E in O. injection O as <-.
    destruct (H eq_refl eq_refl) as (ev & st3 & s & Sv & P & _ & D).
    exists st1, ev, st3, s. split; [reflexivity |]. split; [exact Sv |].
    split; [exact P |]. apply D. vm_compute. reflexivity.
Defined.

(** *** Adding and deleting *)

(** X12.  Saving the form of a new event, when its date and time make an
    instant, appends one event to the list: its id is the next identifier
    drawn, and the identifier is not compared with those in use.  Deleting
    that id afterwards removes the new event together with every older event
    of the same id, so the list is back to what it was exactly when the
    identifier was not in use. *)
Theorem saveEvent_new_appends
    (tz : Z) (random_id : nat -> jsstring) (st : State) (t : Z) :
  editingEvent st = None ->
  Date.parse tz (Form.date (form st) ++ str "T" ++ Form.time (form st)) = Some t ->
  exists ev st',
    saveEvent tz random_id st = Ok st'
    /\ events st' = events st ++ [ev]
    /\ Event.id ev = random_id (draws st)
    /\ draws st' = S (draws st)
    /\ modalOpen st' = false
    /\ events (deleteEvent true (Event.id ev) st') = remove_id (Event.id ev) (events st)
    /\ (events (deleteEvent true (Event.id ev) st') = events st
        <-> ~ In (Event.id ev) (List.map Event.id (events st))).
Proof.
  intros Ed P.
  destruct (Date.toISOString (Some t)) as [iso |] eqn:I; [| discriminate].
  unfold saveEvent, savedEvent. rewrite P, I, Ed. cbn [cryptoRandomId].
  eexists _, _. split; [reflexivity |].
  cbn [events draws modalOpen setModalOpen setEvents setDraws Event.id deleteEvent negb].
  do 4 (split; [reflexivity |]).
  assert (D : remove_id (random_id (draws st))
                (events st ++ [{| Event.id := random_id (draws st);
                                   Event.title := if jsstring_eqb (Form.title (form st)) []
                                                  then placeholder else Form.title (form st);
                                   Event.start := iso;
                                   Event.duration :=
                                     Num.or_else (Number (Form.duration (form st)))
                                       (Num.of_Z 60);
                                   Event.description := Form.description (form st);
                                   Event.attendees :=
                                     List.filter (fun s => negb (jsstring_eqb s []))
                                       (List.map trim (split 44 (Form.attendees (form st))))
                                |}])
              = remove_id (random_id (draws st)) (events st)).
  { unfold remove_id. rewrite List.filter_app. cbn [List.filter Event.id].
    rewrite ListFacts.jsstring_eqb_refl. cbn [negb]. apply app_nil_r. }
  split; [exact D |]. split.
  - intros E Hin. apply in_map_iff in Hin as (p & Hp & Hin).
    assert (E' : remove_id (random_id (draws st)) (events st) = events st)
      by (rewrite <- D; exact E).
    rewrite <- E' in Hin. apply ListFacts.In_remove_id in Hin as [_ N]. by apply N.
  - intros N. etransitivity; [exact D |].
    apply ListFacts.remove_id_absent. intros p Hp E. apply N.
    apply in_map_iff. by exists p.
Qed.

(** Witness: a new event is added to a list of two and deleted again. *)
Lemma saveEvent_new_appends_witness :
  exists ev st',
    saveEvent 0 Sample.ids
      (setForm (Sample.typed_form "Talk" "2024-03-16" "10:00" "45")
         (Sample.with_events [Sample.sync; Sample.lunch]))
    = Ok st'
    /\ events st' = [Sample.sync; Sample.lunch; ev]
    /\ events (deleteEvent true (Event.id ev) st') = [Sample.sync; Sample.lunch].
Proof.
  destruct (saveEvent_new_appends 0 Sample.ids
              (setForm (Sample.typed_form "Talk" "2024-03-16" "10:00" "45")
                 (Sample.with_events [Sample.sync; Sample.lunch])) 1710583200000)
    as (ev & st' & Sv & A & Id & _ & _ & _ & F).
  - reflexivity.
  - vm_compute. reflexivity.
  - exists ev, st'. split; [exact Sv |]. split; [exact A |].
    apply F. rewrite Id. vm_compute. intros [H | [H | []]]; discriminate.
Defined.

(** ** Months, cells and events *)

Module NavFacts.
Import Date DateFacts GridFacts CalendarFacts ViewFacts Cond.

Section Host.
Variable tz : Z.

(** [new Date(y, m + k, 1)] from the year and the month of [t], for [k] one
    of -1 and 1. *)
Lemma month_shift_value t k :
  Spec.inner t -> Spec.plain_year tz t -> k = -1 \/ k = 1 ->
  let lt := LocalTime tz t in
  new_ymd tz (YearFromTime lt) (MonthFromTime lt + k) 1
  = Some (MakeDay (YearFromTime lt) (MonthFromTime lt + k) 1 * msPerDay - tz).
Proof.
  intros I P K lt. unfold new_ymd.
  pose proof (plain_year_false tz t P) as PF. fold lt in PF. rewrite PF.
  replace (MakeTime 0 0 0 0) with 0 by reflexivity.
  destruct (day_in_month lt) as [F N].
  pose proof (DateFromTime_range lt) as Dt.
  pose proof (MakeDay_next_month (YearFromTime lt) (MonthFromTime lt)) as L1.
  pose proof (MakeDay_next_month (YearFromTime lt) (MonthFromTime lt - 1)) as L0.
  replace (MonthFromTime lt - 1 + 1) with (MonthFromTime lt) in L0 by lia.
  pose proof (TimeClip_near tz t
                (MakeDay (YearFromTime lt) (MonthFromTime lt + k) 1 - Day lt) I) as C.
  fold lt in C.
  replace (Day lt + (MakeDay (YearFromTime lt) (MonthFromTime lt + k) 1 - Day lt))
    with (MakeDay (YearFromTime lt) (MonthFromTime lt + k) 1) in C by lia.
  apply C. destruct K as [-> | ->].
  - replace (MonthFromTime lt + -1) with (MonthFromTime lt - 1) by lia. lia.
  - lia.
Qed.

(** The month [k] months away and back is the month. *)
Lemma month_there_and_back t k :
  Spec.inner t -> k = -1 \/ k = 1 ->
  let lt := LocalTime tz t in
  let u := LocalTime tz (MakeDay (YearFromTime lt) (MonthFromTime lt + k) 1 * msPerDay - tz) in
  MakeDay (YearFromTime u) (MonthFromTime u - k) 1
  = MakeDay (YearFromTime lt) (MonthFromTime lt) 1
  /\ YearFromTime lt - 1 <= YearFromTime u <= YearFromTime lt + 1
  /\ Z.abs (Day u - Day lt) <= 61.
Proof.
  intros I K lt u.
  pose proof (MonthFromTime_range lt) as Mr.
  destruct (LocalTime_midnight tz (MakeDay (YearFromTime lt) (MonthFromTime lt + k) 1))
    as [D0 _]. fold u in D0.
  destruct (fields_MakeDay_any (YearFromTime lt) (MonthFromTime lt + k) 1 u)
    as (Y' & M' & _); [lia | by rewrite D0 |].
  rewrite Y', M'. split; [| split].
  - rewrite (MakeDay_normal _ ((MonthFromTime lt + k) mod 12 - k)).
    rewrite (MakeDay_normal (YearFromTime lt) (MonthFromTime lt)).
    f_equal; destruct K as [-> | ->]; Z.div_mod_to_equations; lia.
  - destruct K as [-> | ->]; Z.div_mod_to_equations; lia.
  - rewrite D0. destruct (day_in_month lt) as [F N].
    pose proof (DateFromTime_range lt) as Dt.
    pose proof (MakeDay_next_month (YearFromTime lt) (MonthFromTime lt)) as L1.
    pose proof (MakeDay_next_month (YearFromTime lt) (MonthFromTime lt - 1)) as L0.
    replace (MonthFromTime lt - 1 + 1) with (MonthFromTime lt) in L0 by lia.
    destruct K as [-> | ->].
    + replace (MonthFromTime lt + -1) with (MonthFromTime lt - 1) by lia. lia.
    + lia.
Qed.

(** A time near one that is deep inside the range is inside. *)
Lemma inner_near t c :
  deep t -> Z.abs (Day (LocalTime tz c) - Day (LocalTime tz t)) <= 70 -> Spec.inner c.
Proof.
  unfold deep, Spec.inner, LocalTime, Day, maxTime, msPerDay.
  intros D N. Z.div_mod_to_equations. lia.
Qed.

Lemma plain_near t c :
  plain_years tz t ->
  YearFromTime (LocalTime tz t) - 1 <= YearFromTime (LocalTime tz c)
    <= YearFromTime (LocalTime tz t) + 1 ->
  Spec.plain_year tz c.
Proof. unfold plain_years, Spec.plain_year. lia. Qed.

Lemma deep_inner t : deep t -> Spec.inner t.
Proof. unfold deep, Spec.inner, maxTime, msPerDay. lia. Qed.

Lemma plain_years_plain t : plain_years tz t -> Spec.plain_year tz t.
Proof. unfold plain_years, Spec.plain_year. lia. Qed.

(** One month away and back: the first day of the month. *)
Lemma month_round_trip t k :
  deep t -> plain_years tz t -> k = -1 \/ k = 1 ->
  let lt := LocalTime tz t in
  exists t',
    new_ymd tz (YearFromTime lt) (MonthFromTime lt + k) 1 = Some t'
    /\ new_ymd tz (YearFromTime (LocalTime tz t')) (MonthFromTime (LocalTime tz t') - k) 1
       = startOfMonth tz (Some t)
    /\ is_Some (startOfMonth tz (Some t)).
Proof.
  intros D P K. cbv zeta. set (lt := LocalTime tz t).
  pose proof (deep_inner t D) as I. pose proof (plain_years_plain t P) as P0.
  pose proof (month_shift_value t k I P0 K) as S0. cbv zeta in S0. fold lt in S0.
  rewrite S0. clear S0.
  eexists. split; [reflexivity |].
  destruct (month_there_and_back t k I K) as (E & Yr & Dy). fold lt in E, Yr, Dy.
  set (t' := MakeDay (YearFromTime lt) (MonthFromTime lt + k) 1 * msPerDay - tz) in *.
  assert (I' : Spec.inner t') by (apply (inner_near t); [exact D | fold lt; lia]).
  assert (P' : Spec.plain_year tz t') by (by apply (plain_near t)).
  assert (K' : - k = -1 \/ - k = 1) by lia.
  pose proof (month_shift_value t' (- k) I' P' K') as S. cbv zeta in S.
  replace (MonthFromTime (LocalTime tz t') + - k)
    with (MonthFromTime (LocalTime tz t') - k) in S by lia.
  rewrite S, E. rewrite (startOfMonth_value tz t I P0). fold lt.
  split; [| by eexists]. f_equal. rewrite MakeDay_fields. lia.
Qed.

(** The year of a day that is at most six days before the first day of the
    month of [lt] and at most 41 days after it. *)
Lemma near_year lt u :
  MakeDay (YearFromTime lt) (MonthFromTime lt) 1 - 6 <= Day u
    <= MakeDay (YearFromTime lt) (MonthFromTime lt) 1 + 41 ->
  YearFromTime lt - 1 <= YearFromTime u <= YearFromTime lt + 1.
Proof.
  set (Y := YearFromTime lt). set (M := MonthFromTime lt).
  set (F := MakeDay Y M 1). intros R.
  pose proof (MonthFromTime_range lt) as Mr. fold M in Mr.
  pose proof (MakeDay_next_month Y M) as L1. fold F in L1.
  pose proof (MakeDay_next_month Y (M - 1)) as L0.
  replace (M - 1 + 1) with M in L0 by lia. fold F in L0.
  pose proof (MakeDay_next_month Y (M + 1)) as L2.
  destruct (Z.lt_ge_cases (Day u) F) as [Lo | Lo];
    [| destruct (Z.lt_ge_cases (Day u) (MakeDay Y (M + 1) 1)) as [Hi | Hi]].
  - destruct (fields_in_month_any Y (M - 1) (Day u - MakeDay Y (M - 1) 1) u)
      as (E & _ & _); [lia | replace (M - 1 + 1) with M by lia; fold F; lia | lia |].
    rewrite E. Z.div_mod_to_equations. lia.
  - destruct (fields_in_month Y M (Day u - F) u) as (E & _ & _);
      [lia | lia | fold F; lia | fold F; lia |].
    rewrite E. lia.
  - destruct (fields_in_month_any Y (M + 1) (Day u - MakeDay Y (M + 1) 1) u)
      as (E & _ & _); [lia | lia | lia |].
    rewrite E. Z.div_mod_to_equations. lia.
Qed.

(** The events of a cell of the grid: those that start on its local day. *)
Lemma cell_events t i d evs ev :
  deep t -> plain_years tz t ->
  buildMonthGrid tz (Some t) !! i = Some d ->
  let F := Day (LocalTime tz t) + (1 - DateFromTime (LocalTime tz t)) in
  In ev (eventsForDay tz evs d)
  <-> In ev evs
      /\ exists s, parse tz (Event.start ev) = Some s
                   /\ Day (LocalTime tz s) = F - (F + 4) mod 7 + Z.of_nat i.
Proof.
  intros D P L F.
  pose proof (deep_inner t D) as I. pose proof (plain_years_plain t P) as P0.
  destruct (buildMonthGrid_lookup tz t i d I P0 L) as [Hi ->]. fold F.
  assert (HF : F = Day (LocalTime tz t) + (1 - DateFromTime (LocalTime tz t))) by reflexivity.
  clearbody F.
  set (g := F - (F + 4) mod 7 + Z.of_nat i).
  set (c := g * msPerDay - tz).
  destruct (LocalTime_midnight tz g) as [Dc _]. fold c in Dc.
  assert (W : 0 <= (F + 4) mod 7 <= 6) by (Z.div_mod_to_equations; lia).
  pose proof (DateFromTime_range (LocalTime tz t)) as Dt.
  assert (EF : MakeDay (YearFromTime (LocalTime tz t)) (MonthFromTime (LocalTime tz t)) 1 = F).
  { rewrite MakeDay_fields. lia. }
  assert (Ic : Spec.inner c).
  { apply (inner_near t); [exact D |]. rewrite Dc. unfold g. lia. }
  assert (Pc : Spec.plain_year tz c).
  { apply (plain_near t); [exact P |]. apply near_year. rewrite EF, Dc. unfold g. lia. }
  rewrite (DayFacts.eventsForDay_value tz evs c Ic Pc). cbv zeta.
  rewrite (SortFacts.sort_Permutation _ _), filter_In.
  unfold Spec.starts_in. rewrite Dc.
  destruct (parse tz (Event.start ev)) as [s |].
  - rewrite andb_true_iff, Z.leb_le, Z.ltb_lt.
    unfold LocalTime, Day, msPerDay. split.
    + intros [A B]. split; [exact A |]. exists s. split; [reflexivity |].
      Z.div_mod_to_equations. lia.
    + intros [A (s' & [= <-] & B)]. split; [exact A |].
      revert B. Z.div_mod_to_equations. lia.
  - split; [intros [_ ?]; discriminate | intros [_ (s & ? & _)]; discriminate].
Qed.

(** The grid of the month of [t] has the cell of the day of [t]. *)
Lemma grid_has_day t :
  Spec.inner t -> Spec.plain_year tz t ->
  let lt := LocalTime tz t in
  let F := Day lt + (1 - DateFromTime lt) in
  exists i : nat,
    Z.of_nat i = (F + 4) mod 7 + DateFromTime lt - 1
    /\ buildMonthGrid tz (Some t) !! i = Some (Some (Day lt * msPerDay - tz)).
Proof.
  intros I P lt F.
  pose proof (DateFromTime_range lt) as Dt.
  assert (W : 0 <= (F + 4) mod 7 <= 6) by (Z.div_mod_to_equations; lia).
  exists (Z.to_nat ((F + 4) mod 7 + DateFromTime lt - 1)).
  split; [lia |].
  rewrite (buildMonthGrid_value tz t I P). cbv zeta. fold lt F.
  assert (HF : F = Day lt + (1 - DateFromTime lt)) by reflexivity. clearbody F.
  rewrite list_lookup_fmap.
  rewrite (proj2 (lookup_seqZ 0 42 _ (0 + Z.of_nat (Z.to_nat ((F + 4) mod 7 + DateFromTime lt - 1))))).
  - cbn [fmap option_fmap option_map]. do 3 f_equal. unfold msPerDay. lia.
  - split; [reflexivity | lia].
Qed.

End Host.
End NavFacts.

(** *** Going from month to month *)

(** X13.  For a reference date two hundred days inside the range of Date
    whose local year is not one of -1..100, going to the next month and back,
    or to the previous month and back, leads to the first day of the month
    of the reference date, at local midnight. *)
Theorem nextMonth_prevMonth_return (tz t : Z) (st : State) :
  Cond.deep t -> Cond.plain_years tz t -> viewDate st = Some t ->
  exists f,
    startOfMonth tz (Some t) = Some f
    /\ viewDate (prevMonth tz (nextMonth tz st)) = Some f
    /\ viewDate (nextMonth tz (prevMonth tz st)) = Some f.
Proof.
  intros D P V.
  destruct (NavFacts.month_round_trip tz t 1 D P ltac:(lia)) as (t1 & N1 & B1 & [f F]).
  destruct (NavFacts.month_round_trip tz t (-1) D P ltac:(lia)) as (t2 & N2 & B2 & _).
  cbv zeta in *. exists f. split; [exact F |].
  unfold prevMonth, nextMonth.
  cbn [viewDate setViewDate]. rewrite V.
  cbn [Date.getFullYear Date.getMonth Date.new_ymd_opt mbind option_bind
       fmap option_fmap option_map].
  rewrite N1.
  replace (Date.MonthFromTime (Date.LocalTime tz t) - 1)
    with (Date.MonthFromTime (Date.LocalTime tz t) + -1) by lia.
  rewrite N2.
  cbn [Date.getFullYear Date.getMonth Date.new_ymd_opt mbind option_bind
       fmap option_fmap option_map].
  rewrite B1, F.
  replace (Date.MonthFromTime (Date.LocalTime tz t2) + 1)
    with (Date.MonthFromTime (Date.LocalTime tz t2) - -1) by lia.
  rewrite B2, F. split; reflexivity.
Qed.

(** Witness: from 15 March 2024 to April and back, on a host one hour ahead
    of UTC: 1 March, local midnight. *)
Lemma nextMonth_prevMonth_return_witness :
  viewDate (prevMonth 3600000 (nextMonth 3600000 Sample.march_2024)) = Some 1709247600000.
Proof.
  destruct (nextMonth_prevMonth_return 3600000 1710460800000 Sample.march_2024)
    as (f & F & B & _).
  - vm_compute. discriminate.
  - vm_compute. intros [_ H]. apply H. reflexivity.
  - reflexivity.
  - rewrite B, <- F. vm_compute. reflexivity.
Defined.

(** *** The events of the cells *)

(** X14.  For a reference date as above, the events listed in the cell of
    index [i] of the grid are the events of the list whose start is an
    instant of the local day of that cell, the day [g + i] for the day [g]
    of the first cell: an event is listed in one cell at most, in none when
    its start is not a date or lies outside the 42 days. *)
Theorem grid_cell_events (tz t : Z) (st : State) :
  Cond.deep t -> Cond.plain_years tz t -> viewDate st = Some t ->
  exists g,
    buildMonthGrid tz (Some t) !! 0%nat = Some (Some (g * Date.msPerDay - tz))
    /\ forall (i : nat) d ev,
         buildMonthGrid tz (Some t) !! i = Some d ->
         In ev (dayEvents (cell tz st d))
         <-> In ev (events st)
             /\ exists s, Date.parse tz (Event.start ev) = Some s
                          /\ Date.Day (Date.LocalTime tz s) = g + Z.of_nat i.
Proof.
  intros D P V.
  set (F := Date.Day (Date.LocalTime tz t) + (1 - Date.DateFromTime (Date.LocalTime tz t))).
  exists (F - (F + 4) mod 7). split.
  - rewrite (GridFacts.buildMonthGrid_value tz t (NavFacts.deep_inner t D)
               (NavFacts.plain_years_plain tz t P)).
    cbv zeta. fold F. change (seqZ 0 42) with (0 :: seqZ 1 41).
    cbn [fmap list_fmap lookup list_lookup]. do 2 f_equal. unfold Date.msPerDay. lia.
  - intros i d ev L. unfold cell. cbn [dayEvents].
    exact (NavFacts.cell_events tz t i d (events st) ev D P L).
Qed.

(** Witness: "Sync" and "Lunch" start on 15 March 2024; the first cell of
    the grid of March 2024 is 25 February, and the two events are listed in
    the cell of index 19. *)
Lemma grid_cell_events_witness :
  exists d,
    buildMonthGrid 0 (Some 1710460800000) !! 19%nat = Some d
    /\ In Sample.sync
         (dayEvents (cell 0 (Sample.with_events [Sample.sync; Sample.lunch]) d)).
Proof.
  destruct (grid_cell_events 0 1710460800000 (Sample.with_events [Sample.sync; Sample.lunch]))
    as (g & G & H).
  - vm_compute. discriminate.
  - vm_compute. intros [_ K]. apply K. reflexivity.
  - reflexivity.
  - assert (g = 19778) as ->.
    { assert (L0 : buildMonthGrid 0 (Some 1710460800000) !! 0%nat
                   = Some (Some 1708819200000)) by (vm_compute; reflexivity).
      rewrite L0 in G. injection G as G. unfold Date.msPerDay in G. lia. }
    destruct (buildMonthGrid 0 (Some 1710460800000) !! 19%nat) as [d |] eqn:L;
      [| vm_compute in L; discriminate].
    exists d. split; [reflexivity |]. apply (H 19%nat d Sample.sync L).
    split; [left; reflexivity |]. exists 1710493200000.
    split; vm_compute; reflexivity.
Defined.

(** *** Today *)

(** X15.  After [goToday], on a day that is the day kept as today, the grid
    holds the cell of today: it lies in the month shown, it is marked as
    today, and no other cell is.  (The date is a hundred days inside the
    range of Date and its local year is not one of 0..99.) *)
Theorem goToday_shows_today (tz now b : Z) (st : State) :
  Spec.inner now -> Spec.plain_year tz now ->
  today st = Some b ->
  Date.Day (Date.LocalTime tz b) = Date.Day (Date.LocalTime tz now) ->
  let st' := goToday now st in
  exists (i : nat) d,
    buildMonthGrid tz (viewDate st') !! i = Some d
    /\ inMonth (cell tz st' d) = true
    /\ forall (j : nat) d',
         buildMonthGrid tz (viewDate st') !! j = Some d' ->
         isToday (cell tz st' d') = true <-> j = i.
Proof.
  intros I P T Db st'. unfold st', goToday. cbn [viewDate setViewDate].
  destruct (NavFacts.grid_has_day tz now I P) as (i & Hi & L). cbv zeta in Hi, L.
  set (lt := Date.LocalTime tz now) in *.
  set (F := Date.Day lt + (1 - Date.DateFromTime lt)) in *.
  exists i, (Some (Date.Day lt * Date.msPerDay - tz)).
  split; [exact L |].
  destruct (GridFacts.LocalTime_midnight tz (Date.Day lt)) as [Dc _].
  split.
  - unfold cell. cbn [inMonth viewDate setViewDate Date.getMonth mbind option_bind
                      strict_equal].
    apply Z.eqb_eq. fold lt.
    set (c := Date.LocalTime tz (Date.Day lt * Date.msPerDay - tz)) in *.
    unfold Date.MonthFromTime, Date.DayWithinYear, Date.InLeapYear, Date.YearFromTime.
    by rewrite Dc.
  - intros j d' L'.
    destruct (ViewFacts.buildMonthGrid_lookup tz now j d' I P L') as [Hj ->]. fold lt F.
    unfold cell. cbn [isToday today setViewDate]. rewrite T.
    rewrite ListFacts.jsstring_eqb_eq, DateStringFacts.toDateString_same_day.
    destruct (GridFacts.LocalTime_midnight tz (F - (F + 4) mod 7 + Z.of_nat j)) as [Dj _].
    rewrite Dj, Db. fold lt. unfold F in *. lia.
Qed.

(** Witness: 15 March 2024 on a host one hour ahead of UTC. *)
Lemma goToday_shows_today_witness :
  exists (i : nat) d,
    buildMonthGrid 3600000 (viewDate (goToday 1710460800000 Sample.march_2024)) !! i = Some d
    /\ inMonth (cell 3600000 (goToday 1710460800000 Sample.march_2024) d) = true
    /\ isToday (cell 3600000 (goToday 1710460800000 Sample.march_2024) d) = true.
Proof.
  destruct (goToday_shows_today 3600000 1710460800000 1710460800000 Sample.march_2024)
    as (i & d & L & M & H).
  - vm_compute. discriminate.
  - vm_compute. intros [_ K]. apply K. reflexivity.
  - reflexivity.
  - reflexivity.
  - exists i, d. split; [exact L |]. split; [exact M |]. by apply (H i d L).
Defined.

(** ** Share links and storage, in general *)

Module TotalFacts.
Import JSON URIFacts StringFacts NumFacts ParseFacts TextFacts Cond.

Lemma digits_ascii n : 0 <= n -> Forall (fun c => 0 <= c < 128) (digits n).
Proof.
  intros N. destruct (Z.eq_dec n 0) as [-> | P].
  - change (digits 0) with [48]. repeat constructor; lia.
  - destruct (digits_pad_spec n ltac:(lia)) as (k & -> & _).
    eapply Forall_impl; [apply digits_pad_ascii |]. cbn. intros. lia.
Qed.

Lemma exponent_string_ascii x : Forall (fun c => 0 <= c < 128) (Num.exponent_string x).
Proof.
  unfold Num.exponent_string. apply Forall_app. split; [repeat constructor; lia |].
  apply Forall_app. split; [destruct (0 <=? x); repeat constructor; lia |].
  apply digits_ascii. lia.
Qed.

Lemma positive_toString_ascii m e :
  0 < m -> Forall (fun c => 0 <= c < 128) (Num.positive_toString m e).
Proof.
  intros M. unfold Num.positive_toString. cbv zeta.
  pose proof (digits_ascii m ltac:(lia)) as D.
  assert (Z0 : forall k, Forall (fun c => 0 <= c < 128) (repeat 48 k)).
  { intros k. apply List.Forall_forall. intros c Hc. apply repeat_spec in Hc. lia. }
  repeat case_match; repeat (apply Forall_app; split);
    first [ exact D | apply Z0 | apply exponent_string_ascii
          | apply Forall_take; exact D | apply Forall_drop; exact D
          | apply digits_ascii; lia
          | case_match; repeat (first [apply List.Forall_nil | apply List.Forall_cons; [lia |]])
          | repeat (first [apply List.Forall_nil | apply List.Forall_cons; [lia |]]) ].
Qed.

(** Every number prints in ASCII. *)
Lemma toString_ascii n : Forall (fun c => 0 <= c < 128) (Num.toString n).
Proof.
  destruct n as [| [] | m e]; cbn [Num.toString].
  - apply List.Forall_forall. intros c Hc. vm_compute in Hc. intuition lia.
  - apply List.Forall_forall. intros c Hc. vm_compute in Hc. intuition lia.
  - apply List.Forall_forall. intros c Hc. vm_compute in Hc. intuition lia.
  - destruct (Z.eqb_spec m 0); [repeat constructor; lia |].
    destruct (Z.ltb_spec m 0).
    + constructor; [lia |]. apply positive_toString_ascii. lia.
    + apply positive_toString_ascii. lia.
Qed.

Lemma encodable_any_number n : encodable (stringify_number n).
Proof.
  apply encodable_ascii. destruct n as [| b | m e]; cbn [stringify_number].
  - apply List.Forall_forall. intros c Hc. vm_compute in Hc. intuition lia.
  - apply List.Forall_forall. intros c Hc. vm_compute in Hc. intuition lia.
  - apply toString_ascii.
Qed.

Lemma encodable_text_event e : text_event e -> encodable (stringify (Event.to_value e)).
Proof.
  intros (Fi & Ft & Fs & Fd & Fa).
  rewrite stringify_event.
  repeat first
    [ apply (encodable_app [123]); [by apply (encodable_literal "{") |]
    | apply (encodable_app [58]); [by apply (encodable_literal ":") |]
    | apply (encodable_app [44]); [by apply (encodable_literal ",") |]
    | by apply (encodable_literal "}")
    | apply encodable_app;
      [first [ apply encodable_quote; first [assumption | by apply literal_code_units]
             | apply encodable_any_number
             | by apply encodable_strings ] |] ].
Qed.

Lemma encodable_text_events evs :
  Forall text_event evs -> encodable (stringify (VArr (List.map Event.to_value evs))).
Proof.
  intros F. change (stringify (VArr ?l)) with ([91] ++ join [44] (List.map stringify l) ++ [93]).
  apply (encodable_app [91]); [by apply (encodable_literal "[") |].
  apply encodable_app; [| by apply (encodable_literal "]")].
  apply encodable_join; [by apply (encodable_literal ",") |].
  apply List.Forall_forall. intros x Hx.
  apply in_map_iff in Hx as (v & <- & Hv). apply in_map_iff in Hv as (e & <- & He).
  apply encodable_text_event. rewrite List.Forall_forall in F. by apply F.
Qed.

(** [set] leaves the pairs of the other names alone. *)
Lemma URL_get_set_other name other v q :
  other <> name -> URL.get other (URL.set name v q) = URL.get other q.
Proof.
  intros N. induction q as [| [k w] r IH]; cbn [URL.set URL.get].
  - by rewrite (proj2 (ListFacts.jsstring_eqb_neq name other)) by congruence.
  - destruct (jsstring_eqb k name) eqn:K; cbn [URL.get].
    + apply ListFacts.jsstring_eqb_eq in K as ->.
      rewrite (proj2 (ListFacts.jsstring_eqb_neq name other)) by congruence.
      clear IH. induction r as [| [k' w'] r IH]; [reflexivity |].
      cbn [List.filter fst URL.get].
      destruct (jsstring_eqb k' name) eqn:K'; cbn [negb URL.get].
      * apply ListFacts.jsstring_eqb_eq in K' as ->.
        by rewrite (proj2 (ListFacts.jsstring_eqb_neq name other)) by congruence.
      * destruct (jsstring_eqb k' other); [reflexivity | exact IH].
    + destruct (jsstring_eqb k other); [reflexivity | exact IH].
Qed.

End TotalFacts.

(** *** The share link, whatever the events hold *)

(** X16.  [makeShareLink] returns a link for every list of events, whatever
    their texts and durations: JSON.stringify escapes the surrogates that
    [encodeURIComponent] would throw on, and [btoa] is given ASCII.  The link
    keeps the address of the page and its other query parameters, and its
    [shared] parameter is the payload, which is not empty. *)
Theorem makeShareLink_total (loc : URL.t) (evs : list Event.t) :
  Forall Cond.text_event evs ->
  exists payload link,
    share_payload evs = Some payload
    /\ makeShareLink loc evs = Some link
    /\ payload <> []
    /\ URL.base link = URL.base loc
    /\ URL.get (str "shared") (URL.searchParams link) = Some payload
    /\ forall name, name <> str "shared" ->
         URL.get name (URL.searchParams link) = URL.get name (URL.searchParams loc).
Proof.
  intros F. destruct (TotalFacts.encodable_text_events evs F) as [U W].
  destruct (URIFacts.encode_well_formed _ W) as [escaped E].
  pose proof (URIFacts.encode_bytes _ U _ E) as B.
  exists (Base64.encode escaped). eexists.
  unfold makeShareLink, share_payload. rewrite E. cbn [mbind option_bind].
  rewrite (Base64Facts.btoa_ascii _ B). cbn [mbind option_bind].
  split; [reflexivity |]. split; [reflexivity |]. split.
  { apply Base64Facts.base64_nonempty. eapply URIFacts.escaped_nonempty; [| exact E].
    discriminate. }
  split; [reflexivity |]. cbn [URL.searchParams]. split.
  - apply LoadFacts.URL_get_set.
  - intros name N. by apply TotalFacts.URL_get_set_other.
Qed.

(** Witness: an event whose title is a surrogate on its own and whose
    duration is NaN. *)
Lemma makeShareLink_total_witness :
  exists link,
    makeShareLink (location (Sample.host None None))
      [{| Event.id := []; Event.title := [55357]; Event.start := [];
          Event.duration := Num.NaN; Event.description := []; Event.attendees := [] |}]
    = Some link.
Proof.
  destruct (makeShareLink_total (location (Sample.host None None))
              [{| Event.id := []; Event.title := [55357]; Event.start := [];
                  Event.duration := Num.NaN; Event.description := [];
                  Event.attendees := [] |}])
    as (payload & link & _ & L & _).
  - constructor; [| constructor]. unfold Cond.text_event. cbn.
    repeat split; repeat constructor; unfold code_unit; lia.
  - exists link. exact L.
Defined.

(** *** The local storage *)

(** X17.  What the persisting effect stores is what the loading effect reads
    back: a page opened without a [shared] parameter, on a storage in which
    a list of valid events was persisted, loads that list; [persist] writes
    the entry of the calendar and no other. *)
Theorem persist_then_load
    (random_id : nat -> jsstring) (loc : URL.t) (storage : gmap jsstring jsstring)
    (evs : list Event.t) :
  Forall Spec.valid_event evs ->
  URL.get (str "shared") (URL.searchParams loc) = None ->
  load random_id {| location := loc; localStorage := persist evs storage |}
  = {| loaded_events := JSON.VArr (List.map Event.to_value evs);
       warned := false; storage_read := true |}
  /\ forall key, key <> STORAGE_KEY -> persist evs storage !! key = storage !! key.
Proof.
  intros F G. split; [by apply ShareFacts.load_persisted |].
  intros key N. unfold persist. by rewrite lookup_insert_ne.
Qed.

(** Witness: "Sync" and "Lunch", persisted on an empty storage. *)
Lemma persist_then_load_witness :
  load Sample.ids {| location := location (Sample.host None None);
                     localStorage := persist [Sample.sync; Sample.lunch] ∅ |}
  = {| loaded_events := JSON.VArr (List.map Event.to_value [Sample.sync; Sample.lunch]);
       warned := false; storage_read := true |}.
Proof.
  destruct (persist_then_load Sample.ids (location (Sample.host None None)) ∅
              [Sample.sync; Sample.lunch]) as [L _].
  - exact sample_events_valid.
  - reflexivity.
  - exact L.
Defined.

(** ** The invitation by mail, and what a cell shows *)

Module MailFacts.
Import URI URIFacts Cond.

Lemma hex_upper_unreserved d : 0 <= d < 16 -> unreserved (hex_char_upper d) = true.
Proof.
  intros D. unfold unreserved, is_alnum, hex_char_upper.
  destruct (Z.ltb_spec d 10); apply orb_true_iff; left;
    rewrite !orb_true_iff, !andb_true_iff, !Z.leb_le; lia.
Qed.

Lemma percent_escaped l : Forall Base64.byte l -> Forall escaped_unit (percent l).
Proof.
  unfold Base64.byte. induction 1 as [| b l B _ IH]; cbn [percent]; [constructor |].
  apply List.Forall_cons; [by right |].
  apply List.Forall_cons;
    [left; apply hex_upper_unreserved; Z.div_mod_to_equations; lia |].
  apply List.Forall_cons;
    [left; apply hex_upper_unreserved; Z.div_mod_to_equations; lia | exact IH].
Qed.

(** The result of [encodeURIComponent] holds unreserved characters and
    escapes only. *)
Lemma encode_escaped s :
  Forall code_unit s ->
  forall e, encodeURIComponent s = Some e -> Forall escaped_unit e.
Proof.
  induction s as [| c r IH1 IH2] using list_ind2; intros F e E.
  - injection E as <-. constructor.
  - inversion_clear F as [| ? ? U F'].
    destruct (encodeURIComponent_cons c r e U E)
      as [(Un & e' & E' & ->) | [(cp & S & P & e' & E' & ->)
                                | (c2 & r2 & cp & -> & S & P & e' & E' & ->)]].
    + apply List.Forall_cons; [by left | by apply IH1].
    + apply Forall_app. split; [| by apply IH1].
      apply percent_escaped, utf8_bytes, S.
    + inversion_clear F' as [| ? ? U2 F]. apply Forall_app. split; [| by eapply IH2].
      apply percent_escaped, utf8_bytes, S.
Qed.

(** [encodeURIComponent] throws on a string that is not well formed. *)
Lemma encode_ill_formed s : well_formed s = false -> encodeURIComponent s = None.
Proof.
  induction s as [| c r IH1 IH2] using list_ind2; intros W; [discriminate |].
  cbn [well_formed encodeURIComponent] in *.
  destruct (unreserved c) eqn:Un.
  - apply unreserved_ascii in Un as [Un _].
    replace (is_lead c) with false in W by (symmetry; apply is_lead_false; lia).
    replace (is_trail c) with false in W by (symmetry; apply is_trail_false; lia).
    cbn [negb andb] in W. by rewrite (IH1 W).
  - destruct (is_lead c) eqn:L.
    + replace (is_trail c) with false
        by (symmetry; apply is_trail_false; apply is_lead_spec in L; lia).
      destruct r as [| c2 r2]; [reflexivity |].
      destruct (is_trail c2); [| reflexivity].
      cbn [andb] in W. by rewrite (IH2 c2 r2 eq_refl W).
    + destruct (is_trail c); [reflexivity |].
      cbn [negb andb] in W. by rewrite (IH1 W).
Qed.

End MailFacts.

Module CellFacts.

(** In a sorted list, what comes first is related to what comes after. *)
Lemma StronglySorted_app {A} (R : A -> A -> Prop) l1 l2 :
  StronglySorted R (l1 ++ l2) -> forall a b, In a l1 -> In b l2 -> R a b.
Proof.
  induction l1 as [| x l1 IH]; intros S a b Ha Hb; [destruct Ha |].
  cbn [app] in S. apply StronglySorted_inv in S as [S F].
  destruct Ha as [-> | Ha]; [| by apply IH].
  rewrite List.Forall_forall in F. apply F. apply in_or_app. by right.
Qed.

End CellFacts.

(** *** The invitation by mail *)

(** X18.  For an event whose title and description are well-formed strings,
    and a host whose [toLocaleString] gives one, [inviteByEmail] sends the
    page to a [mailto:] address made of the attendees joined by commas (as
    they are, without escaping), the escaped title as subject and the escaped
    invitation as body: the two decode back to the title and to the text of
    the invitation, and hold nothing but unreserved characters and escapes.
    On a title with a surrogate on its own, [encodeURIComponent] throws. *)
Theorem inviteByEmail_address
    (tz : Z) (toLocaleString : Date.date -> jsstring) (ev : Event.t) :
  encodable (Event.title ev) -> encodable (Event.description ev) ->
  encodable (toLocaleString (Date.parse tz (Event.start ev))) ->
  exists subj body,
    inviteByEmail tz toLocaleString ev
    = Some (str "mailto:" ++ join (str ",") (Event.attendees ev)
            ++ str "?subject=" ++ subj ++ str "&body=" ++ body)
    /\ URI.decodeURIComponent subj = Some (Event.title ev)
    /\ URI.decodeURIComponent body = Some (invitation tz toLocaleString ev)
    /\ Forall Cond.escaped_unit subj /\ Forall Cond.escaped_unit body.
Proof.
  intros [Ut Wt] Ed El.
  assert (Ei : encodable (invitation tz toLocaleString ev)).
  { unfold invitation. cbv zeta.
    repeat (apply TextFacts.encodable_app);
      try assumption; try (by split);
      try (apply TextFacts.encodable_ascii; apply TotalFacts.toString_ascii);
      apply TextFacts.encodable_ascii; repeat constructor; lia. }
  destruct Ei as [Ui Wi].
  destruct (URIFacts.encode_well_formed _ Wt) as [subj Es].
  destruct (URIFacts.encode_well_formed _ Wi) as [body Eb].
  exists subj, body. unfold inviteByEmail. cbv zeta. rewrite Es, Eb.
  cbn [mbind option_bind]. split.
  { destruct (Event.attendees ev); reflexivity. }
  split; [exact (URIFacts.decode_encode _ Ut _ Es) |].
  split; [exact (URIFacts.decode_encode _ Ui _ Eb) |].
  split; [exact (MailFacts.encode_escaped _ Ut _ Es) | exact (MailFacts.encode_escaped _ Ui _ Eb)].
Qed.

(** Witness: "Sync", on a host whose [toLocaleString] is the ISO string. *)
Lemma inviteByEmail_address_witness :
  exists subj body,
    inviteByEmail 0 (fun d => default [] (Date.toISOString d)) Sample.sync
    = Some (str "mailto:ana@example.com?subject=" ++ subj ++ str "&body=" ++ body)
    /\ URI.decodeURIComponent subj = Some (str "Sync").
Proof.
  destruct (inviteByEmail_address 0 (fun d => default [] (Date.toISOString d)) Sample.sync)
    as (subj & body & E & D & _).
  - apply TextFacts.encodable_ascii. apply List.Forall_forall. intros c Hc.
    vm_compute in Hc. intuition lia.
  - apply TextFacts.encodable_ascii. apply List.Forall_forall. intros c Hc.
    vm_compute in Hc. intuition lia.
  - apply TextFacts.encodable_ascii. apply List.Forall_forall. intros c Hc.
    vm_compute in Hc. intuition lia.
  - exists subj, body. split; [exact E | exact D].
Defined.

(** X19.  A title that holds a surrogate on its own makes [inviteByEmail]
    throw the URIError of [encodeURIComponent], whatever the rest of the
    event. *)
Theorem inviteByEmail_throws
    (tz : Z) (toLocaleString : Date.date -> jsstring) (ev : Event.t) :
  well_formed (Event.title ev) = false -> inviteByEmail tz toLocaleString ev = None.
Proof.
  intros W. unfold inviteByEmail. cbv zeta.
  by rewrite (MailFacts.encode_ill_formed _ W).
Qed.

(** Witness: a title that is one high surrogate. *)
Lemma inviteByEmail_throws_witness :
  inviteByEmail 0 (fun _ => [])
    {| Event.id := str "x"; Event.title := [55357]; Event.start := [];
       Event.duration := Num.of_Z 60; Event.description := []; Event.attendees := [] |}
  = None.
Proof. apply (inviteByEmail_throws 0 (fun _ => [])). reflexivity. Defined.

(** *** What a cell shows *)

(** X20.  For a date a hundred days inside the range of Date whose local year
    is not one of 0..99, a cell shows the first four events of its day at
    most, which are the earliest: its events are those shown followed by the
    others, every event shown starts no later than every other one, and the
    count of the others is given exactly when there are more than four. *)
Theorem cell_shows_earliest (tz t : Z) (st : State) :
  Spec.inner t -> Spec.plain_year tz t ->
  let c := cell tz st (Some t) in
  dayEvents c = shown c ++ drop 4 (dayEvents c)
  /\ (length (shown c) <= 4)%nat
  /\ (forall a b, In a (shown c) -> In b (drop 4 (dayEvents c)) -> Spec.start_le tz a b)
  /\ (more c = None <-> shown c = dayEvents c)
  /\ (forall k, more c = Some k <-> (0 < k)%nat /\ k = length (drop 4 (dayEvents c))).
Proof.
  intros I P c.
  destruct (DayFacts.eventsForDay_sorted_day tz (events st) t I P) as (t' & _ & _ & S).
  unfold c, cell. cbn [dayEvents shown more].
  set (evs := eventsForDay tz (events st) (Some t)) in *.
  split; [symmetry; apply take_drop |].
  split; [rewrite length_take; lia |].
  split.
  { rewrite <- (take_drop 4 evs) in S. exact (CellFacts.StronglySorted_app _ _ _ S). }
  split.
  - destruct (Nat.ltb_spec 4 (length evs)) as [L | L].
    + split; [discriminate |]. intros E. apply (f_equal (@length _)) in E.
      rewrite length_take in E. lia.
    + split; [| reflexivity]. intros _. by apply take_ge.
  - intros k. rewrite length_drop.
    destruct (Nat.ltb_spec 4 (length evs)) as [L | L].
    + split; [intros [= <-]; lia | intros [_ ->]; reflexivity].
    + split; [discriminate | lia].
Qed.

(** Witness: the two events of 15 March 2024 are both shown, the earlier
    first. *)
Lemma cell_shows_earliest_witness :
  shown (cell 0 (Sample.with_events [Sample.lunch; Sample.sync]) (Some 1710460800000))
  = dayEvents (cell 0 (Sample.with_events [Sample.lunch; Sample.sync]) (Some 1710460800000)).
Proof.
  destruct (cell_shows_earliest 0 1710460800000
              (Sample.with_events [Sample.lunch; Sample.sync]))
    as (_ & _ & _ & M & _).
  - vm_compute. discriminate.
  - vm_compute. intros [_ K]. apply K. reflexivity.
  - apply M. vm_compute. reflexivity.
Defined.

(** ** The order of the events of a day *)

Module StableFacts.
Import Cond.

Section Host.
Variable tz : Z.

(** Inserting an event into a list of events with valid starts leaves the
    events of a given start in their order, the new one in front. *)
Lemma filter_insert s x l :
  is_Some (Date.parse tz (Event.start x)) ->
  Forall (fun y => is_Some (Date.parse tz (Event.start y))) l ->
  List.filter (starts_at tz s)
    (insert (fun a b => Date.sub (Date.parse tz (Event.start a))
                          (Date.parse tz (Event.start b))) x l)
  = List.filter (starts_at tz s) (x :: l).
Proof.
  intros [sx Ex] F. induction F as [| y r [sy Ey] _ IH]; [reflexivity |].
  cbn [insert]. unfold SortCompare. cbv beta. rewrite Ey, Ex.
  cbn [Date.sub mbind option_bind].
  destruct (Z.ltb_spec (sy - sx) 0) as [L | L]; [| reflexivity].
  cbn [List.filter] in *. rewrite IH.
  assert (Px : starts_at tz s x = bool_decide (sx = s)).
  { unfold starts_at. rewrite Ex. apply bool_decide_ext. split; congruence. }
  assert (Py : starts_at tz s y = bool_decide (sy = s)).
  { unfold starts_at. rewrite Ey. apply bool_decide_ext. split; congruence. }
  rewrite Px, Py.
  destruct (decide (sx = s)) as [-> | Nx].
  - rewrite (bool_decide_eq_true_2 (s = s)) by reflexivity.
    rewrite (bool_decide_eq_false_2 (sy = s)) by lia. reflexivity.
  - rewrite (bool_decide_eq_false_2 (sx = s)) by lia. reflexivity.
Qed.

Lemma filter_filter_implied {A} (p q : A -> bool) l :
  (forall x, p x = true -> q x = true) ->
  List.filter p (List.filter q l) = List.filter p l.
Proof.
  intros H. induction l as [| x r IH]; [reflexivity |].
  cbn [List.filter]. destruct (q x) eqn:Q; cbn [List.filter].
  - by rewrite IH.
  - destruct (p x) eqn:Px; [| exact IH]. rewrite (H x Px) in Q. discriminate.
Qed.

(** Sorting by start is stable. *)
Lemma filter_sort s l :
  Forall (fun y => is_Some (Date.parse tz (Event.start y))) l ->
  List.filter (starts_at tz s)
    (sort (fun a b => Date.sub (Date.parse tz (Event.start a))
                        (Date.parse tz (Event.start b))) l)
  = List.filter (starts_at tz s) l.
Proof.
  induction 1 as [| x r X F IH]; [reflexivity |].
  cbn [sort]. rewrite filter_insert.
  - cbn [List.filter]. by rewrite IH.
  - exact X.
  - apply List.Forall_forall. intros y Hy.
    rewrite (SortFacts.sort_Permutation _ r) in Hy.
    rewrite List.Forall_forall in F. by apply F.
Qed.

End Host.
End StableFacts.

(** *** Events that start together *)

(** X21.  For a date a hundred days inside the range of Date whose local year
    is not one of 0..99, and an instant [s] of the local day of the date, the
    events that [eventsForDay] lists with the start [s] are the events of the
    list with that start, in the order of the list: the sort is stable. *)
Theorem eventsForDay_stable (tz t s : Z) (events : list Event.t) :
  Spec.inner t -> Spec.plain_year tz t ->
  Date.Day (Date.LocalTime tz s) = Date.Day (Date.LocalTime tz t) ->
  List.filter (Cond.starts_at tz s) (eventsForDay tz events (Some t))
  = List.filter (Cond.starts_at tz s) events.
Proof.
  intros I P D. rewrite (DayFacts.eventsForDay_value tz events t I P). cbv zeta.
  set (dayStart := Date.Day (Date.LocalTime tz t) * Date.msPerDay - tz).
  rewrite StableFacts.filter_sort.
  - apply StableFacts.filter_filter_implied. intros ev E.
    unfold Cond.starts_at in E. apply bool_decide_eq_true in E.
    unfold Spec.starts_in. rewrite E.
    rewrite andb_true_iff, Z.leb_le, Z.ltb_lt.
    revert D. unfold dayStart, Date.LocalTime, Date.Day, Date.msPerDay.
    Z.div_mod_to_equations. lia.
  - apply List.Forall_forall. intros ev Hev. apply filter_In in Hev as [_ Hev].
    unfold Spec.starts_in in Hev.
    destruct (Date.parse tz (Event.start ev)); [by eexists | discriminate].
Qed.

(** Witness: "Lunch" and "Sync" moved to the same noon of 15 March 2024 keep
    the order of the list. *)
Lemma eventsForDay_stable_witness :
  List.filter (Cond.starts_at 0 1710504000000)
    (eventsForDay 0
       [Sample.lunch; Sample.sync;
        {| Event.id := str "abc"; Event.title := str "Sync";
       Event.start := str "2024-03-15T12:00:00.000Z"; Event.duration := Num.of_Z 30;
       Event.description := []; Event.attendees := [] |}]
       (Some 1710460800000))
  = [Sample.lunch;
     {| Event.id := str "abc"; Event.title := str "Sync";
       Event.start := str "2024-03-15T12:00:00.000Z"; Event.duration := Num.of_Z 30;
       Event.description := []; Event.attendees := [] |}].
Proof.
  rewrite (eventsForDay_stable 0 1710460800000 1710504000000).
  - vm_compute. reflexivity.
  - vm_compute. discriminate.
  - vm_compute. intros [_ K]. apply K. reflexivity.
  - vm_compute. reflexivity.
Defined.

(** ** The exported text, line by line *)

Module LineFacts.
Import JSON NumFacts Cond.

Lemma no_line_feed_spec s : no_line_feed s = true <-> Forall (fun c => c <> 10) s.
Proof.
  unfold no_line_feed. rewrite forallb_forall, List.Forall_forall.
  split; intros H c Hc; specialize (H c Hc).
  - apply negb_true_iff, Z.eqb_neq in H. exact H.
  - apply negb_true_iff, Z.eqb_neq. exact H.
Qed.

(** The visible part of ASCII holds no line feed. *)
Lemma printable_no_line_feed s : Forall (fun c => 32 <= c < 128) s -> Forall (fun c => c <> 10) s.
Proof. intros F. eapply Forall_impl; [exact F |]. cbn. intros. lia. Qed.

(** *** Reading back what was joined *)

Lemma lines_from_last cur x :
  Forall (fun c => c <> 10) x -> lines_from cur x = [rev cur ++ x].
Proof.
  revert cur. induction x as [| c r IH]; intros cur F.
  - cbn. by rewrite app_nil_r.
  - apply Forall_cons in F as [_ F]. destruct r as [| c' r'].
    + reflexivity.
    + pose proof F as F'. apply Forall_cons in F' as [N _].
      change (lines_from cur (c :: c' :: r'))
        with (if (c =? 13) && (c' =? 10) then rev cur :: lines_from [] r'
              else lines_from (c :: cur) (c' :: r')).
      replace ((c =? 13) && (c' =? 10)) with false
        by (symmetry; apply andb_false_iff; right; apply Z.eqb_neq; exact N).
      rewrite IH by exact F. cbn [rev]. by rewrite <- app_assoc.
Qed.

Lemma lines_from_line cur x rest :
  Forall (fun c => c <> 10) x ->
  lines_from cur (x ++ 13 :: 10 :: rest) = (rev cur ++ x) :: lines_from [] rest.
Proof.
  revert cur. induction x as [| c r IH]; intros cur F.
  - cbn. by rewrite app_nil_r.
  - apply Forall_cons in F as [_ F].
    assert (E : lines_from cur ((c :: r) ++ 13 :: 10 :: rest)
                = lines_from (c :: cur) (r ++ 13 :: 10 :: rest)).
    { destruct r as [| c' r'].
      - cbn [app].
        change (lines_from cur (c :: 13 :: 10 :: rest))
          with (if (c =? 13) && (13 =? 10) then rev cur :: lines_from [] (10 :: rest)
                else lines_from (c :: cur) (13 :: 10 :: rest)).
        by rewrite andb_false_r.
      - apply Forall_cons in F as [N _]. cbn [app].
        change (lines_from cur (c :: c' :: r' ++ 13 :: 10 :: rest))
          with (if (c =? 13) && (c' =? 10)
                then rev cur :: lines_from [] (r' ++ 13 :: 10 :: rest)
                else lines_from (c :: cur) (c' :: r' ++ 13 :: 10 :: rest)).
        replace ((c =? 13) && (c' =? 10)) with false
          by (symmetry; apply andb_false_iff; right; apply Z.eqb_neq; exact N).
        reflexivity. }
    rewrite E, IH by exact F. cbn [rev]. by rewrite <- app_assoc.
Qed.

(** Lines without a line feed, joined by CRLF, are read back as they
    were. *)
Lemma text_lines_join ls :
  ls <> [] -> Forall (fun x => Forall (fun c => c <> 10) x) ls ->
  text_lines (join [13; 10] ls) = ls.
Proof.
  unfold text_lines. induction ls as [| x r IH]; intros N F; [done |].
  apply Forall_cons in F as [Fx Fr]. destruct r as [| y r].
  - cbn [join]. by rewrite lines_from_last.
  - change (join [13; 10] (x :: y :: r)) with (x ++ 13 :: 10 :: join [13; 10] (y :: r)).
    rewrite lines_from_line by exact Fx. cbn [rev app]. f_equal. by apply IH.
Qed.

(** *** What the lines are made of *)

Lemma digits_printable n : 0 <= n -> Forall (fun c => 32 <= c < 128) (digits n).
Proof.
  intros N. destruct (Z.eq_dec n 0) as [-> | P].
  - change (digits 0) with [48]. repeat constructor; lia.
  - destruct (digits_pad_spec n ltac:(lia)) as (k & -> & _).
    eapply Forall_impl; [apply digits_pad_ascii |]. cbn. intros. lia.
Qed.

Lemma exponent_string_printable x : Forall (fun c => 32 <= c < 128) (Num.exponent_string x).
Proof.
  unfold Num.exponent_string. apply Forall_app. split; [repeat constructor; lia |].
  apply Forall_app. split; [destruct (0 <=? x); repeat constructor; lia |].
  apply digits_printable. lia.
Qed.

Lemma positive_toString_printable m e :
  0 < m -> Forall (fun c => 32 <= c < 128) (Num.positive_toString m e).
Proof.
  intros M. unfold Num.positive_toString. cbv zeta.
  pose proof (digits_printable m ltac:(lia)) as D.
  assert (Z0 : forall k, Forall (fun c => 32 <= c < 128) (repeat 48 k)).
  { intros k. apply List.Forall_forall. intros c Hc. apply repeat_spec in Hc. lia. }
  repeat case_match; repeat (apply Forall_app; split);
    first [ exact D | apply Z0 | apply exponent_string_printable
          | apply Forall_take; exact D | apply Forall_drop; exact D
          | apply digits_printable; lia
          | case_match; repeat (first [apply List.Forall_nil | apply List.Forall_cons; [lia |]])
          | repeat (first [apply List.Forall_nil | apply List.Forall_cons; [lia |]]) ].
Qed.

Lemma toString_printable n : Forall (fun c => 32 <= c < 128) (Num.toString n).
Proof.
  destruct n as [| [] | m e]; cbn [Num.toString].
  - apply List.Forall_forall. intros c Hc. vm_compute in Hc. intuition lia.
  - apply List.Forall_forall. intros c Hc. vm_compute in Hc. intuition lia.
  - apply List.Forall_forall. intros c Hc. vm_compute in Hc. intuition lia.
  - destruct (Z.eqb_spec m 0); [repeat constructor; lia |].
    destruct (Z.ltb_spec m 0).
    + constructor; [lia |]. apply positive_toString_printable. lia.
    + apply positive_toString_printable. lia.
Qed.

Lemma ToString_printable x : Forall (fun c => 32 <= c < 128) (ToString x).
Proof.
  destruct x as [z |]; cbn [ToString]; [apply toString_printable |].
  apply List.Forall_forall. intros c Hc. vm_compute in Hc. intuition lia.
Qed.

Lemma padStart_printable n s : Forall (fun c => 32 <= c < 128) s -> Forall (fun c => 32 <= c < 128) (padStart n 48 s).
Proof.
  intros F. unfold padStart. apply Forall_app. split; [| exact F].
  apply List.Forall_forall. intros c Hc. apply repeat_spec in Hc. lia.
Qed.

Lemma literal_printable (s : string) :
  forallb (fun c => (32 <=? c) && (c <? 128)) (str s) = true ->
  Forall (fun c => 32 <= c < 128) (str s).
Proof.
  rewrite forallb_forall, List.Forall_forall. intros H c Hc.
  specialize (H c Hc). apply andb_true_iff in H. rewrite Z.leb_le, Z.ltb_lt in H. exact H.
Qed.

(** Whatever the date, valid or not, its ICS form is printable ASCII. *)
Lemma formatICSDatetime_printable d : Forall (fun c => 32 <= c < 128) (formatICSDatetime d).
Proof.
  unfold formatICSDatetime. cbv zeta.
  repeat (apply Forall_app; split);
    first [ apply ToString_printable
          | apply padStart_printable, ToString_printable
          | by apply literal_printable
          | apply List.Forall_forall; intros c Hc; apply repeat_spec in Hc; lia ].
Qed.

Lemma replaceAll_no_line_feed by_ s :
  Forall (fun c => c <> 10) by_ -> Forall (fun c => c <> 10) (replaceAll 10 by_ s).
Proof.
  intros B. induction s as [| c r IH]; cbn [replaceAll]; [constructor |].
  destruct (Z.eqb_spec c 10) as [-> | N].
  - apply Forall_app. by split.
  - by constructor.
Qed.

Lemma replaceAll_keeps (P : Z -> Prop) c by_ s :
  Forall P by_ -> Forall P s -> Forall P (replaceAll c by_ s).
Proof.
  intros B. induction 1 as [| x r Hx Hr IH]; cbn [replaceAll]; [constructor |].
  destruct (x =? c).
  - apply Forall_app. by split.
  - by constructor.
Qed.

(** [escapeICSText] leaves no line feed. *)
Lemma escapeICSText_no_line_feed s : Forall (fun c => c <> 10) (escapeICSText s).
Proof.
  unfold escapeICSText. apply replaceAll_keeps; [by repeat constructor |].
  apply replaceAll_no_line_feed. by repeat constructor.
Qed.

Lemma join_no_line_feed sep l :
  Forall (fun c => c <> 10) sep -> Forall (fun x => Forall (fun c => c <> 10) x) l ->
  Forall (fun c => c <> 10) (join sep l).
Proof.
  intros S. induction 1 as [| x r Hx Hr IH]; [constructor |].
  destruct r as [| y r]; [exact Hx |].
  change (join sep (x :: y :: r)) with (x ++ sep ++ join sep (y :: r)).
  apply Forall_app. split; [exact Hx |]. apply Forall_app. by split.
Qed.

Lemma literal_no_line_feed (s : string) :
  no_line_feed (str s) = true -> Forall (fun c => c <> 10) (str s).
Proof. apply no_line_feed_spec. Qed.

Section Lines.
Variable tz : Z.

Lemma vevent_no_line_feed now ev :
  single_line ev -> Forall (fun x => Forall (fun c => c <> 10) x) (vevent tz now ev).
Proof.
  intros [I A]. apply no_line_feed_spec in I.
  assert (A' : Forall (fun x => Forall (fun c => c <> 10) x) (Event.attendees ev)).
  { apply List.Forall_forall. intros a Ha. apply no_line_feed_spec.
    rewrite forallb_forall in A. by apply A. }
  assert (L : forall (p : string) x,
             no_line_feed (str p) = true -> Forall (fun c => c <> 10) x ->
             Forall (fun c => c <> 10) (str p ++ x)).
  { intros p x Hp Hx. apply Forall_app. split; [by apply literal_no_line_feed | exact Hx]. }
  pose proof (fun d => printable_no_line_feed _ (formatICSDatetime_printable d)) as D.
  unfold vevent. cbv zeta.
  apply Forall_app. split; [| apply Forall_app; split; [| apply Forall_app; split]].
  - apply List.Forall_cons; [by apply literal_no_line_feed |].
    apply List.Forall_cons.
    { apply L; [reflexivity |]. apply Forall_app.
      split; [exact I | by apply literal_no_line_feed]. }
    do 3 (apply List.Forall_cons; [apply L; [reflexivity | apply D] |]).
    apply List.Forall_cons; [| apply List.Forall_nil].
    apply L; [reflexivity | apply escapeICSText_no_line_feed].
  - destruct (jsstring_eqb (Event.description ev) []); [apply List.Forall_nil |].
    apply List.Forall_cons; [| apply List.Forall_nil].
    apply L; [reflexivity | apply escapeICSText_no_line_feed].
  - destruct (Event.attendees ev) as [| a r] eqn:E; [apply List.Forall_nil |].
    apply List.Forall_cons; [| apply List.Forall_nil].
    apply L; [reflexivity |].
    apply join_no_line_feed; [by apply literal_no_line_feed | exact A'].
  - apply List.Forall_cons; [by apply literal_no_line_feed | apply List.Forall_nil].
Qed.

Lemma vevents_no_line_feed clock i events :
  Forall single_line events ->
  Forall (fun x => Forall (fun c => c <> 10) x) (vevents tz clock i events).
Proof.
  intros F. revert i. induction F as [| ev r Hev Hr IH]; intros i; [constructor |].
  cbn [vevents]. apply Forall_app. split; [by apply vevent_no_line_feed | apply IH].
Qed.

Lemma exportICS_text_lines_back clock events :
  Forall single_line events ->
  text_lines (exportICS tz clock events) = exportICS_lines tz clock events.
Proof.
  intros F. unfold exportICS. apply text_lines_join; [done |].
  unfold exportICS_lines. apply Forall_app. split; [| apply Forall_app; split].
  - do 3 (apply List.Forall_cons; [by apply literal_no_line_feed |]).
    apply List.Forall_nil.
  - by apply vevents_no_line_feed.
  - apply List.Forall_cons; [by apply literal_no_line_feed | apply List.Forall_nil].
Qed.
End Lines.
End LineFacts.

(** X5.  When no id and no attendee of the events holds a line feed, the
    exported text, read line by line, is the list of the lines that
    [exportICS] pushed, and its lines that begin with UID: are those of the
    events, one for each event and in the order of the list. *)
Theorem exportICS_uids (tz : Z) (clock : nat -> Z) (events : list Event.t) :
  Forall Cond.single_line events ->
  text_lines (exportICS tz clock events) = exportICS_lines tz clock events
  /\ List.filter (starts_with (str "UID:")) (text_lines (exportICS tz clock events))
     = List.map (fun ev => str "UID:" ++ Event.id ev ++ str "@sharedcalendar.local") events.
Proof.
  intros F. rewrite (LineFacts.exportICS_text_lines_back tz clock events F).
  split; [reflexivity | apply exportICS_lines_uids].
Qed.

(** Witness: the two events of the sample calendar. *)
Lemma exportICS_uids_witness :
  List.filter (starts_with (str "UID:"))
    (text_lines (exportICS 0 (fun _ => 1710460800000) [Sample.sync; Sample.lunch]))
  = [str "UID:abc@sharedcalendar.local"; str "UID:def@sharedcalendar.local"].
Proof.
  destruct (exportICS_uids 0 (fun _ => 1710460800000) [Sample.sync; Sample.lunch]) as [_ U].
  - repeat constructor.
  - exact U.
Defined.

(** Without the condition of X5 the text has lines that no event stands for:
    an attendee that holds a line end and what looks like a UID line gives
    the text a second UID line. *)
Lemma exportICS_line_break_in_attendee :
  List.filter (starts_with (str "UID:"))
    (text_lines
       (exportICS 0 (fun _ => 1710460800000)
          [{| Event.id := str "abc"; Event.title := str "Sync";
              Event.start := str "2024-03-15T09:00:00.000Z"; Event.duration := Num.of_Z 30;
              Event.description := [];
              Event.attendees
              := [str "a" ++ [13; 10] ++ str "UID:forged@evil"] |}]))
  = [str "UID:abc@sharedcalendar.local"; str "UID:forged@evil"].
Proof. vm_compute. reflexivity. Qed.
